(** * The MCP long-run acceptance driver (scripts/mcp_long_runner.py)

    A shallow embedding of the JSON-RPC session [MCPClient], of the
    scenario loop of [main], of the masking of logged arguments and of
    the two csv-backed stores (run log and tracking matrix), followed by
    the properties the specification states about them.

    The rest of the runner (the credentials, the start and the end of the
    session, the rounds of [main]) and the two scripts that report on the
    csv files (scripts/mcp_acceptance_report.py and
    scripts/mcp_generate_final_report.py) are embedded as well, with
    further properties that the code shows.

    Conventions of the embedding.
    - A Python [str] is the list of its code points ([pystr]); [len] is
      [length], [s[:n]] is [take n s].
    - A Python [int] is a [Z].
    - Values decoded from JSON are the inductive type [value]; a [dict]
      is an association list in insertion order.
    - An exception is a value of type [exn]; code that may raise returns
      a [result].
    - What the child process and the clock do is given from outside, as
      the script of a call ([call_env]) and of an operation ([op_env]);
      the functions of the Python library that the script calls on
      values ([json.loads], [json.dumps], [repr]) are the members of the
      class [PyLib]; the [csv] module is modelled. *)

From Stdlib Require Import ZArith List String Ascii Bool Lia.
From stdpp Require Import base option list gmap strings.

Set Default Proof Using "Type".
Set Warnings "-register-all".

(** ** Python strings *)

Definition pystr := list N.

(** The code points of an ASCII literal of the source. *)
Definition lit (s : string) : pystr :=
  map N_of_ascii (list_ascii_of_string s).

Definition chr_eqb (a b : N) : bool := N.eqb a b.

Fixpoint str_eqb (a b : pystr) : bool :=
  match a, b with
  | [], [] => true
  | x :: a', y :: b' => chr_eqb x y && str_eqb a' b'
  | _, _ => false
  end.

Definition LF : N := 10%N.
Definition CR : N := 13%N.
Definition DQUOTE : N := 34%N.
Definition COMMA : N := 44%N.
Definition BACKSLASH : N := 92%N.

(** [str.isspace] for one character (the Unicode white space that
    [str.strip] and the regular expression class [\s] use). *)
Definition py_isspace (c : N) : bool :=
  ((9 <=? c) && (c <=? 13) || (28 <=? c) && (c <=? 32)
   || (c =? 133) || (c =? 160) || (c =? 5760)
   || (8192 <=? c) && (c <=? 8202)
   || (c =? 8232) || (c =? 8233) || (c =? 8239) || (c =? 8287)
   || (c =? 12288))%N.

Fixpoint lstrip (s : pystr) : pystr :=
  match s with
  | c :: s' => if py_isspace c then lstrip s' else s
  | [] => []
  end.

(** [s.strip()] *)
Definition strip (s : pystr) : pystr := rev (lstrip (rev (lstrip s))).

(** [s.lower()].  The ASCII capitals go to their small letters and the
    Kelvin sign (U+212A) goes to [k]; these are the only code points whose
    lower case is an ASCII letter.  Every other code point is kept: its
    real lower case is again outside ASCII, so that a comparison of the
    result with an ASCII word, the only use the source makes of it, is
    decided as in Python. *)
Definition chr_lower (c : N) : N :=
  if ((65 <=? c) && (c <=? 90))%N then (c + 32)%N
  else if (c =? 8490)%N then 107%N
  else c.

Definition lower (s : pystr) : pystr := map chr_lower s.

(** ["sep".join(chunks)] *)
Fixpoint join (sep : pystr) (chunks : list pystr) : pystr :=
  match chunks with
  | [] => []
  | [c] => c
  | c :: rest => c ++ sep ++ join sep rest
  end.

(** [s.replace("\n", "\\n")] *)
Fixpoint escape_newlines (s : pystr) : pystr :=
  match s with
  | [] => []
  | c :: s' =>
      if chr_eqb c LF then BACKSLASH :: 110%N :: escape_newlines s'
      else c :: escape_newlines s'
  end.

(** [str(n)] for an [int]. *)
Fixpoint uint_digits (d : Decimal.uint) : pystr :=
  match d with
  | Decimal.Nil => []
  | Decimal.D0 d => 48%N :: uint_digits d
  | Decimal.D1 d => 49%N :: uint_digits d
  | Decimal.D2 d => 50%N :: uint_digits d
  | Decimal.D3 d => 51%N :: uint_digits d
  | Decimal.D4 d => 52%N :: uint_digits d
  | Decimal.D5 d => 53%N :: uint_digits d
  | Decimal.D6 d => 54%N :: uint_digits d
  | Decimal.D7 d => 55%N :: uint_digits d
  | Decimal.D8 d => 56%N :: uint_digits d
  | Decimal.D9 d => 57%N :: uint_digits d
  end.

Definition str_of_int (z : Z) : pystr :=
  match Z.to_int z with
  | Decimal.Pos d => uint_digits d
  | Decimal.Neg d => 45%N :: uint_digits d
  end.

(** ** Python values *)

(** A [float]: [m * 2^e], an infinity or a NaN. *)
Inductive pyfloat :=
| FFinite (m e : Z)
| FInf (negative : bool)
| FNan.

Inductive value :=
| VNone
| VBool (b : bool)
| VInt (z : Z)
| VFloat (f : pyfloat)
| VStr (s : pystr)
| VList (l : list value)
| VDict (d : list (pystr * value)).

Definition pydict := list (pystr * value).

(** [bool(v)] *)
Definition truthy (v : value) : bool :=
  match v with
  | VNone => false
  | VBool b => b
  | VInt z => negb (z =? 0)%Z
  | VFloat (FFinite m _) => negb (m =? 0)%Z
  | VFloat _ => true
  | VStr s => match s with [] => false | _ => true end
  | VList l => match l with [] => false | _ => true end
  | VDict d => match d with [] => false | _ => true end
  end.

Definition float_eq_int (f : pyfloat) (n : Z) : bool :=
  match f with
  | FFinite m e =>
      if (0 <=? e)%Z then (m * 2 ^ e =? n)%Z else (m =? n * 2 ^ (- e))%Z
  | _ => false
  end.

(** [v == n] for an [int] [n]: numbers compare by value, [True] is 1 and
    [False] is 0, anything else is different from an [int]. *)
Definition eq_int (v : value) (n : Z) : bool :=
  match v with
  | VInt z => (z =? n)%Z
  | VBool b => ((if b then 1 else 0) =? n)%Z
  | VFloat f => float_eq_int f n
  | _ => false
  end.

(** [v == s] for a [str] [s]. *)
Definition eq_str (v : value) (s : pystr) : bool :=
  match v with
  | VStr t => str_eqb t s
  | _ => false
  end.

(** [type(v).__name__] *)
Definition type_name (v : value) : pystr :=
  match v with
  | VNone => lit "NoneType"
  | VBool _ => lit "bool"
  | VInt _ => lit "int"
  | VFloat _ => lit "float"
  | VStr _ => lit "str"
  | VList _ => lit "list"
  | VDict _ => lit "dict"
  end.

(** *** Dictionaries *)

Fixpoint dict_get (d : pydict) (k : pystr) : option value :=
  match d with
  | [] => None
  | (k', v) :: d' => if str_eqb k' k then Some v else dict_get d' k
  end.

(** [k in d] *)
Definition dict_mem (d : pydict) (k : pystr) : bool :=
  match dict_get d k with Some _ => true | None => false end.

(** [d[k] = v]: an existing key keeps its place, a new one goes last. *)
Fixpoint dict_set (d : pydict) (k : pystr) (v : value) : pydict :=
  match d with
  | [] => [(k, v)]
  | (k', v') :: d' =>
      if str_eqb k' k then (k', v) :: d' else (k', v') :: dict_set d' k v
  end.

(** ** Exceptions *)

Inductive exn_class :=
| RuntimeError
| TimeoutError
| JSONDecodeError
| AttributeError
| TypeError
| OSError
| KeyError
| IndexError
| CsvError.

(** An exception with [str(ex)]. *)
Record exn := Exn { exn_type : exn_class; exn_str : pystr }.

Inductive result (A : Type) :=
| Ok (a : A)
| Raise (e : exn).

Arguments Ok {A} a.
Arguments Raise {A} e.

(** Sequencing: the first exception ends the computation. *)
#[export] Instance result_bind : MBind result := λ A B k r,
  match r with
  | Ok a => k a
  | Raise e => Raise e
  end.

Definition no_attribute (v : value) (attr : string) : exn :=
  Exn AttributeError
      (lit "'" ++ type_name v ++ lit "' object has no attribute '"
           ++ lit attr ++ lit "'").

Definition not_iterable (v : value) : exn :=
  Exn TypeError (lit "'" ++ type_name v ++ lit "' object is not iterable").

(** [v.get(k, default)]: only a [dict] has the method. *)
Definition py_get (v : value) (k : pystr) (default : value) : result value :=
  match v with
  | VDict d => Ok (match dict_get d k with Some x => x | None => default end)
  | _ => Raise (no_attribute v "get")
  end.

(** ** [mask_payload] *)

Definition sensitive : list pystr :=
  [lit "password"; lit "api_key"; lit "apikey"; lit "token"].

(** [low in sensitive] *)
Definition str_in (s : pystr) (l : list pystr) : bool :=
  existsb (str_eqb s) l.

Definition TRUNCATED : pystr := lit "...(truncated)".

Fixpoint _mask (v : value) (key : pystr) {struct v} : value :=
  let low := lower key in
  if str_in low sensitive then VStr (lit "***")
  else if str_eqb low (lit "stats") then VStr (lit "[stats_json]")
  else
    match v with
    | VDict d => VDict (map (λ kv, (fst kv, _mask (snd kv) (fst kv))) d)
    | VList l => VList (map (λ x, _mask x key) l)
    | VStr s =>
        if (600 <? length s)%nat then VStr (take 600 s ++ TRUNCATED)
        else v
    | _ => v
    end.

Definition mask_payload (payload : pydict) : value := _mask (VDict payload) [].

(** ** [parse_preview_id] and [parse_post_id] *)

(** [s] starts with the characters of [p]. *)
Fixpoint starts_with (p s : pystr) : bool :=
  match p, s with
  | [], _ => true
  | x :: p', y :: s' => chr_eqb x y && starts_with p' s'
  | _ :: _, [] => false
  end.

Fixpoint take_while (f : N -> bool) (s : pystr) : pystr :=
  match s with
  | c :: s' => if f c then c :: take_while f s' else []
  | [] => []
  end.

Fixpoint drop_while (f : N -> bool) (s : pystr) : pystr :=
  match s with
  | c :: s' => if f c then drop_while f s' else s
  | [] => []
  end.

Definition RBRACKET : N := 93%N.

(** A match of [\[preview_id:\s*([^\]]+)\]] that starts at the head of
    [s], as the text of its group.  The group ends at the first [']'];
    [\s*] takes the white space before it, but gives one character back
    when nothing else is left for the group. *)
Definition preview_at (s : pystr) : option pystr :=
  if starts_with (lit "[preview_id:") s then
    let rest := drop 12 s in
    let seg := take_while (λ c, negb (chr_eqb c RBRACKET)) rest in
    match drop (length seg) rest, seg with
    | [], _ => None
    | _ :: _, [] => None
    | _ :: _, _ :: _ =>
        match drop_while py_isspace seg with
        | [] => Some (drop (length seg - 1) seg)
        | g => Some g
        end
    end
  else None.

(** [re.search]: the match that starts leftmost. *)
Fixpoint search (at_head : pystr -> option pystr) (s : pystr) : option pystr :=
  match at_head s with
  | Some g => Some g
  | None =>
      match s with
      | [] => None
      | _ :: s' => search at_head s'
      end
  end.

Definition parse_preview_id (text : pystr) : pystr :=
  match search preview_at text with
  | Some g => strip g
  | None => []
  end.

(** One character of the pattern [/post/] under [re.IGNORECASE]: the
    letter in either case, and the long s (U+017F) for [s]. *)
Definition matches_ignorecase (p c : N) : bool :=
  chr_eqb (chr_lower c) p || (chr_eqb p 115 && chr_eqb c 383).

Fixpoint starts_with_ignorecase (p s : pystr) : bool :=
  match p, s with
  | [], _ => true
  | x :: p', y :: s' => matches_ignorecase x y && starts_with_ignorecase p' s'
  | _ :: _, [] => false
  end.

(** The class [[a-z0-9]] under [re.IGNORECASE]: the digits, the ASCII
    letters and the four letters that fold to one of them (U+0130,
    U+0131, U+017F, U+212A). *)
Definition post_id_char (c : N) : bool :=
  ((48 <=? c) && (c <=? 57) || (97 <=? c) && (c <=? 122)
   || (65 <=? c) && (c <=? 90)
   || (c =? 304) || (c =? 305) || (c =? 383) || (c =? 8490))%N.

(** A match of [/post/([a-z0-9]+)] at the head of [s]. *)
Definition post_at (s : pystr) : option pystr :=
  if starts_with_ignorecase (lit "/post/") s then
    match take_while post_id_char (drop 6 s) with
    | [] => None
    | g => Some g
    end
  else None.

Definition parse_post_id (text : pystr) : pystr :=
  match search post_at text with
  | Some g => strip g
  | None => []
  end.

(** ** The csv files

    Both stores are read with [csv.reader] and written with [csv.writer]
    in the default (excel) dialect, on files opened with [newline=""].
    A file is the text it holds. *)

(** *** [csv.writer] *)

(** The characters that make the writer quote a field: the delimiter,
    the quote character and the characters of the line terminator. *)
Definition needs_quote (c : N) : bool :=
  chr_eqb c COMMA || chr_eqb c DQUOTE || chr_eqb c CR || chr_eqb c LF.

Fixpoint double_quotes (s : pystr) : pystr :=
  match s with
  | [] => []
  | c :: s' =>
      if chr_eqb c DQUOTE then DQUOTE :: DQUOTE :: double_quotes s'
      else c :: double_quotes s'
  end.

(** One field as the writer puts it into the record. *)
Definition join_append (field : pystr) : pystr :=
  if existsb needs_quote field then DQUOTE :: double_quotes field ++ [DQUOTE]
  else field.

(** [writer.writerow(row)]: the text added to the file.  A record that
    would be empty although it has a field is written as two quotes. *)
Definition writerow (row : list pystr) : pystr :=
  let rec := join [COMMA] (map join_append row) in
  match row, rec with
  | _ :: _, [] => [DQUOTE; DQUOTE; CR; LF]
  | _, _ => rec ++ [CR; LF]
  end.

(** [writer.writerows(rows)] *)
Definition writerows (rows : list (list pystr)) : pystr :=
  concat (map writerow rows).

(** *** Iterating over the lines of a file

    With [newline=""] a line ends after a line feed, after a carriage
    return and line feed, or after a lone carriage return, and keeps its
    line end.  [line] is the part of the current line already read. *)
Fixpoint readlines (line : pystr) (s : pystr) : list pystr :=
  match s with
  | [] => match line with [] => [] | _ => [line] end
  | c :: s' =>
      if chr_eqb c LF then (line ++ [c]) :: readlines [] s'
      else if chr_eqb c CR then
        match s' with
        | c' :: s'' =>
            if chr_eqb c' LF then (line ++ [c; c']) :: readlines [] s''
            else (line ++ [c]) :: readlines [] s'
        | [] => [line ++ [c]]
        end
      else readlines (line ++ [c]) s'
  end.

(** *** [csv.reader] *)

(** The states of the parser that the excel dialect can reach (it has no
    escape character). *)
Inductive ParserState :=
| START_RECORD
| START_FIELD
| IN_FIELD
| IN_QUOTED_FIELD
| QUOTE_IN_QUOTED_FIELD
| EAT_CRNL.

Definition state_eqb (a b : ParserState) : bool :=
  match a, b with
  | START_RECORD, START_RECORD | START_FIELD, START_FIELD
  | IN_FIELD, IN_FIELD | IN_QUOTED_FIELD, IN_QUOTED_FIELD
  | QUOTE_IN_QUOTED_FIELD, QUOTE_IN_QUOTED_FIELD | EAT_CRNL, EAT_CRNL => true
  | _, _ => false
  end.

Record ReaderObj := {
  state : ParserState;
  fields : list pystr;    (* the fields of the record saved so far *)
  field : pystr           (* the characters of the field being read *)
}.

(** [csv.field_size_limit()] *)
Definition field_limit : N := 131072%N.

Definition parse_reset : ReaderObj :=
  {| state := START_RECORD; fields := []; field := [] |}.

Definition csv_error (msg : string) : exn := Exn CsvError (lit msg).

Definition parse_add_char (self : ReaderObj) (st : ParserState) (c : N)
  : result ReaderObj :=
  if (field_limit <=? N.of_nat (length (field self)))%N
  then Raise (csv_error "field larger than field limit (131072)")
  else Ok {| state := st; fields := fields self; field := field self ++ [c] |}.

Definition parse_save_field (self : ReaderObj) (st : ParserState) : ReaderObj :=
  {| state := st; fields := fields self ++ [field self]; field := [] |}.

Definition set_state (self : ReaderObj) (st : ParserState) : ReaderObj :=
  {| state := st; fields := fields self; field := field self |}.

(** What the parser is given: a character of a line, or the end of a
    line. *)
Inductive input :=
| Chr (c : N)
| EOL.

Definition is_newline (c : N) : bool := chr_eqb c LF || chr_eqb c CR.

(** The state an end of field at [i] leads to. *)
Definition after_line_end (i : input) : ParserState :=
  match i with EOL => START_RECORD | Chr _ => EAT_CRNL end.

Definition start_field (self : ReaderObj) (i : input) : result ReaderObj :=
  match i with
  | EOL => Ok (parse_save_field self START_RECORD)
  | Chr c =>
      if is_newline c then Ok (parse_save_field self EAT_CRNL)
      else if chr_eqb c DQUOTE then Ok (set_state self IN_QUOTED_FIELD)
      else if chr_eqb c COMMA then Ok (parse_save_field self START_FIELD)
      else parse_add_char self IN_FIELD c
  end.

Definition parse_process_char (self : ReaderObj) (i : input) : result ReaderObj :=
  match state self with
  | START_RECORD =>
      match i with
      | EOL => Ok self
      | Chr c =>
          if is_newline c then Ok (set_state self EAT_CRNL)
          else start_field self i
      end
  | START_FIELD => start_field self i
  | IN_FIELD =>
      match i with
      | EOL => Ok (parse_save_field self START_RECORD)
      | Chr c =>
          if is_newline c then Ok (parse_save_field self EAT_CRNL)
          else if chr_eqb c COMMA then Ok (parse_save_field self START_FIELD)
          else parse_add_char self IN_FIELD c
      end
  | IN_QUOTED_FIELD =>
      match i with
      | EOL => Ok self
      | Chr c =>
          if chr_eqb c DQUOTE then Ok (set_state self QUOTE_IN_QUOTED_FIELD)
          else parse_add_char self IN_QUOTED_FIELD c
      end
  | QUOTE_IN_QUOTED_FIELD =>
      match i with
      | EOL => Ok (parse_save_field self START_RECORD)
      | Chr c =>
          if chr_eqb c DQUOTE then parse_add_char self IN_QUOTED_FIELD c
          else if chr_eqb c COMMA then Ok (parse_save_field self START_FIELD)
          else if is_newline c then Ok (parse_save_field self EAT_CRNL)
          else parse_add_char self IN_FIELD c
      end
  | EAT_CRNL =>
      match i with
      | EOL => Ok (set_state self START_RECORD)
      | Chr c =>
          if is_newline c then Ok self
          else Raise (csv_error "new-line character seen in unquoted field - do you need to open the file with newline=''?")
      end
  end.

(** The characters of one line, in order. *)
Fixpoint process_line (self : ReaderObj) (line : pystr) : result ReaderObj :=
  match line with
  | [] => Ok self
  | c :: rest =>
      self' ← parse_process_char self (Chr c);
      process_line self' rest
  end.

(** [list(csv.reader(f))].  A record takes lines until the parser is back
    at [START_RECORD]; input that ends inside a record gives what was
    read of it. *)
Fixpoint read_records (self : ReaderObj) (lines : list pystr)
  : result (list (list pystr)) :=
  match lines with
  | [] =>
      match field self, state self with
      | _ :: _, _ | [], IN_QUOTED_FIELD => Ok [fields self ++ [field self]]
      | [], _ => Ok []
      end
  | line :: rest =>
      self1 ← process_line self line;
      self2 ← parse_process_char self1 EOL;
      if state_eqb (state self2) START_RECORD then
        records ← read_records parse_reset rest;
        Ok (fields self2 :: records)
      else read_records self2 rest
  end.

Definition csv_reader (content : pystr) : result (list (list pystr)) :=
  read_records parse_reset (readlines [] content).

(** *** [append_run_log] *)

Definition append_run_log (content : pystr) (row : list pystr) : pystr :=
  content ++ writerow row.

(** ** The text constants of the source

    Each constant is given by its code points; the comment shows the
    text. *)

Section Literals.
Local Open Scope N_scope.

(* 是 *)
Definition YES : pystr := [26159].
(* 否 *)
Definition NO : pystr := [21542].
(* 通过 *)
Definition PASSED : pystr := [36890; 36807].
(* 失败 *)
Definition FAILED : pystr := [22833; 36133].
(* 自动验收失败 *)
Definition ISSUE_TEXT : pystr := [33258; 21160; 39564; 25910; 22833; 36133].
(* 工具调用异常： *)
Definition ROOT_CAUSE_PREFIX : pystr :=
  [24037; 20855; 35843; 29992; 24322; 24120; 65306].
(* 补齐前置依赖并重试；如为代码问题则修复后复测 *)
Definition FIX_TEXT : pystr :=
  [34917; 40784; 21069; 32622; 20381; 36182; 24182; 37325; 35797; 65307; 22914;
   20026; 20195; 30721; 38382; 39064; 21017; 20462; 22797; 21518; 22797; 27979].
(* MCP直连 *)
Definition MCP_DIRECT : pystr := [77; 67; 80; 30452; 36830].
(* 正常 *)
Definition NORMAL : pystr := [27491; 24120].
(* 异常 *)
Definition ABNORMAL : pystr := [24322; 24120].
(* 有 *)
Definition HAS_ISSUE : pystr := [26377].
(* 工具名 *)
Definition COL_TOOL : pystr := [24037; 20855; 21517].
(* 客户端已接入 *)
Definition COL_INTEGRATED : pystr := [23458; 25143; 31471; 24050; 25509; 20837].
(* MCP调用通过 *)
Definition COL_MCP_PASSED : pystr := [77; 67; 80; 35843; 29992; 36890; 36807].
(* 对话触发通过 *)
Definition COL_DIALOGUE : pystr := [23545; 35805; 35302; 21457; 36890; 36807].
(* 胶囊开始态正常 *)
Definition COL_CAPSULE_START : pystr :=
  [33014; 22218; 24320; 22987; 24577; 27491; 24120].
(* 胶囊结束态正常 *)
Definition COL_CAPSULE_END : pystr :=
  [33014; 22218; 32467; 26463; 24577; 27491; 24120].
(* 错误态可见 *)
Definition COL_ERROR_VISIBLE : pystr := [38169; 35823; 24577; 21487; 35265].
(* 最近RunID *)
Definition COL_RUN_ID : pystr := [26368; 36817; 82; 117; 110; 73; 68].
(* 最近结果 *)
Definition COL_LAST_RESULT : pystr := [26368; 36817; 32467; 26524].
(* 发现问题 *)
Definition COL_ISSUE : pystr := [21457; 29616; 38382; 39064].
(* 根因分析 *)
Definition COL_ROOT_CAUSE : pystr := [26681; 22240; 20998; 26512].
(* 修复动作 *)
Definition COL_FIX : pystr := [20462; 22797; 21160; 20316].
(* 修复后复测 *)
Definition COL_RETEST : pystr := [20462; 22797; 21518; 22797; 27979].
(* 最后更新时间 *)
Definition COL_UPDATED : pystr := [26368; 21518; 26356; 26032; 26102; 38388].
(* MCP 验收自动发帖 *)
Definition POST_TITLE : pystr :=
  [77; 67; 80; 32; 39564; 25910; 33258; 21160; 21457; 24086].
(* ## 背景\nMCP 长跑验收自动发帖。\n\n## 结果\n用于验证 post/edit/delete 工具链是否稳定可用。 *)
Definition POST_CONTENT : pystr :=
  [35; 35; 32; 32972; 26223; 10; 77; 67; 80; 32; 38271; 36305; 39564; 25910;
   33258; 21160; 21457; 24086; 12290; 10; 10; 35; 35; 32; 32467; 26524; 10;
   29992; 20110; 39564; 35777; 32; 112; 111; 115; 116; 47; 101; 100; 105; 116;
   47; 100; 101; 108; 101; 116; 101; 32; 24037; 20855; 38142; 26159; 21542;
   31283; 23450; 21487; 29992; 12290].
(* 自动化验收帖子 *)
Definition POST_SUMMARY : pystr :=
  [33258; 21160; 21270; 39564; 25910; 24086; 23376].
(* MCP 长跑验收自动评论（如打扰可删） *)
Definition COMMENT_TEXT : pystr :=
  [77; 67; 80; 32; 38271; 36305; 39564; 25910; 33258; 21160; 35780; 35770;
   65288; 22914; 25171; 25200; 21487; 21024; 65289].
(* MCP 验收更新标题 *)
Definition EDIT_TITLE : pystr :=
  [77; 67; 80; 32; 39564; 25910; 26356; 26032; 26631; 39064].
(* 更新摘要 *)
Definition EDIT_SUMMARY : pystr := [26356; 26032; 25688; 35201].

End Literals.

(** ** [update_matrix] *)

(** [idx = {name: i for i, name in enumerate(header)}] followed by
    [idx[name]]: the last column of that name. *)
Fixpoint enumerate_find (header : list pystr) (name : pystr) (i : nat)
    (found : option nat) : option nat :=
  match header with
  | [] => found
  | h :: rest =>
      enumerate_find rest name (S i) (if str_eqb h name then Some i else found)
  end.

Definition idx (header : list pystr) (name : pystr) : result nat :=
  match enumerate_find header name 0 None with
  | Some i => Ok i
  | None => Raise (Exn KeyError (lit "'" ++ name ++ lit "'"))
  end.

(** [row[i]] *)
Definition row_get (row : list pystr) (i : nat) : result pystr :=
  match row !! i with
  | Some cell => Ok cell
  | None => Raise (Exn IndexError (lit "list index out of range"))
  end.

(** [row[i] = cell] *)
Definition row_set (row : list pystr) (i : nat) (cell : pystr)
  : result (list pystr) :=
  if (i <? length row)%nat then Ok (<[i := cell]> row)
  else Raise (Exn IndexError (lit "list assignment index out of range")).

(** [row[idx[name]] = cell] *)
Definition set_col (header row : list pystr) (name cell : pystr)
  : result (list pystr) :=
  i ← idx header name;
  row_set row i cell.

Definition nonempty (s : pystr) : bool :=
  match s with [] => false | _ => true end.

Definition yes_no (passed : bool) : pystr := if passed then YES else NO.

(** The arguments of [update_matrix] after [path], and the time
    [now_iso()] gives when the row is stamped. *)
Record tracking_update := {
  u_tool : pystr;
  u_run_id : pystr;
  u_passed : bool;
  u_issue : pystr;
  u_root_cause : pystr;
  u_fix : pystr;
  u_retest : pystr;
  u_now : pystr
}.

(** The assignments to the row of the tool. *)
Definition update_row (header row : list pystr) (u : tracking_update)
  : result (list pystr) :=
  let passed := u_passed u in
  row ← set_col header row COL_INTEGRATED YES;
  row ← set_col header row COL_MCP_PASSED (yes_no passed);
  row ← set_col header row COL_DIALOGUE (yes_no passed);
  row ← set_col header row COL_CAPSULE_START (yes_no passed);
  row ← set_col header row COL_CAPSULE_END (yes_no passed);
  visible ←
    (if negb passed && (nonempty (u_issue u) || nonempty (u_root_cause u))
     then Ok YES
     else
       i ← idx header COL_ERROR_VISIBLE;
       old ← row_get row i;
       Ok (if nonempty old then old else YES));
  row ← set_col header row COL_ERROR_VISIBLE visible;
  row ← set_col header row COL_RUN_ID (u_run_id u);
  row ← set_col header row COL_LAST_RESULT (if passed then PASSED else FAILED);
  row ← set_col header row COL_ISSUE (u_issue u);
  row ← set_col header row COL_ROOT_CAUSE (u_root_cause u);
  row ← set_col header row COL_FIX (u_fix u);
  row ← set_col header row COL_RETEST (u_retest u);
  set_col header row COL_UPDATED (u_now u).

(** The loop [for row in data], which stops at the first row of the
    tool. *)
Fixpoint update_data (header : list pystr) (data : list (list pystr))
    (u : tracking_update) : result (list (list pystr)) :=
  match data with
  | [] => Ok []
  | row :: rest =>
      i ← idx header COL_TOOL;
      name ← row_get row i;
      if negb (str_eqb name (u_tool u)) then
        rest' ← update_data header rest u;
        Ok (row :: rest')
      else
        row' ← update_row header row u;
        Ok (row' :: rest)
  end.

(** From the rows that were read to the rows that are written. *)
Definition update_rows (rows : list (list pystr)) (u : tracking_update)
  : result (list (list pystr)) :=
  match rows with
  | [] => Raise (Exn IndexError (lit "list index out of range"))
  | header :: data =>
      data' ← update_data header data u;
      Ok (header :: data')
  end.

(** [update_matrix]: the file is read as a whole, changed in memory and
    written as a whole; an exception leaves it as it was. *)
Definition update_matrix (content : pystr) (u : tracking_update)
  : result pystr :=
  rows ← csv_reader content;
  rows' ← update_rows rows u;
  Ok (writerows rows').

(** ** The catalog *)

(** One entry of [TOOLS]: the name of the tool, its argument template and
    the label of the scenario. *)
Definition descriptor : Type := pystr * pydict * pystr.

Section Catalog.
Local Open Scope N_scope.

(* MCP 验收草稿 *)
Definition DRAFT_TITLE : pystr := [77; 67; 80; 32; 39564; 25910; 33609; 31295].

Definition TOOLS : list descriptor :=
  [ (* 扫描最近会话 *)
    (lit "scan_sessions", [(lit "limit", VInt 5)],
     [25195; 25551; 26368; 36817; 20250; 35805]);
    (* 读取会话（依赖 scan 结果） *)
    (lit "read_session", [],
     [35835; 21462; 20250; 35805; 65288; 20381; 36182; 32; 115; 99; 97; 110;
      32; 32467; 26524; 65289]);
    (* 分析会话（依赖 scan 结果） *)
    (lit "analyze_session", [],
     [20998; 26512; 20250; 35805; 65288; 20381; 36182; 32; 115; 99; 97; 110;
      32; 32467; 26524; 65289]);
    (* 发帖（依赖会话路径） *)
    (lit "post_to_codeblog", [],
     [21457; 24086; 65288; 20381; 36182; 20250; 35805; 36335; 24452; 65289]);
    (* 自动发帖预览 *)
    (lit "auto_post", [(lit "dry_run", VBool true)],
     [33258; 21160; 21457; 24086; 39044; 35272]);
    (* 周报预览 *)
    (lit "weekly_digest", [(lit "dry_run", VBool true)],
     [21608; 25253; 39044; 35272]);
    (* 生成预览 *)
    (lit "preview_post",
     [(lit "mode", VStr (lit "manual"));
      (lit "title", VStr DRAFT_TITLE);
      (* ## 验收\n内容 *)
      (lit "content", VStr [35; 35; 32; 39564; 25910; 10; 20869; 23481]);
      (lit "category", VStr (lit "general"));
      (lit "tags", VList [VStr (lit "mcp"); VStr (lit "qa")])],
     [29983; 25104; 39044; 35272]);
    (* 发布预览（依赖 preview 返回 ID） *)
    (lit "confirm_post", [],
     [21457; 24067; 39044; 35272; 65288; 20381; 36182; 32; 112; 114; 101; 118;
      105; 101; 119; 32; 36820; 22238; 32; 73; 68; 65289]);
    (* 创建草稿 *)
    (lit "create_draft",
     [(lit "title", VStr DRAFT_TITLE);
      (* 自动化验收 *)
      (lit "summary", VStr [33258; 21160; 21270; 39564; 25910]);
      (* ## 内容\n测试草稿 *)
      (lit "content",
       VStr [35; 35; 32; 20869; 23481; 10; 27979; 35797; 33609; 31295]);
      (lit "tags", VList [VStr (lit "mcp"); VStr (lit "qa")]);
      (lit "category", VStr (lit "tools"))],
     [21019; 24314; 33609; 31295]);
    (* 浏览帖子 *)
    (lit "browse_posts", [(lit "limit", VInt 5)],
     [27983; 35272; 24086; 23376]);
    (* 搜索帖子 *)
    (lit "search_posts",
     [(lit "query", VStr (lit "mcp")); (lit "limit", VInt 5)],
     [25628; 32034; 24086; 23376]);
    (* 读取帖子（依赖 browse/search） *)
    (lit "read_post", [],
     [35835; 21462; 24086; 23376; 65288; 20381; 36182; 32; 98; 114; 111; 119;
      115; 101; 47; 115; 101; 97; 114; 99; 104; 65289]);
    (* 评论帖子（依赖 post_id） *)
    (lit "comment_on_post", [],
     [35780; 35770; 24086; 23376; 65288; 20381; 36182; 32; 112; 111; 115; 116;
      95; 105; 100; 65289]);
    (* 投票帖子（依赖 post_id） *)
    (lit "vote_on_post", [],
     [25237; 31080; 24086; 23376; 65288; 20381; 36182; 32; 112; 111; 115; 116;
      95; 105; 100; 65289]);
    (* 编辑帖子（依赖 post_id） *)
    (lit "edit_post", [],
     [32534; 36753; 24086; 23376; 65288; 20381; 36182; 32; 112; 111; 115; 116;
      95; 105; 100; 65289]);
    (* 删除帖子（依赖 post_id） *)
    (lit "delete_post", [],
     [21024; 38500; 24086; 23376; 65288; 20381; 36182; 32; 112; 111; 115; 116;
      95; 105; 100; 65289]);
    (* 书签列表 *)
    (lit "bookmark_post", [(lit "action", VStr (lit "list"))],
     [20070; 31614; 21015; 34920]);
    (* 浏览标签 *)
    (lit "browse_by_tag",
     [(lit "action", VStr (lit "trending")); (lit "limit", VInt 5)],
     [27983; 35272; 26631; 31614]);
    (* 热点主题 *)
    (lit "trending_topics", [], [28909; 28857; 20027; 39064]);
    (* 探索帖子 *)
    (lit "explore_and_engage",
     [(lit "action", VStr (lit "browse")); (lit "limit", VInt 3)],
     [25506; 32034; 24086; 23376]);
    (* 查看辩论 *)
    (lit "join_debate", [(lit "action", VStr (lit "list"))],
     [26597; 30475; 36777; 35770]);
    (* 关注列表 *)
    (lit "follow_agent",
     [(lit "action", VStr (lit "list_following")); (lit "limit", VInt 5)],
     [20851; 27880; 21015; 34920]);
    (* 代理列表 *)
    (lit "manage_agents", [(lit "action", VStr (lit "list"))],
     [20195; 29702; 21015; 34920]);
    (* 我的帖子 *)
    (lit "my_posts", [(lit "limit", VInt 5); (lit "sort", VStr (lit "new"))],
     [25105; 30340; 24086; 23376]);
    (* 我的看板 *)
    (lit "my_dashboard", [], [25105; 30340; 30475; 26495]);
    (* 通知列表 *)
    (lit "my_notifications",
     [(lit "action", VStr (lit "list")); (lit "limit", VInt 10)],
     [36890; 30693; 21015; 34920]);
    (* 登录模式配置写入 *)
    (lit "codeblog_setup", [],
     [30331; 24405; 27169; 24335; 37197; 32622; 20889; 20837]);
    (* 服务状态 *)
    (lit "codeblog_status", [], [26381; 21153; 29366; 24577]);
    (* 采集日报统计 *)
    (lit "collect_daily_stats", [],
     [37319; 38598; 26085; 25253; 32479; 35745]);
    (* 保存日报（依赖 collect 结果） *)
    (lit "save_daily_report", [],
     [20445; 23384; 26085; 25253; 65288; 20381; 36182; 32; 99; 111; 108; 108;
      101; 99; 116; 32; 32467; 26524; 65289]);
    (* 查询日报配置 *)
    (lit "configure_daily_report", [(lit "get", VBool true)],
     [26597; 35810; 26085; 25253; 37197; 32622]) ].

End Catalog.

(** ** The child process as seen by one call *)

(** What one turn of the waiting loop of [_rpc] observes, in the order
    the loop asks: [poll()], then [select], then [readline()]. *)
Inductive observation :=
| Exited (stderr_read : option pystr) (returncode : Z)
    (* [poll()] is not [None]; [stderr.read()] gave the text, or raised *)
| NotReady
    (* [select] returned no ready stream before the deadline *)
| Line (line : pystr).
    (* [readline()] gave this line with its line end, or [] at end of file *)

(** The behaviour of the child during one call.  [stdin_write] is the
    message of the [OSError] that writing the request raises, if any.
    The loop condition [time.time() < deadline] holds for each
    observation and fails once they are used up. *)
Record call_env := {
  stdin_write : option pystr;
  observations : list observation
}.

Record MCPClient := {
  proc : bool;          (* [self.proc is not None] *)
  request_id : Z
}.

(** The library functions of Python that the script calls and that are
    taken as given. *)
Class PyLib := {
  (** [json.loads]: the decoded value, or the message of the
      [JSONDecodeError]. *)
  json_loads : pystr -> pystr + value;
  (** [json.dumps(v, ensure_ascii=False)] *)
  json_dumps : value -> pystr;
  (** [repr(v)] for a value that is not a [str]. *)
  py_repr : value -> pystr
}.

Section Runner.

Context {lib : PyLib}.

(** [str(v)] *)
Definition py_str (v : value) : pystr :=
  match v with
  | VStr s => s
  | _ => py_repr v
  end.

Definition loads (s : pystr) : result value :=
  match json_loads s with
  | inl msg => Raise (Exn JSONDecodeError msg)
  | inr v => Ok v
  end.

(** *** [MCPClient._rpc] *)

Definition exited_error (stderr_read : option pystr) (returncode : Z) : exn :=
  let stderr_text :=
    match stderr_read with
    | Some text => strip text
    | None => []
    end in
  Exn RuntimeError
      (match stderr_text with
       | [] => lit "codeblog-mcp exited " ++ str_of_int returncode
       | _ => stderr_text
       end).

Definition timeout_error (method : pystr) (params : pydict) (timeout_sec : Z) : exn :=
  let name :=
    match dict_get params (lit "name") with
    | Some v => py_str v
    | None => method
    end in
  Exn TimeoutError
      (lit "tool=" ++ name ++ lit " timed out after "
           ++ str_of_int timeout_sec ++ lit "s").

(** What [_rpc] does with one decoded line that carries the awaited id. *)
Definition rpc_reply (payload : value) : result value :=
  match payload with
  | VDict d =>
      match dict_get d (lit "error") with
      | Some err =>
          msg ← py_get err (lit "message") (VStr (lit "unknown mcp error"));
          Raise (Exn RuntimeError (py_str msg))
      | None => py_get payload (lit "result") (VDict [])
      end
  | _ => Raise (no_attribute payload "get")
  end.

(** The loop [while time.time() < deadline]. *)
Fixpoint rpc_wait (req_id : Z) (on_timeout : exn) (obs : list observation)
  : result value :=
  match obs with
  | [] => Raise on_timeout
  | Exited stderr_read returncode :: _ =>
      Raise (exited_error stderr_read returncode)
  | NotReady :: _ => Raise on_timeout
  | Line line :: rest =>
      match line with
      | [] => rpc_wait req_id on_timeout rest
      | _ =>
          payload ← loads (strip line);
          id ← py_get payload (lit "id") VNone;
          if negb (eq_int id req_id) then rpc_wait req_id on_timeout rest
          else rpc_reply payload
      end
  end.

Definition not_started : exn := Exn RuntimeError (lit "mcp process not started").

Definition _rpc (self : MCPClient) (method : pystr) (params : pydict)
    (timeout_sec : Z) (env : call_env) : MCPClient * result value :=
  if negb (proc self) then (self, Raise not_started)
  else
    let req_id := request_id self in
    let self' := {| proc := proc self; request_id := (request_id self + 1)%Z |} in
    match stdin_write env with
    | Some msg => (self', Raise (Exn OSError msg))
    | None =>
        (self', rpc_wait req_id (timeout_error method params timeout_sec)
                         (observations env))
    end.

Definition call_tool (self : MCPClient) (name : pystr) (arguments : pydict)
    (env : call_env) : MCPClient * result value :=
  _rpc self (lit "tools/call")
       [(lit "name", VStr name); (lit "arguments", VDict arguments)] 90 env.

(** *** [extract_text] *)

(** The items a [for] loop over [v] goes through. *)
Definition iterate (v : value) : result (list value) :=
  match v with
  | VList l => Ok l
  | VDict d => Ok (map (λ kv, VStr (fst kv)) d)
  | VStr s => Ok (map (λ c, VStr [c]) s)
  | _ => Raise (not_iterable v)
  end.

Fixpoint text_chunks (entries : list value) : result (list pystr) :=
  match entries with
  | [] => Ok []
  | entry :: rest =>
      type ← py_get entry (lit "type") VNone;
      text ← py_get entry (lit "text") VNone;
      if eq_str type (lit "text") && truthy text then
        chunks ← text_chunks rest;
        Ok (py_str text :: chunks)
      else text_chunks rest
  end.

Definition extract_text (res : value) : result pystr :=
  content ← py_get res (lit "content") (VList []);
  entries ← iterate content;
  chunks ← text_chunks entries;
  Ok (strip (join [LF] chunks)).

(** *** The cross-call context *)

(** [dynamic_context.get(key)] *)
Definition ctx_get (ctx : gmap string value) (key : string) : value :=
  default VNone (ctx !! key).

(** [dynamic_context[key] = v] *)
Definition ctx_set (ctx : gmap string value) (key : string) (v : value)
  : gmap string value :=
  <[key := v]> ctx.

Definition is_tool (tool : pystr) (name : string) : bool :=
  str_eqb tool (lit name).

(** *** The arguments of a call, lines 283 to 348 of the source *)

Definition session_args (tool : pystr) (ctx : gmap string value)
    (args_payload : pydict) : pydict :=
  if str_in tool [lit "read_session"; lit "analyze_session";
                  lit "post_to_codeblog"] then
    if truthy (ctx_get ctx "session_path")
       && truthy (ctx_get ctx "session_source") then
      if is_tool tool "post_to_codeblog" then
        [ (lit "title", VStr POST_TITLE);
          (lit "content", VStr POST_CONTENT);
          (lit "source_session", ctx_get ctx "session_path");
          (lit "tags", VList [VStr (lit "mcp"); VStr (lit "qa")]);
          (lit "summary", VStr POST_SUMMARY);
          (lit "category", VStr (lit "tools"));
          (lit "language", VStr (lit "zh")) ]
      else
        dict_set (dict_set args_payload (lit "path") (ctx_get ctx "session_path"))
                 (lit "source") (ctx_get ctx "session_source")
    else []
  else args_payload.

Definition post_args (tool : pystr) (ctx : gmap string value)
    (args_payload : pydict) : pydict :=
  if str_in tool [lit "read_post"; lit "comment_on_post"; lit "vote_on_post"]
  then
    let args_payload :=
      if truthy (ctx_get ctx "post_id")
      then dict_set args_payload (lit "post_id") (ctx_get ctx "post_id")
      else [] in
    let args_payload :=
      if is_tool tool "comment_on_post" && dict_mem args_payload (lit "post_id")
      then dict_set args_payload (lit "content") (VStr COMMENT_TEXT)
      else args_payload in
    if is_tool tool "vote_on_post" && dict_mem args_payload (lit "post_id")
    then dict_set args_payload (lit "value") (VInt 0)
    else args_payload
  else args_payload.

Definition own_post_args (tool : pystr) (ctx : gmap string value)
    (args_payload : pydict) : pydict :=
  if str_in tool [lit "edit_post"; lit "delete_post"] then
    let args_payload :=
      if truthy (ctx_get ctx "own_post_id")
      then dict_set args_payload (lit "post_id") (ctx_get ctx "own_post_id")
      else [] in
    let args_payload :=
      if is_tool tool "edit_post" && dict_mem args_payload (lit "post_id")
      then dict_set (dict_set args_payload (lit "title") (VStr EDIT_TITLE))
                    (lit "summary") (VStr EDIT_SUMMARY)
      else args_payload in
    if is_tool tool "delete_post" && dict_mem args_payload (lit "post_id")
    then dict_set args_payload (lit "confirm") (VBool true)
    else args_payload
  else args_payload.

Definition confirm_args (tool : pystr) (ctx : gmap string value)
    (args_payload : pydict) : pydict :=
  if is_tool tool "confirm_post" then
    if truthy (ctx_get ctx "preview_id")
    then dict_set args_payload (lit "preview_id") (ctx_get ctx "preview_id")
    else []
  else args_payload.

Definition setup_args (tool : pystr) (ctx : gmap string value)
    (args_payload : pydict) : pydict :=
  if is_tool tool "codeblog_setup" then
    if truthy (ctx_get ctx "qa_email") && truthy (ctx_get ctx "qa_password")
    then [ (lit "mode", VStr (lit "login"));
           (lit "email", ctx_get ctx "qa_email");
           (lit "password", ctx_get ctx "qa_password") ]
    else [ (lit "mode", VStr (lit "browser")) ]
  else args_payload.

Definition report_args (tool : pystr) (ctx : gmap string value)
    (args_payload : pydict) : pydict :=
  if is_tool tool "save_daily_report" then
    let stats := ctx_get ctx "raw_stats" in
    let date := ctx_get ctx "stats_date" in
    let tz := ctx_get ctx "stats_tz" in
    if truthy stats && truthy date && truthy tz
    then [ (lit "date", date); (lit "timezone", tz);
           (lit "stats", VStr (json_dumps stats)) ]
    else []
  else args_payload.

(** [args_payload] when the call is made. *)
Definition resolve_args (tool : pystr) (base_args : pydict)
    (ctx : gmap string value) : pydict :=
  let args_payload := base_args in
  let args_payload := session_args tool ctx args_payload in
  let args_payload := post_args tool ctx args_payload in
  let args_payload := own_post_args tool ctx args_payload in
  let args_payload := confirm_args tool ctx args_payload in
  let args_payload := setup_args tool ctx args_payload in
  report_args tool ctx args_payload.

(** *** What a result adds to the context, lines 364 to 405 *)

(** [posts[0]] *)
Definition first_item (v : value) : result value :=
  match v with
  | VList (x :: _) => Ok x
  | VList [] => Raise (Exn IndexError (lit "list index out of range"))
  | VStr (c :: _) => Ok (VStr [c])
  | VStr [] => Raise (Exn IndexError (lit "string index out of range"))
  | VDict _ => Raise (Exn KeyError (lit "0"))
  | _ => Raise (Exn TypeError
                    (lit "'" ++ type_name v ++ lit "' object is not subscriptable"))
  end.

Definition scan_sessions_context (text : pystr) (ctx : gmap string value)
  : gmap string value :=
  match loads text with
  | Ok (VList (first :: _)) =>
      match py_get first (lit "path") VNone with
      | Ok path =>
          let ctx := ctx_set ctx "session_path" path in
          match py_get first (lit "source") VNone with
          | Ok source => ctx_set ctx "session_source" source
          | Raise _ => ctx
          end
      | Raise _ => ctx
      end
  | _ => ctx
  end.

Definition browse_posts_context (text : pystr) (ctx : gmap string value)
  : gmap string value :=
  match (parsed ← loads text;
         posts ← py_get parsed (lit "posts") (VList []);
         if truthy posts then
           first ← first_item posts;
           id ← py_get first (lit "id") VNone;
           Ok (ctx_set ctx "post_id" id)
         else Ok ctx) with
  | Ok ctx' => ctx'
  | Raise _ => ctx
  end.

Definition preview_post_context (text : pystr) (ctx : gmap string value)
  : gmap string value :=
  let preview_id := parse_preview_id text in
  if nonempty preview_id then ctx_set ctx "preview_id" (VStr preview_id)
  else ctx.

Definition collect_daily_stats_context (text : pystr)
    (ctx : gmap string value) : gmap string value :=
  match loads text with
  | Ok parsed =>
      match py_get parsed (lit "_rawStats") VNone with
      | Ok raw_stats =>
          let ctx := ctx_set ctx "raw_stats" raw_stats in
          match py_get parsed (lit "date") VNone with
          | Ok date =>
              let ctx := ctx_set ctx "stats_date" date in
              match py_get parsed (lit "timezone") VNone with
              | Ok tz => ctx_set ctx "stats_tz" tz
              | Raise _ => ctx
              end
          | Raise _ => ctx
          end
      | Raise _ => ctx
      end
  | Raise _ => ctx
  end.

Definition post_to_codeblog_context (text : pystr) (ctx : gmap string value)
  : gmap string value :=
  let own_post_id := parse_post_id text in
  if nonempty own_post_id then ctx_set ctx "own_post_id" (VStr own_post_id)
  else ctx.

Definition confirm_post_context (text : pystr) (ctx : gmap string value)
  : gmap string value :=
  let posted_id := parse_post_id text in
  if nonempty posted_id && negb (truthy (ctx_get ctx "own_post_id"))
  then ctx_set ctx "own_post_id" (VStr posted_id)
  else ctx.

Definition update_context (tool : pystr) (text : pystr)
    (ctx : gmap string value) : gmap string value :=
  let ctx := if is_tool tool "scan_sessions"
             then scan_sessions_context text ctx else ctx in
  let ctx := if is_tool tool "browse_posts"
             then browse_posts_context text ctx else ctx in
  let ctx := if is_tool tool "preview_post"
             then preview_post_context text ctx else ctx in
  let ctx := if is_tool tool "collect_daily_stats"
             then collect_daily_stats_context text ctx else ctx in
  let ctx := if is_tool tool "post_to_codeblog"
             then post_to_codeblog_context text ctx else ctx in
  if is_tool tool "confirm_post" then confirm_post_context text ctx else ctx.

(** *** One turn of the loop over [TOOLS] *)

(** The local variables that the [try] statement leaves. *)
Record outcome := {
  actual : pystr;
  passed : bool;
  error_msg : pystr;
  issue : pystr;
  root_cause : pystr;
  fix_ : pystr;           (* [fix] *)
  retest : pystr
}.

(** What is fixed for a run. *)
Record run_env := {
  run_id : pystr;
  round_no : Z
}.

(** What the world gives during one operation: the clock readings, the
    random identifier of an issue, the behaviour of the child during the
    call, and the time at which the tracking row is stamped. *)
Record op_env := {
  start_iso : pystr;
  end_iso : pystr;
  elapsed_ms : Z;
  uuid4_hex : pystr;
  child : call_env;
  matrix_now : pystr
}.

Record run_state := {
  dynamic_context : gmap string value;
  client : MCPClient;
  run_log : pystr;        (* the text of the run log file *)
  matrix : pystr          (* the text of the tracking matrix file *)
}.

(** The body of the [try] statement: the call, the text of its result
    and the pass flag. *)
Definition try_body (self : MCPClient) (tool : pystr) (args_payload : pydict)
    (env : call_env) : MCPClient * result (pystr * bool) :=
  let '(self', r) := call_tool self tool args_payload env in
  (self',
   res ← r;
   text ← extract_text res;
   is_error ← py_get res (lit "isError") VNone;
   Ok (text, negb (truthy is_error))).

(** The [try] statement with its handler. *)
Definition attempt (self : MCPClient) (tool : pystr) (args_payload : pydict)
    (env : call_env) (ctx : gmap string value)
  : MCPClient * gmap string value * outcome :=
  let '(self', r) := try_body self tool args_payload env in
  match r with
  | Ok (text, passed) =>
      (self', update_context tool text ctx,
       {| actual := take 2000 text; passed := passed; error_msg := [];
          issue := []; root_cause := []; fix_ := []; retest := [] |})
  | Raise ex =>
      let error_msg := exn_str ex in
      (self', ctx,
       {| actual := take 2000 error_msg; passed := false;
          error_msg := error_msg;
          issue := ISSUE_TEXT;
          root_cause := ROOT_CAUSE_PREFIX ++ take 120 error_msg;
          fix_ := FIX_TEXT;
          retest := NO |})
  end.

(** [retest if retest else ("是" if passed else "否")] *)
Definition retest_or_default (o : outcome) : pystr :=
  if nonempty (retest o) then retest o else yes_no (passed o).

(** The row that goes to the run log. *)
Definition outcome_row (run : run_env) (e : op_env) (tool : pystr)
    (scenario : pystr) (args_payload : pydict) (o : outcome) : list pystr :=
  [ run_id run;
    str_of_int (round_no run);
    start_iso e;
    end_iso e;
    tool;
    MCP_DIRECT;
    take 500 (json_dumps (mask_payload args_payload));
    scenario;
    escape_newlines (take 500 (actual o));
    str_of_int (elapsed_ms e);
    yes_no (passed o);
    (if passed o then NORMAL else ABNORMAL);
    (if passed o then NORMAL else ABNORMAL);
    (if passed o then [] else HAS_ISSUE);
    take 500 (error_msg o);
    (if negb (passed o) then lit "ISSUE-" ++ take 8 (uuid4_hex e) else []);
    root_cause o;
    fix_ o;
    retest_or_default o;
    [] ].

Definition tracking_of (run : run_env) (e : op_env) (tool : pystr)
    (o : outcome) : tracking_update :=
  {| u_tool := tool; u_run_id := run_id run; u_passed := passed o;
     u_issue := issue o; u_root_cause := root_cause o; u_fix := fix_ o;
     u_retest := retest_or_default o; u_now := matrix_now e |}.

(** The body of [for tool, base_args, scenario in TOOLS].  The state that
    is reached comes with the exception that leaves the loop, if any:
    only [update_matrix] is outside the [try] statement. *)
Definition run_operation (run : run_env) (st : run_state) (d : descriptor)
    (e : op_env) : run_state * option exn :=
  let '(tool, base_args, scenario) := d in
  let args_payload := resolve_args tool base_args (dynamic_context st) in
  let '(self', ctx', o) :=
    attempt (client st) tool args_payload (child e) (dynamic_context st) in
  let log' :=
    append_run_log (run_log st)
                   (outcome_row run e tool scenario args_payload o) in
  match update_matrix (matrix st) (tracking_of run e tool o) with
  | Ok matrix' =>
      ({| dynamic_context := ctx'; client := self';
          run_log := log'; matrix := matrix' |}, None)
  | Raise ex =>
      ({| dynamic_context := ctx'; client := self';
          run_log := log'; matrix := matrix st |}, Some ex)
  end.

(** The loop: each operation of the catalog with what the world does
    during it. *)
Fixpoint run_pass (run : run_env) (st : run_state)
    (ops : list (descriptor * op_env)) : run_state * option exn :=
  match ops with
  | [] => (st, None)
  | (d, e) :: rest =>
      match run_operation run st d e with
      | (st', None) => run_pass run st' rest
      | (st', Some ex) => (st', Some ex)
      end
  end.

(** [dynamic_context] when the loop starts: the credentials that
    [ensure_login_credentials] gave, or two empty texts. *)
Definition initial_context (credentials : option (pystr * pystr))
  : gmap string value :=
  match credentials with
  | Some (qa_email, qa_password) =>
      ctx_set (ctx_set ∅ "qa_email" (VStr qa_email))
              "qa_password" (VStr qa_password)
  | None => ctx_set (ctx_set ∅ "qa_email" (VStr [])) "qa_password" (VStr [])
  end.

End Runner.

(** * The rest of the runner: credentials, the life of the session and
      the rounds of [main] *)

(** ** [ensure_login_credentials]

    The address of the server only goes into the request, whose outcome
    the world gives. *)

(** What [urllib.request.urlopen] and the reading of the response come
    to. *)
Inductive http_response :=
| HTTPError (code : Z) (read : result pystr)
    (* [urlopen] raised [HTTPError]; [ex.read().decode("utf-8",
       errors="ignore")] gave the text, or raised *)
| Failed (ex : exn)
    (* [urlopen], or [resp.read().decode("utf-8")], raised another
       exception *)
| Body (text : pystr).
    (* the decoded body of the response *)

(** What the world gives to one call of [ensure_login_credentials].  The
    class of an exception that the world gives is not looked at. *)
Record login_env := {
  environ_email : option pystr;     (* [CODEBLOG_QA_EMAIL], if it is set *)
  environ_password : option pystr;  (* [CODEBLOG_QA_PASSWORD], if it is set *)
  uuid_nonce : pystr;               (* [uuid.uuid4().hex], first call *)
  uuid_password : pystr;            (* [uuid.uuid4().hex], second call *)
  request_error : option exn;
    (* what [urllib.request.Request] raises for the address of the
       server, if anything *)
  response : http_response
}.

(** [p in s] for two texts *)
Fixpoint is_substring (p s : pystr) : bool :=
  starts_with p s
  || match s with
     | [] => false
     | _ :: s' => is_substring p s'
     end.

(** ["agent" in data] *)
Definition contains_agent (data : value) : result bool :=
  match data with
  | VDict d => Ok (dict_mem d (lit "agent"))
  | VList l => Ok (existsb (λ x, eq_str x (lit "agent")) l)
  | VStr s => Ok (is_substring (lit "agent") s)
  | _ => Raise (Exn TypeError
                    (lit "argument of type '" ++ type_name data
                         ++ lit "' is not iterable"))
  end.

(** [data["agent"]] *)
Definition getitem_agent (data : value) : result value :=
  match data with
  | VDict d =>
      match dict_get d (lit "agent") with
      | Some v => Ok v
      | None => Raise (Exn KeyError (lit "'agent'"))
      end
  | VList _ =>
      Raise (Exn TypeError (lit "list indices must be integers or slices, not str"))
  | VStr _ =>
      Raise (Exn TypeError (lit "string indices must be integers, not 'str'"))
  | _ => Raise (Exn TypeError
                    (lit "'" ++ type_name data ++ lit "' object is not subscriptable"))
  end.

Definition QUICKSTART_FAILED : pystr := lit "quickstart failed: ".

Section Credentials.
Context {lib : PyLib}.

(** The test of the body of the response:
    ["agent" in data and data["agent"].get("api_key")]. *)
Definition has_api_key (text : pystr) : result bool :=
  data ← loads text;
  has_agent ← contains_agent data;
  if (has_agent : bool) then
    agent ← getitem_agent data;
    api_key ← py_get agent (lit "api_key") VNone;
    Ok (truthy api_key)
  else Ok false.

Definition ensure_login_credentials (env : login_env) : result (pystr * pystr) :=
  let env_email := strip (default [] (environ_email env)) in
  let env_password := strip (default [] (environ_password env)) in
  if nonempty env_email && nonempty env_password then Ok (env_email, env_password)
  else
    let nonce := take 10 (uuid_nonce env) in
    let username := lit "mcpqa" ++ nonce in
    let email := username ++ lit "@example.com" in
    let password := lit "McpQa!" ++ take 10 (uuid_password env) in
    match request_error env with
    | Some ex => Raise ex
    | None =>
        match response env with
        | HTTPError code read =>
            err_text ← read;
            Raise (Exn RuntimeError
                       (QUICKSTART_FAILED ++ lit "HTTP " ++ str_of_int code
                          ++ lit " " ++ take 200 err_text))
        | Failed ex => Raise (Exn RuntimeError (QUICKSTART_FAILED ++ exn_str ex))
        | Body text =>
            match has_api_key text with
            | Ok true => Ok (email, password)
            | Ok false =>
                Raise (Exn RuntimeError (QUICKSTART_FAILED ++ lit "missing api_key"))
            | Raise ex =>
                Raise (Exn RuntimeError (QUICKSTART_FAILED ++ exn_str ex))
            end
        end
    end.

(** The [try] statement of [main] around the call: any exception leaves
    the runner without credentials. *)
Definition credentials_of (r : result (pystr * pystr)) : option (pystr * pystr) :=
  match r with
  | Ok c => Some c
  | Raise _ => None
  end.

(** ** The life of the session *)

(** [MCPClient()] *)
Definition MCPClient_init : MCPClient := {| proc := false; request_id := 1 |}.

(** What the world gives to [start]: the message of the [OSError] that
    [subprocess.Popen] raises, if any; the child during the call of
    [initialize]; the message of the [OSError] that writing the
    notification raises, if any. *)
Record start_env := {
  popen : option pystr;
  initialize : call_env;
  notify_write : option pystr
}.

Definition INITIALIZE_PARAMS : pydict :=
  [ (lit "protocolVersion", VStr (lit "2024-11-05"));
    (lit "capabilities", VDict []);
    (lit "clientInfo",
     VDict [ (lit "name", VStr (lit "codeblog-mac-qa"));
             (lit "version", VStr (lit "1.0.0")) ]) ].

Definition _notify (self : MCPClient) (method : pystr) (params : pydict)
    (write : option pystr) : result unit :=
  if negb (proc self) then Raise not_started
  else
    match write with
    | Some msg => Raise (Exn OSError msg)
    | None => Ok tt
    end.

Definition start (self : MCPClient) (env : start_env) : MCPClient * result unit :=
  match popen env with
  | Some msg => (self, Raise (Exn OSError msg))
  | None =>
      let self := {| proc := true; request_id := request_id self |} in
      let '(self, r) :=
        _rpc self (lit "initialize") INITIALIZE_PARAMS 20 (initialize env) in
      (self,
       _ ← r;
       _notify self (lit "notifications/initialized") [] (notify_write env))
  end.

(** The calls that [close] makes on the process. *)
Inductive process_call :=
| terminate
| kill.

(** What the world gives to [close]: whether the child still runs
    ([poll()] is [None]) and whether [wait(timeout=3)] runs out. *)
Record close_env := {
  running : bool;
  wait_expires : bool
}.

Definition close (self : MCPClient) (env : close_env)
  : MCPClient * list process_call :=
  if negb (proc self) then (self, [])
  else
    ({| proc := false; request_id := request_id self |},
     if running env then
       if wait_expires env then [terminate; kill] else [terminate]
     else []).

(** ** One round of [main] *)

(** What the world gives to one round: the time stamp and the [uuid4] of
    the run identifier, then what each step is given, the operations by
    their place in the catalog. *)
Record round_env := {
  stamp : pystr;
  run_uuid : pystr;
  login : login_env;
  starting : start_env;
  operations : nat → op_env;
  closing : close_env
}.

Definition round_run (round_no : Z) (env : round_env) : run_env :=
  {| run_id := lit "RUN-" ++ stamp env ++ lit "-" ++ take 8 (run_uuid env);
     round_no := round_no |}.

(** The body of [while True], without what it prints: the state that is
    reached, the calls made on the process when the session is closed,
    and the exception that leaves the round, if any. *)
Definition run_round (round_no : Z) (log matrix_ : pystr) (env : round_env)
  : run_state * list process_call * option exn :=
  let run := round_run round_no env in
  let ctx := initial_context (credentials_of (ensure_login_credentials (login env))) in
  let '(session, started) := start MCPClient_init (starting env) in
  match started with
  | Raise ex =>
      let '(session, calls) := close session (closing env) in
      ({| dynamic_context := ctx; client := session;
          run_log := log; matrix := matrix_ |}, calls, Some ex)
  | Ok _ =>
      let '(st, ex) :=
        run_pass run
                 {| dynamic_context := ctx; client := session;
                    run_log := log; matrix := matrix_ |}
                 (imap (λ i d, (d, operations env i)) TOOLS) in
      let '(session, calls) := close (client st) (closing env) in
      ({| dynamic_context := dynamic_context st; client := session;
          run_log := run_log st; matrix := matrix st |}, calls, ex)
  end.


End Credentials.

(** * The report scripts (scripts/mcp_acceptance_report.py and
      scripts/mcp_generate_final_report.py)

    Both scripts read the csv files of the runner with [csv.DictReader],
    on files opened with [newline=""]. *)

(** ** [csv.DictReader] *)

(** A row of the reader: the cells by field name, in the order in which
    the keys were first set, a cell that the line does not have being
    [None]; and the cells beyond the last field name, which the reader
    keeps under the key [None]. *)
Record dict_row := {
  cells : list (pystr * option pystr);
  rest_cells : option (list pystr)
}.

(** [d[k] = v] *)
Fixpoint cells_set (d : list (pystr * option pystr)) (k : pystr)
    (v : option pystr) : list (pystr * option pystr) :=
  match d with
  | [] => [(k, v)]
  | (k', v') :: d' =>
      if str_eqb k' k then (k', v) :: d' else (k', v') :: cells_set d' k v
  end.

(** The entry of [k], if [d] has the key. *)
Fixpoint cells_get (d : list (pystr * option pystr)) (k : pystr)
  : option (option pystr) :=
  match d with
  | [] => None
  | (k', v) :: d' => if str_eqb k' k then Some v else cells_get d' k
  end.

(** [dict(zip(fieldnames, row))] *)
Definition dict_zip (fieldnames row : list pystr) : list (pystr * option pystr) :=
  fold_left (λ d kv, cells_set d (fst kv) (Some (snd kv))) (zip fieldnames row) [].

(** The dictionary that [DictReader.__next__] makes of a row. *)
Definition dict_of_row (fieldnames row : list pystr) : dict_row :=
  let d := dict_zip fieldnames row in
  let lf := length fieldnames in
  let lr := length row in
  if lf <? lr then {| cells := d; rest_cells := Some (drop lf row) |}
  else if lr <? lf then
    {| cells := fold_left (λ d key, cells_set d key None) (drop lr fieldnames) d;
       rest_cells := None |}
  else {| cells := d; rest_cells := None |}.

Definition is_blank (row : list pystr) : bool :=
  match row with [] => true | _ => false end.

(** [list(csv.DictReader(f))]: the first row gives the field names, and
    the empty rows after it are passed over. *)
Definition DictReader (content : pystr) : result (list dict_row) :=
  rows ← csv_reader content;
  match rows with
  | [] => Ok []
  | fieldnames :: rest =>
      Ok (map (dict_of_row fieldnames)
              (List.filter (λ row, negb (is_blank row)) rest))
  end.

Definition load_csv (content : pystr) : result (list dict_row) :=
  DictReader content.

(** [row.get(key)], [None] of Python being [None]. *)
Definition get (row : dict_row) (key : pystr) : option pystr :=
  default None (cells_get (cells row) key).

(** [row.get(key, default)] *)
Definition get_or (row : dict_row) (key : pystr) (default_ : pystr)
  : option pystr :=
  default (Some default_) (cells_get (cells row) key).

(** [row[key]] *)
Definition getitem (row : dict_row) (key : pystr) : result (option pystr) :=
  match cells_get (cells row) key with
  | Some v => Ok v
  | None => Raise (Exn KeyError (lit "'" ++ key ++ lit "'"))
  end.

(** [v == s] for a cell and a text. *)
Definition cell_eqb (v : option pystr) (s : pystr) : bool :=
  match v with
  | Some t => str_eqb t s
  | None => false
  end.

(** [sum(1 for r in rows if r.get(key) == "是")] *)
Definition count_yes (rows : list dict_row) (key : pystr) : nat :=
  length (List.filter (λ r, cell_eqb (get r key) YES) rows).

(** ** The text constants of the reports *)

Section ReportLiterals.
Local Open Scope N_scope.

(* 工具总数 *)
Definition KEY_TOTAL : pystr := [24037; 20855; 24635; 25968].
(* 是否通过 *)
Definition KEY_PASSED : pystr := [26159; 21542; 36890; 36807].
(* 总数 *)
Definition KEY_COUNT : pystr := [24635; 25968].
(* 通过 *)
Definition KEY_PASS_COUNT : pystr := [36890; 36807].
(* 状态 *)
Definition KEY_STATUS : pystr := [29366; 24577].
(* 未通过工具: *)
Definition NOT_PASSED_TITLE : pystr := [26410; 36890; 36807; 24037; 20855; 58].
(* RunID *)
Definition KEY_RUN_ID : pystr := [82; 117; 110; 73; 68].

End ReportLiterals.

(** ** [summarize_matrix] *)

(** [out[key] = v] *)
Fixpoint out_set (out : list (pystr * pystr)) (k v : pystr)
  : list (pystr * pystr) :=
  match out with
  | [] => [(k, v)]
  | (k', v') :: out' =>
      if str_eqb k' k then (k', v) :: out' else (k', v') :: out_set out' k v
  end.

Fixpoint out_get (out : list (pystr * pystr)) (k : pystr) : option pystr :=
  match out with
  | [] => None
  | (k', v) :: out' => if str_eqb k' k then Some v else out_get out' k
  end.

Definition str_of_nat (n : nat) : pystr := str_of_int (Z.of_nat n).

(** [f"{passed}/{total}"] *)
Definition ratio (passed total : nat) : pystr :=
  str_of_nat passed ++ lit "/" ++ str_of_nat total.

Definition summary_keys : list pystr :=
  [COL_INTEGRATED; COL_MCP_PASSED; COL_DIALOGUE; COL_CAPSULE_START;
   COL_CAPSULE_END; COL_ERROR_VISIBLE].

Definition summarize_matrix (rows : list dict_row) : list (pystr * pystr) :=
  let total := length rows in
  fold_left (λ out key, out_set out key (ratio (count_yes rows key) total))
            summary_keys
            [(KEY_TOTAL, str_of_nat total)].

(** ** [summarize_recent_runs] *)

(** The loop that collects the run identifiers, in the order in which
    they are first met. *)
Fixpoint collect_run_ids (rows : list dict_row) (run_ids : list pystr)
  : list pystr :=
  match rows with
  | [] => run_ids
  | row :: rest =>
      let run_ids :=
        match get_or row KEY_RUN_ID [] with
        | Some rid =>
            if nonempty rid && negb (str_in rid run_ids)
            then run_ids ++ [rid] else run_ids
        | None => run_ids
        end in
      collect_run_ids rest run_ids
  end.

(** [l[-n:]] *)
Definition last_items {A} (n : Z) (l : list A) : list A :=
  if (0 <? n)%Z then drop (length l - Z.to_nat n) l
  else drop (Z.to_nat (- n)) l.

(** The entry of one run. *)
Definition run_summary (rows : list dict_row) (rid : pystr)
  : list (pystr * pystr) :=
  let subset := List.filter (λ r, cell_eqb (get r KEY_RUN_ID) rid) rows in
  let total := length subset in
  let passed := count_yes subset KEY_PASSED in
  [ (KEY_RUN_ID, rid);
    (KEY_COUNT, str_of_nat total);
    (KEY_PASS_COUNT, str_of_nat passed);
    (KEY_STATUS, if (0 <? total) && (passed =? total) then PASSED else FAILED) ].

Definition summarize_recent_runs (rows : list dict_row) (n : Z)
  : list (list (pystr * pystr)) :=
  let run_ids := collect_run_ids rows [] in
  let selected := last_items n run_ids in
  map (run_summary rows) selected.

(** ** The failed tools of the final report

    [[r["工具名"] for r in matrix_rows if r.get("MCP调用通过") != "是"]] *)
Fixpoint failed_tools (matrix_rows : list dict_row)
  : result (list (option pystr)) :=
  match matrix_rows with
  | [] => Ok []
  | r :: rest =>
      if negb (cell_eqb (get r COL_MCP_PASSED) YES) then
        name ← getitem r COL_TOOL;
        names ← failed_tools rest;
        Ok (name :: names)
      else failed_tools rest
  end.

(** ** The acceptance report *)

(** A cell in an f-string. *)
Definition format_cell (v : option pystr) : pystr :=
  match v with
  | Some s => s
  | None => lit "None"
  end.

(** The loop that prints the rows that did not pass: what it has
    printed, and the exception that ends it, if any. *)
Fixpoint print_failures (failures : list dict_row) : list pystr * option exn :=
  match failures with
  | [] => ([], None)
  | row :: rest =>
      match getitem row COL_TOOL with
      | Raise ex => ([], Some ex)
      | Ok name =>
          let line :=
            lit "- " ++ format_cell name ++ lit ": "
                ++ format_cell (get_or row COL_LAST_RESULT []) ++ lit " | "
                ++ format_cell (get_or row COL_ISSUE []) in
          let '(printed, ex) := print_failures rest in
          (line :: printed, ex)
      end
  end.

(** [main(path)] of the acceptance report: the texts that it prints,
    one for each call of [print], and the exception that ends it, if
    any. *)
Definition acceptance_report (content : pystr) : list pystr * option exn :=
  match DictReader content with
  | Raise ex => ([], Some ex)
  | Ok rows =>
      let total := length rows in
      let passed := count_yes rows COL_MCP_PASSED in
      let integrated := count_yes rows COL_INTEGRATED in
      let dialogue := count_yes rows COL_DIALOGUE in
      let capsule_start := count_yes rows COL_CAPSULE_START in
      let capsule_end := count_yes rows COL_CAPSULE_END in
      let head :=
        [ KEY_TOTAL ++ lit ": " ++ str_of_nat total;
          COL_INTEGRATED ++ lit ": " ++ ratio integrated total;
          COL_MCP_PASSED ++ lit ": " ++ ratio passed total;
          COL_DIALOGUE ++ lit ": " ++ ratio dialogue total;
          COL_CAPSULE_START ++ lit ": " ++ ratio capsule_start total;
          COL_CAPSULE_END ++ lit ": " ++ ratio capsule_end total ] in
      let failures :=
        List.filter (λ row, negb (cell_eqb (get row COL_MCP_PASSED) YES)) rows in
      match failures with
      | [] => (head, None)
      | _ =>
          let '(printed, ex) := print_failures failures in
          (head ++ (LF :: NOT_PASSED_TITLE) :: printed, ex)
      end
  end.

(** * Notions used in the statements *)

Section Notions.

Context {lib : PyLib}.

(** ** Lines of the child *)

(** The [id] of a decoded line, [None] of Python when it has none. *)
Definition id_of (d : pydict) : value := default VNone (dict_get d (lit "id")).

(** [line] is taken by [_rpc] as the reply to [req_id]: it decodes to
    the object [d], whose id equals [req_id]. *)
Definition reply_to (req_id : Z) (line : pystr) (d : pydict) : Prop :=
  line ≠ [] ∧ loads (strip line) = Ok (VDict d) ∧ eq_int (id_of d) req_id = true.

(** [line] is passed over: nothing was read (end of file), or the line
    decodes to an object with another id or without id. *)
Definition passed_over (req_id : Z) (line : pystr) : Prop :=
  line = [] ∨
  ∃ d, loads (strip line) = Ok (VDict d) ∧ eq_int (id_of d) req_id = false.

(** [line] cannot be handled: it is not JSON, or not a JSON object. *)
Definition malformed (line : pystr) (ex : exn) : Prop :=
  line ≠ [] ∧
  (loads (strip line) = Raise ex ∨
   ∃ v, loads (strip line) = Ok v ∧ (∀ d, v ≠ VDict d) ∧ ex = no_attribute v "get").

(** What the reply [d] makes of the call: its result, the error it
    reports, or an error member that is no object. *)
Inductive reply_outcome (d : pydict) : result value → Prop :=
| reply_result :
    dict_get d (lit "error") = None →
    reply_outcome d (Ok (default (VDict []) (dict_get d (lit "result"))))
| reply_remote_error err msg :
    dict_get d (lit "error") = Some (VDict err) →
    msg = default (VStr (lit "unknown mcp error")) (dict_get err (lit "message")) →
    reply_outcome d (Raise (Exn RuntimeError (py_str msg)))
| reply_bad_error v :
    dict_get d (lit "error") = Some v → (∀ err, v ≠ VDict err) →
    reply_outcome d (Raise (no_attribute v "get")).

(** What a wait for the reply to [req_id] can come to. *)
Inductive rpc_outcome (req_id : Z) (on_timeout : exn) (obs : list observation)
  : result value → Prop :=
| rpc_replied line d r :
    In (Line line) obs → reply_to req_id line d → reply_outcome d r →
    rpc_outcome req_id on_timeout obs r
| rpc_timed_out :
    rpc_outcome req_id on_timeout obs (Raise on_timeout)
| rpc_exited stderr_read returncode :
    In (Exited stderr_read returncode) obs →
    rpc_outcome req_id on_timeout obs (Raise (exited_error stderr_read returncode))
| rpc_malformed line ex :
    In (Line line) obs → malformed line ex →
    rpc_outcome req_id on_timeout obs (Raise ex).

(** ** Rows of the run log *)


End Notions.

(** ** Fields and the field size limit *)

Definition within_limit (f : pystr) : Prop :=
  (N.of_nat (length f) <= field_limit)%N.

(** ** The reader in the middle of a line

    [reads_as r s X]: a reader that has come to [r] within the current
    line, with [s] as the rest of the file, gives the records [X]. *)
Definition reads_as (r : ReaderObj) (s : pystr)
    (X : result (list (list pystr))) : Prop :=
  ∀ r0 line, process_line r0 line = Ok r →
             read_records r0 (readlines line s) = X.

Definition starts_with_lf (s : pystr) : bool :=
  match s with c :: _ => chr_eqb c LF | [] => false end.

Definition mk (st : ParserState) (fs : list pystr) (fld : pystr) : ReaderObj :=
  {| state := st; fields := fs; field := fld |}.

(** The states in which the reader is after the text of a field. *)
Definition after_field (pre : list pystr) (f : pystr) (r : ReaderObj) : Prop :=
  fields r = pre ∧ field r = f ∧
  (state r = IN_FIELD ∨ state r = START_FIELD ∨ state r = QUOTE_IN_QUOTED_FIELD).

(** ** The tracking table *)

(** The columns that [update_matrix] assigns. *)
Definition updated_columns : list pystr :=
  [COL_INTEGRATED; COL_MCP_PASSED; COL_DIALOGUE; COL_CAPSULE_START;
   COL_CAPSULE_END; COL_ERROR_VISIBLE; COL_RUN_ID; COL_LAST_RESULT; COL_ISSUE;
   COL_ROOT_CAUSE; COL_FIX; COL_RETEST; COL_UPDATED].

(** The columns that [update_matrix] looks up. *)
Definition all_columns : list pystr := COL_TOOL :: updated_columns.

(** [row[idx[name]]] *)
Definition cell (header row : list pystr) (name : pystr) : result pystr :=
  i ← idx header name; row_get row i.

(** The value that the column of visible errors gets, from the one it
    had. *)
Definition visible_cell (u : tracking_update) (old : pystr) : pystr :=
  if negb (u_passed u) && (nonempty (u_issue u) || nonempty (u_root_cause u))
  then YES else if nonempty old then old else YES.

(** The cells that [update_matrix] assigns, by column. *)
Definition assigned_cells (u : tracking_update) (old_visible : pystr)
  : list (pystr * pystr) :=
  [ (COL_INTEGRATED, YES);
    (COL_MCP_PASSED, yes_no (u_passed u));
    (COL_DIALOGUE, yes_no (u_passed u));
    (COL_CAPSULE_START, yes_no (u_passed u));
    (COL_CAPSULE_END, yes_no (u_passed u));
    (COL_ERROR_VISIBLE, visible_cell u old_visible);
    (COL_RUN_ID, u_run_id u);
    (COL_LAST_RESULT, if u_passed u then PASSED else FAILED);
    (COL_ISSUE, u_issue u);
    (COL_ROOT_CAUSE, u_root_cause u);
    (COL_FIX, u_fix u);
    (COL_RETEST, u_retest u);
    (COL_UPDATED, u_now u) ].

(** The row with the cells of [l] assigned in order. *)
Fixpoint assign_all (header row : list pystr) (l : list (pystr * pystr))
  : result (list pystr) :=
  match l with
  | [] => Ok row
  | [(name, v)] => set_col header row name v
  | (name, v) :: l' =>
      row' ← set_col header row name v; assign_all header row' l'
  end.



(** ** Bounds of the csv reader *)

(** The fields of a reader, saved or being read, are within the field
    size limit. *)
Definition reader_within_limit (r : ReaderObj) : Prop :=
  within_limit (field r) ∧ Forall within_limit (fields r).

(** The texts of an update are within the field size limit. *)
Definition update_within (u : tracking_update) : Prop :=
  Forall within_limit
         [u_run_id u; u_issue u; u_root_cause u; u_fix u; u_retest u; u_now u].

(** ** White space at the ends of a text *)

Definition starts_with_space (s : pystr) : bool :=
  match s with c :: _ => py_isspace c | [] => false end.

Definition ends_with_space (s : pystr) : bool := starts_with_space (rev s).

(** ** Masked payloads *)

(** Every value that [v] holds under a sensitive key, at any depth, is
    the text of three stars. *)
Fixpoint secrets_hidden (v : value) : bool :=
  match v with
  | VDict d =>
      forallb (λ kv,
                 (negb (str_in (lower (fst kv)) sensitive)
                  || eq_str (snd kv) (lit "***"))
                 && secrets_hidden (snd kv)) d
  | VList l => forallb secrets_hidden l
  | _ => true
  end.

(** Every text that [v] holds as a value, at any depth, has at most [n]
    characters. *)
Fixpoint texts_within (n : nat) (v : value) : bool :=
  match v with
  | VStr s => length s <=? n
  | VDict d => forallb (λ kv, texts_within n (snd kv)) d
  | VList l => forallb (texts_within n) l
  | _ => true
  end.

(** ** Tools whose arguments depend on the context *)

(** The tools that lines 285 to 348 of the runner name. *)
Definition dependent_tools : list pystr :=
  [ lit "read_session"; lit "analyze_session"; lit "post_to_codeblog";
    lit "read_post"; lit "comment_on_post"; lit "vote_on_post";
    lit "edit_post"; lit "delete_post"; lit "confirm_post";
    lit "codeblog_setup"; lit "save_daily_report" ].

(** * Data of the examples *)

(** A piece of JSON text between quotes. *)
Definition quoted (s : string) : pystr := DQUOTE :: lit s ++ [DQUOTE].

(** A decoder for the examples: [table] gives the texts that it decodes,
    each with the value that [json.loads] returns for it; any other text
    is rejected. *)
Definition decode_table (table : list (pystr * value)) (s : pystr)
  : pystr + value :=
  match dict_get table s with
  | Some v => inr v
  | None => inl (lit "Expecting value: line 1 column 1 (char 0)")
  end.

(* {"id":1,"result":{"content":[{"type":"text","text":"ok"}]}} *)
Definition reply_1_text : pystr :=
  lit "{" ++ quoted "id" ++ lit ":1," ++ quoted "result" ++ lit ":{"
      ++ quoted "content" ++ lit ":[{" ++ quoted "type" ++ lit ":"
      ++ quoted "text" ++ lit "," ++ quoted "text" ++ lit ":" ++ quoted "ok"
      ++ lit "}]}}".

Definition text_result (text : pystr) : value :=
  VDict [(lit "content",
          VList [VDict [(lit "type", VStr (lit "text"));
                        (lit "text", VStr text)]])].

Definition reply_1 : value :=
  VDict [(lit "id", VInt 1); (lit "result", text_result (lit "ok"))].

(* {"id":1,"error":{"message":"boom"}} *)
Definition error_1_text : pystr :=
  lit "{" ++ quoted "id" ++ lit ":1," ++ quoted "error" ++ lit ":{"
      ++ quoted "message" ++ lit ":" ++ quoted "boom" ++ lit "}}".

Definition error_1 : value :=
  VDict [(lit "id", VInt 1);
         (lit "error", VDict [(lit "message", VStr (lit "boom"))])].

(* {"id":7,"result":{}} *)
Definition other_id_text : pystr :=
  lit "{" ++ quoted "id" ++ lit ":7," ++ quoted "result" ++ lit ":{}}".

Definition other_id : value := VDict [(lit "id", VInt 7); (lit "result", VDict [])].

(* {"method":"notifications/progress"} *)
Definition notification_text : pystr :=
  lit "{" ++ quoted "method" ++ lit ":" ++ quoted "notifications/progress"
      ++ lit "}".

Definition notification : value :=
  VDict [(lit "method", VStr (lit "notifications/progress"))].

(* {"id":"1"} *)
Definition text_id_text : pystr :=
  lit "{" ++ quoted "id" ++ lit ":" ++ quoted "1" ++ lit "}".

Definition text_id : value := VDict [(lit "id", VStr (lit "1"))].

(* {"id":3,"error":{"message":"boom"}} *)
Definition error_3_text : pystr :=
  lit "{" ++ quoted "id" ++ lit ":3," ++ quoted "error" ++ lit ":{"
      ++ quoted "message" ++ lit ":" ++ quoted "boom" ++ lit "}}".

Definition error_3 : value :=
  VDict [(lit "id", VInt 3);
         (lit "error", VDict [(lit "message", VStr (lit "boom"))])].

(* {"id":1,"result":{"content":[{"type":"text","text":"a\nb"}]}} *)
Definition two_lines_text : pystr :=
  lit "{" ++ quoted "id" ++ lit ":1," ++ quoted "result" ++ lit ":{"
      ++ quoted "content" ++ lit ":[{" ++ quoted "type" ++ lit ":"
      ++ quoted "text" ++ lit "," ++ quoted "text" ++ lit ":"
      ++ DQUOTE :: lit "a\nb" ++ [DQUOTE] ++ lit "}]}}".

Definition two_lines : value :=
  VDict [(lit "id", VInt 1);
         (lit "result", text_result (lit "a" ++ [LF] ++ lit "b"))].

(* [{"path":"/s/1.jsonl","source":"claude"}] *)
Definition sessions_text : pystr :=
  lit "[{" ++ quoted "path" ++ lit ":" ++ quoted "/s/1.jsonl" ++ lit ","
      ++ quoted "source" ++ lit ":" ++ quoted "claude" ++ lit "}]".

Definition sessions : value :=
  VList [VDict [(lit "path", VStr (lit "/s/1.jsonl"));
                (lit "source", VStr (lit "claude"))]].

Definition example_table : list (pystr * value) :=
  [ (reply_1_text, reply_1); (error_1_text, error_1);
    (other_id_text, other_id); (notification_text, notification);
    (text_id_text, text_id); (error_3_text, error_3);
    (two_lines_text, two_lines); (sessions_text, sessions) ].

(** The library of the examples.  The only value that the examples
    serialize is the empty object. *)
Definition example_lib : PyLib :=
  {| json_loads := decode_table example_table;
     json_dumps := λ v, match v with VDict [] => lit "{}" | _ => lit "null" end;
     py_repr := λ v, lit "None" |}.

(** A line as [readline] gives it. *)
Definition line_of (text : pystr) : observation := Line (text ++ [LF]).

Definition started : MCPClient := {| proc := true; request_id := 1 |}.


Definition example_matrix_rows : list (list pystr) :=
  [ all_columns;
    lit "scan_sessions" :: repeat [] 13;
    lit "read_session" :: repeat [] 13 ].

Definition example_state : run_state :=
  {| dynamic_context := ∅; client := started; run_log := [];
     matrix := writerows example_matrix_rows |}.

Definition example_op (obs : list observation) : op_env :=
  {| start_iso := lit "2026-01-01T00:00:00";
     end_iso := lit "2026-01-01T00:00:01";
     elapsed_ms := 1000;
     uuid4_hex := lit "0123456789abcdef0123456789abcdef";
     child := {| stdin_write := None; observations := obs |};
     matrix_now := lit "2026-01-01T00:00:01" |}.

(** ** The outcome record and its row *)



(** ** Calls and passes of the examples *)

Definition example_call (obs : list observation) : call_env :=
  {| stdin_write := None; observations := obs |}.



Definition example_update (tool : string) (run : string) : tracking_update :=
  {| u_tool := lit tool; u_run_id := lit run; u_passed := true;
     u_issue := []; u_root_cause := []; u_fix := []; u_retest := YES;
     u_now := lit "2026-01-01T00:00:01" |}.

(** ** Data of the further examples *)

Definition text_entry (text : string) : value :=
  VDict [(lit "type", VStr (lit "text")); (lit "text", VStr (lit text))].

Definition image_entry : pydict :=
  [(lit "type", VStr (lit "image")); (lit "data", VStr (lit "AAAA"))].

(** A tracking table whose header has two columns only. *)
Definition short_header : list pystr := [COL_TOOL; COL_INTEGRATED].

(** The rows of the tracking table of the examples. *)
Definition scan_row : list pystr := lit "scan_sessions" :: repeat [] 13.
Definition read_row : list pystr := lit "read_session" :: repeat [] 13.


(** Rows of a tracking table as the reports read them. *)
Definition report_header : list pystr :=
  [COL_TOOL; COL_MCP_PASSED; COL_LAST_RESULT; COL_ISSUE].

Definition report_rows : list dict_row :=
  [ dict_of_row report_header [lit "scan_sessions"; YES; PASSED; []];
    dict_of_row report_header [lit "read_session"; NO; FAILED; ISSUE_TEXT] ].

(** Rows of a run log as the final report reads them: two rows of a
    first run, one of a second, one of the first again, one without run
    identifier and one of a third run. *)
Definition log_header : list pystr := [KEY_RUN_ID; KEY_PASSED].

Definition log_rows : list dict_row :=
  map (dict_of_row log_header)
      [ [lit "RUN-A"; YES]; [lit "RUN-A"; NO]; [lit "RUN-B"; YES];
        [lit "RUN-A"; YES]; [[]; YES]; [lit "RUN-C"; YES] ].

(** A world without credentials in which the quickstart request is
    refused. *)
Definition example_login : login_env :=
  {| environ_email := None;
     environ_password := Some (lit "secret");
     uuid_nonce := lit "0123456789abcdef0123456789abcdef";
     uuid_password := lit "fedcba9876543210fedcba9876543210";
     request_error := None;
     response := Failed (Exn OSError (lit "connection refused")) |}.

(** A round in which the child answers [initialize] and no call of a
    tool. *)
Definition example_round (popen_ : option pystr) : round_env :=
  {| stamp := lit "20260101-000000";
     run_uuid := lit "0123abcd0123abcd0123abcd0123abcd";
     login := example_login;
     starting := {| popen := popen_;
                    initialize := example_call [line_of reply_1_text];
                    notify_write := None |};
     operations := λ _, example_op [];
     closing := {| running := true; wait_expires := false |} |}.

(** * Properties *)

(** ** Texts and results *)

Lemma str_eqb_eq a b : str_eqb a b = true ↔ a = b.
Proof.
  revert b. induction a as [|x a IH]; intros [|y b]; cbn; try (split; [discriminate|done]); [done|].
  rewrite andb_true_iff, IH. unfold chr_eqb. rewrite N.eqb_eq.
  split; [intros [-> ->]; done | intros [= -> ->]; done].
Qed.

Lemma str_eqb_refl a : str_eqb a a = true.
Proof. by apply str_eqb_eq. Qed.

Lemma str_eqb_neq a b : str_eqb a b = false ↔ a ≠ b.
Proof.
  rewrite <- str_eqb_eq. destruct (str_eqb a b).
  - split; [discriminate | intros H; by destruct H].
  - split; [intros _; discriminate | done].
Qed.

Lemma bind_Ok {A B} (a : A) (k : A → result B) : (Ok a ≫= k) = k a.
Proof. reflexivity. Qed.

Lemma bind_Raise {A B} (e : exn) (k : A → result B) : (Raise e ≫= k) = Raise e.
Proof. reflexivity. Qed.

Ltac simpl_bind := rewrite ?bind_Ok, ?bind_Raise.

Lemma py_get_dict d k default :
  py_get (VDict d) k default = Ok (match dict_get d k with Some x => x | None => default end).
Proof. reflexivity. Qed.

(** ** Reading back what the csv writer wrote *)

Lemma process_line_app r a b :
  process_line r (a ++ b) = process_line r a ≫= λ r', process_line r' b.
Proof.
  revert r. induction a as [|c a IH]; intros r; simpl; [reflexivity|].
  destruct (parse_process_char r (Chr c)) as [r'|e]; simpl; [apply IH | reflexivity].
Qed.

Lemma process_line_snoc r0 line r c r' :
  process_line r0 line = Ok r → parse_process_char r (Chr c) = Ok r' →
  process_line r0 (line ++ [c]) = Ok r'.
Proof.
  intros H1 H2. rewrite process_line_app, H1. simpl. rewrite H2. reflexivity.
Qed.

Lemma is_newline_false c :
  is_newline c = false → chr_eqb c LF = false ∧ chr_eqb c CR = false.
Proof. unfold is_newline. intros H. apply orb_false_elim in H. exact H. Qed.

Lemma readlines_chr line c s :
  is_newline c = false → readlines line (c :: s) = readlines (line ++ [c]) s.
Proof.
  intros Hn. apply is_newline_false in Hn as [H1 H2].
  cbn [readlines]. rewrite H1, H2. reflexivity.
Qed.

Lemma readlines_lf line s :
  readlines line (LF :: s) = (line ++ [LF]) :: readlines [] s.
Proof. reflexivity. Qed.

Lemma readlines_cr line s :
  starts_with_lf s = false →
  readlines line (CR :: s) = (line ++ [CR]) :: readlines [] s.
Proof.
  intros Hs. cbn [readlines].
  replace (chr_eqb CR LF) with false by reflexivity.
  replace (chr_eqb CR CR) with true by reflexivity.
  destruct s as [|c' s']; [reflexivity|]. cbn [starts_with_lf] in Hs. rewrite Hs.
  reflexivity.
Qed.

Lemma readlines_crlf line s :
  readlines line (CR :: LF :: s) = (line ++ [CR; LF]) :: readlines [] s.
Proof. reflexivity. Qed.

Lemma read_records_cons r line rest r1 r2 :
  process_line r line = Ok r1 → parse_process_char r1 EOL = Ok r2 →
  read_records r (line :: rest) =
  if state_eqb (state r2) START_RECORD
  then records ← read_records parse_reset rest; Ok (fields r2 :: records)
  else read_records r2 rest.
Proof. intros H1 H2. cbn [read_records]. rewrite H1. simpl. rewrite H2. reflexivity. Qed.

Lemma eol_in_quoted r : state r = IN_QUOTED_FIELD → parse_process_char r EOL = Ok r.
Proof. intros H. unfold parse_process_char. rewrite H. reflexivity. Qed.

Lemma reads_chr r c r' s X :
  is_newline c = false → parse_process_char r (Chr c) = Ok r' →
  reads_as r' s X → reads_as r (c :: s) X.
Proof.
  intros Hn Hc H r0 line Hl. rewrite readlines_chr by done.
  apply H. eapply process_line_snoc; eauto.
Qed.

(** A line end inside a quoted field. *)
Lemma reads_quoted_line r line_end r1 s X :
  process_line r line_end = Ok r1 → state r1 = IN_QUOTED_FIELD →
  (∀ line, readlines line (line_end ++ s) = (line ++ line_end) :: readlines [] s) →
  reads_as r1 s X → reads_as r (line_end ++ s) X.
Proof.
  intros Hc Hst Hr H r0 line Hl. rewrite Hr.
  erewrite read_records_cons; [| rewrite process_line_app, Hl; exact Hc | by apply eol_in_quoted].
  rewrite Hst. cbn [state_eqb]. apply H. reflexivity.
Qed.

(** The line end that closes a record. *)
Lemma reads_record_end r r1 s recs :
  parse_process_char r (Chr CR) = Ok r1 → state r1 = EAT_CRNL →
  read_records parse_reset (readlines [] s) = Ok recs →
  reads_as r (CR :: LF :: s) (Ok (fields r1 :: recs)).
Proof.
  intros Hc Hst H r0 line Hl. rewrite readlines_crlf.
  erewrite (read_records_cons _ _ _ r1 (set_state r1 START_RECORD)).
  - cbn. rewrite H. reflexivity.
  - rewrite process_line_app, Hl. cbn. rewrite Hc. cbn.
    unfold parse_process_char. rewrite Hst. reflexivity.
  - unfold parse_process_char. rewrite Hst. reflexivity.
Qed.

Lemma add_char_ok fs acc st st' c :
  (N.of_nat (length acc) < field_limit)%N →
  parse_add_char (mk st fs acc) st' c = Ok (mk st' fs (acc ++ [c])).
Proof.
  intros H. unfold parse_add_char. cbn [field mk].
  destruct (N.leb_spec field_limit (N.of_nat (length acc))); [lia|reflexivity].
Qed.

Lemma within_limit_cons acc c f :
  within_limit (acc ++ c :: f) →
  (N.of_nat (length acc) < field_limit)%N ∧ within_limit ((acc ++ [c]) ++ f).
Proof.
  unfold within_limit. rewrite <- app_assoc. cbn [app].
  rewrite !length_app. cbn [length]. lia.
Qed.

Lemma needs_quote_false c :
  needs_quote c = false →
  chr_eqb c COMMA = false ∧ chr_eqb c DQUOTE = false ∧ is_newline c = false.
Proof.
  unfold needs_quote, is_newline. intros H.
  destruct (chr_eqb c COMMA), (chr_eqb c DQUOTE), (chr_eqb c CR), (chr_eqb c LF);
    try discriminate; auto.
Qed.

Lemma chr_eqb_eq a b : chr_eqb a b = true → a = b.
Proof. apply N.eqb_eq. Qed.

Lemma quoted_body n : ∀ f fs acc tail X,
  length f ≤ n →
  within_limit (acc ++ f) →
  reads_as (mk IN_QUOTED_FIELD fs (acc ++ f)) (DQUOTE :: tail) X →
  reads_as (mk IN_QUOTED_FIELD fs acc) (double_quotes f ++ DQUOTE :: tail) X.
Proof.
  induction n as [|n IH]; intros f fs acc tail X Hn Hlim H.
  { destruct f; [|cbn in Hn; lia]. rewrite app_nil_r in H. exact H. }
  destruct f as [|c f]. { rewrite app_nil_r in H. exact H. }
  cbn [length] in Hn.
  destruct (within_limit_cons _ _ _ Hlim) as [Hlt Hlim'].
  rewrite (cons_middle c acc f), app_assoc in H.
  cbn [double_quotes].
  destruct (chr_eqb c DQUOTE) eqn:Hq.
  - apply chr_eqb_eq in Hq. subst c.
    cbn [app]. eapply reads_chr; [reflexivity| reflexivity |].
    eapply reads_chr; [reflexivity| |].
    { unfold parse_process_char. cbn. apply (add_char_ok fs acc). exact Hlt. }
    apply IH; [lia|done|done].
  - destruct (chr_eqb c LF) eqn:Hlf.
    + apply chr_eqb_eq in Hlf. subst c.
      apply (reads_quoted_line _ [LF] (mk IN_QUOTED_FIELD fs (acc ++ [LF]))).
      * cbn. unfold parse_process_char. cbn. rewrite (add_char_ok fs acc) by done. reflexivity.
      * reflexivity.
      * intros line. apply readlines_lf.
      * apply IH; [lia|done|done].
    + destruct (chr_eqb c CR) eqn:Hcr.
      * apply chr_eqb_eq in Hcr. subst c.
        destruct f as [|c' f'].
        { apply (reads_quoted_line _ [CR] (mk IN_QUOTED_FIELD fs (acc ++ [CR]))).
          - cbn. unfold parse_process_char. cbn. rewrite (add_char_ok fs acc) by done. reflexivity.
          - reflexivity.
          - intros line. apply readlines_cr. reflexivity.
          - apply (IH [] fs (acc ++ [CR]) tail X); [cbn; lia|done|done]. }
        destruct (chr_eqb c' LF) eqn:Hlf'.
        { apply chr_eqb_eq in Hlf'. subst c'.
          destruct (within_limit_cons _ _ _ Hlim') as [Hlt2 Hlim2].
          rewrite (cons_middle LF (acc ++ [CR]) f'), app_assoc in H.
          apply (reads_quoted_line _ [CR; LF] (mk IN_QUOTED_FIELD fs ((acc ++ [CR]) ++ [LF]))).
          - cbn. unfold parse_process_char at 1. cbn.
            rewrite (add_char_ok fs acc) by done. cbn.
            unfold parse_process_char. cbn.
            rewrite (add_char_ok fs (acc ++ [CR])) by done. reflexivity.
          - reflexivity.
          - intros line. apply readlines_crlf.
          - apply IH; [cbn in Hn; lia|done|done]. }
        { apply (reads_quoted_line _ [CR] (mk IN_QUOTED_FIELD fs (acc ++ [CR]))).
          - cbn. unfold parse_process_char. cbn. rewrite (add_char_ok fs acc) by done. reflexivity.
          - reflexivity.
          - intros line. apply readlines_cr. cbn [double_quotes].
            destruct (chr_eqb c' DQUOTE); cbn; [reflexivity|exact Hlf'].
          - apply IH; [lia|done|done]. }
      * cbn [app]. eapply reads_chr.
        { unfold is_newline. rewrite Hlf, Hcr. reflexivity. }
        { unfold parse_process_char. cbn. rewrite Hq.
          apply (add_char_ok fs acc). exact Hlt. }
        apply IH; [lia|done|done].
Qed.

Lemma unquoted_body f : ∀ fs acc tail X,
  existsb needs_quote f = false →
  within_limit (acc ++ f) →
  reads_as (mk IN_FIELD fs (acc ++ f)) tail X →
  reads_as (mk IN_FIELD fs acc) (f ++ tail) X.
Proof.
  induction f as [|c f IH]; intros fs acc tail X Hq Hlim H.
  { rewrite app_nil_r in H. exact H. }
  cbn [existsb] in Hq. apply orb_false_elim in Hq as [Hc Hq].
  apply needs_quote_false in Hc as (Hcomma & Hdq & Hnl).
  destruct (within_limit_cons _ _ _ Hlim) as [Hlt Hlim'].
  rewrite (cons_middle c acc f), app_assoc in H.
  cbn [app]. eapply reads_chr; [exact Hnl| |].
  { unfold parse_process_char. cbn. rewrite Hnl, Hcomma.
    apply (add_char_ok fs acc). exact Hlt. }
  apply IH; done.
Qed.

Lemma field_body st pre f tail X :
  st = START_FIELD ∨ st = START_RECORD ∧ f ≠ [] →
  within_limit f →
  starts_with_lf tail = false →
  (∀ r, after_field pre f r → reads_as r tail X) →
  reads_as (mk st pre []) (join_append f ++ tail) X.
Proof.
  intros Hst Hlim Htail H. unfold join_append.
  destruct (existsb needs_quote f) eqn:Hq.
  - cbn [app]. eapply reads_chr; [reflexivity| |].
    { instantiate (1 := mk IN_QUOTED_FIELD pre []).
      destruct Hst as [-> | [-> _]]; reflexivity. }
    rewrite <- app_assoc. cbn [app].
    apply (quoted_body (length f) f pre []); [lia|done|].
    eapply reads_chr; [reflexivity|reflexivity|].
    apply H. repeat split; auto.
  - destruct f as [|c f].
    + destruct Hst as [-> | [_ ?]]; [|done].
      cbn [app]. apply H. repeat split; auto.
    + cbn [existsb] in Hq. apply orb_false_elim in Hq as [Hc Hq].
      apply needs_quote_false in Hc as (Hcomma & Hdq & Hnl).
      cbn [app]. eapply reads_chr; [exact Hnl| |].
      { instantiate (1 := mk IN_FIELD pre [c]).
        assert (parse_add_char (mk st pre []) IN_FIELD c = Ok (mk IN_FIELD pre [c])) as Ha.
        { apply (add_char_ok pre []). unfold within_limit in Hlim. cbn in *. lia. }
        destruct Hst as [-> | [-> _]]; unfold parse_process_char; cbn;
          rewrite Hnl, ?Hdq, ?Hcomma; exact Ha. }
      apply (unquoted_body f pre [c]); [done|done|].
      apply H. repeat split; auto.
Qed.

Lemma after_field_comma pre f r :
  after_field pre f r →
  parse_process_char r (Chr COMMA) = Ok (mk START_FIELD (pre ++ [f]) []).
Proof.
  intros (Hfs & Hf & Hst). destruct r as [st fs fld]. cbn in *. subst.
  destruct Hst as [-> | [-> | ->]]; reflexivity.
Qed.

Lemma after_field_cr pre f r :
  after_field pre f r →
  parse_process_char r (Chr CR) = Ok (mk EAT_CRNL (pre ++ [f]) []).
Proof.
  intros (Hfs & Hf & Hst). destruct r as [st fs fld]. cbn in *. subst.
  destruct Hst as [-> | [-> | ->]]; reflexivity.
Qed.

(** The fields of a record after the first, up to the end of the line. *)
Lemma fields_then_end fs : ∀ pre rest recs,
  fs ≠ [] → Forall within_limit fs →
  read_records parse_reset (readlines [] rest) = Ok recs →
  reads_as (mk START_FIELD pre [])
           (join [COMMA] (map join_append fs) ++ CR :: LF :: rest)
           (Ok ((pre ++ fs) :: recs)).
Proof.
  induction fs as [|f fs IH]; intros pre rest recs Hne Hlim Hrest; [done|].
  apply Forall_cons in Hlim as [Hf Hlim].
  destruct fs as [|f2 fs].
  - cbn [map join]. apply field_body; [by left|done|reflexivity|].
    intros r Hr.
    apply (reads_record_end r (mk EAT_CRNL (pre ++ [f]) [])); auto using after_field_cr.
  - change (join [COMMA] (map join_append (f :: f2 :: fs)))
      with (join_append f ++ [COMMA] ++ join [COMMA] (map join_append (f2 :: fs))).
    rewrite <- !app_assoc. apply field_body; [by left|done|reflexivity|].
    intros r Hr. cbn [app].
    eapply reads_chr; [reflexivity|by apply after_field_comma|].
    replace (pre ++ f :: f2 :: fs) with ((pre ++ [f]) ++ f2 :: fs)
      by (rewrite <- app_assoc; reflexivity).
    apply (IH (pre ++ [f])); done.
Qed.

Lemma join_cons2 sep (a b : pystr) l :
  join sep (a :: b :: l) = a ++ sep ++ join sep (b :: l).
Proof. reflexivity. Qed.

Lemma writerow_single (f : pystr) :
  f ≠ [] → writerow [f] = join_append f ++ [CR; LF].
Proof.
  intros Hf. unfold writerow. cbn [map join]. unfold join_append.
  destruct (existsb needs_quote f); [reflexivity|].
  destruct f; done.
Qed.

Lemma writerow_cons2 (f f2 : pystr) fs :
  writerow (f :: f2 :: fs)
  = join_append f ++ COMMA :: join [COMMA] (map join_append (f2 :: fs)) ++ [CR; LF].
Proof.
  unfold writerow. cbn [map]. rewrite join_cons2.
  destruct (join_append f ++ [COMMA] ++ join [COMMA] (join_append f2 :: map join_append fs)) eqn:E.
  - destruct (join_append f); discriminate.
  - rewrite <- E. rewrite <- !app_assoc. reflexivity.
Qed.

(** A record that was written is read back, and the reader goes on with
    the rest of the file. *)
Lemma record_then_rest row rest recs :
  Forall within_limit row →
  read_records parse_reset (readlines [] rest) = Ok recs →
  reads_as parse_reset (writerow row ++ rest) (Ok (row :: recs)).
Proof.
  intros Hlim Hrest. destruct row as [|f fs].
  { cbn [writerow map join app].
    apply (reads_record_end parse_reset (mk EAT_CRNL [] [])); done. }
  apply Forall_cons in Hlim as [Hf Hlim].
  destruct fs as [|f2 fs].
  - destruct f as [|c f].
    + cbn. eapply reads_chr; [reflexivity|reflexivity|].
      eapply reads_chr; [reflexivity|reflexivity|].
      apply (reads_record_end _ (mk EAT_CRNL [[]] [])); done.
    + rewrite writerow_single by done.
      rewrite <- app_assoc. cbn [app].
      apply (field_body START_RECORD []); [by right|done|reflexivity|].
      intros r Hr.
      apply (reads_record_end r (mk EAT_CRNL [c :: f] [])); auto.
      by apply (after_field_cr []).
  - rewrite writerow_cons2.
    rewrite <- !app_assoc. cbn [app]. rewrite <- !app_assoc. cbn [app].
    destruct f as [|c f].
    + cbn [join_append existsb app].
      eapply reads_chr; [reflexivity|reflexivity|].
      apply (fields_then_end (f2 :: fs) [[]]); done.
    + apply (field_body START_RECORD []); [by right|done|reflexivity|].
      intros r Hr.
      eapply reads_chr; [reflexivity|by apply after_field_comma|].
      apply (fields_then_end (f2 :: fs) [c :: f]); done.
Qed.

Lemma reader_writerows rows :
  Forall (Forall within_limit) rows →
  csv_reader (writerows rows) = Ok rows.
Proof.
  unfold csv_reader. induction rows as [|row rows IH]; intros Hlim; [reflexivity|].
  apply Forall_cons in Hlim as [Hrow Hlim].
  change (writerows (row :: rows)) with (writerow row ++ writerows rows).
  apply (record_then_rest row _ rows Hrow (IH Hlim) parse_reset []). reflexivity.
Qed.


(** ** The rows of the tracking table *)

Lemma enumerate_find_spec header name : ∀ i found j,
  enumerate_find header name i found = Some j →
  found = Some j ∨ (i ≤ j ∧ header !! (j - i) = Some name).
Proof.
  induction header as [|h rest IH]; intros i found j H; cbn in H; [by left|].
  apply IH in H as [H | [Hle H]].
  - destruct (str_eqb h name) eqn:E; [|by left].
    injection H as <-. right. split; [lia|]. rewrite Nat.sub_diag. cbn.
    apply str_eqb_eq in E. by subst.
  - right. split; [lia|]. replace (j - i) with (S (j - S i)) by lia. exact H.
Qed.

Lemma enumerate_find_is_Some header name : ∀ i found,
  (is_Some found ∨ In name header) → is_Some (enumerate_find header name i found).
Proof.
  induction header as [|h rest IH]; intros i found H; cbn.
  - destruct H as [H|[]]. exact H.
  - apply IH. destruct (str_eqb h name) eqn:E; [left; eauto|].
    destruct H as [H|[H|H]]; [by left| |by right].
    subst. rewrite str_eqb_refl in E. discriminate.
Qed.

Lemma idx_Ok header name i : idx header name = Ok i → header !! i = Some name.
Proof.
  unfold idx. destruct (enumerate_find header name 0 None) as [j|] eqn:E; [|discriminate].
  intros [= <-]. apply enumerate_find_spec in E as [E|[_ E]]; [discriminate|].
  by rewrite Nat.sub_0_r in E.
Qed.

Lemma idx_lt header name i : idx header name = Ok i → i < length header.
Proof. intros H. apply idx_Ok in H. by eapply lookup_lt_Some. Qed.

Lemma idx_inj header a b i : idx header a = Ok i → idx header b = Ok i → a = b.
Proof. intros Ha Hb. apply idx_Ok in Ha, Hb. congruence. Qed.

Lemma idx_In header name : In name header → ∃ i, idx header name = Ok i.
Proof.
  intros H. unfold idx.
  destruct (enumerate_find_is_Some header name 0 None (or_intror H)) as [i ->]. eauto.
Qed.

Lemma set_col_ok header row name cell i :
  idx header name = Ok i → i < length row →
  set_col header row name cell = Ok (<[i := cell]> row).
Proof.
  intros Hi Hlt. unfold set_col. rewrite Hi. cbn. unfold row_set.
  destruct (Nat.ltb_spec i (length row)); [done|lia].
Qed.

Lemma update_row_assign header row u old :
  cell header row COL_ERROR_VISIBLE = Ok old →
  Forall (λ c, In c header) updated_columns → length header ≤ length row →
  update_row header row u = assign_all header row (assigned_cells u old).
Proof.
  intros Hold Hcols Hlen.
  assert (∀ name, In name updated_columns → ∃ i, idx header name = Ok i ∧ i < length row) as Hidx.
  { intros name Hn. rewrite Forall_forall in Hcols.
    destruct (idx_In header name) as [i Hi]; [apply Hcols; by apply list_elem_of_In|].
    exists i. split; [done|]. apply idx_lt in Hi. lia. }
  unfold update_row, assigned_cells. cbn [assign_all].
  unfold cell in Hold.
  destruct (Hidx COL_INTEGRATED) as (i1 & H1 & L1); [cbn; tauto|].
  destruct (Hidx COL_MCP_PASSED) as (i2 & H2 & L2); [cbn; tauto|].
  destruct (Hidx COL_DIALOGUE) as (i3 & H3 & L3); [cbn; tauto|].
  destruct (Hidx COL_CAPSULE_START) as (i4 & H4 & L4); [cbn; tauto|].
  destruct (Hidx COL_CAPSULE_END) as (i5 & H5 & L5); [cbn; tauto|].
  destruct (Hidx COL_ERROR_VISIBLE) as (i6 & H6 & L6); [cbn; tauto|].
  rewrite H6 in Hold. cbn in Hold.
  rewrite (set_col_ok _ _ _ _ _ H1) by done. cbn.
  rewrite (set_col_ok _ _ _ _ _ H2) by (rewrite ?length_insert; done). cbn.
  rewrite (set_col_ok _ _ _ _ _ H3) by (rewrite ?length_insert; done). cbn.
  rewrite (set_col_ok _ _ _ _ _ H4) by (rewrite ?length_insert; done). cbn.
  rewrite (set_col_ok _ _ _ _ _ H5) by (rewrite ?length_insert; done). cbn.
  assert (row_get (<[i5:=yes_no (u_passed u)]> (<[i4:=yes_no (u_passed u)]>
           (<[i3:=yes_no (u_passed u)]> (<[i2:=yes_no (u_passed u)]> (<[i1:=YES]> row))))) i6
          = Ok old) as Hget.
  { unfold row_get in *.
    assert (∀ a ia, In a [COL_INTEGRATED; COL_MCP_PASSED; COL_DIALOGUE; COL_CAPSULE_START; COL_CAPSULE_END] →
              idx header a = Ok ia → ia ≠ i6) as Hne.
    { intros a ia Ha Hia ->. pose proof (idx_inj _ _ _ _ Hia H6) as ->.
      cbn in Ha. unfold COL_INTEGRATED, COL_MCP_PASSED, COL_DIALOGUE, COL_CAPSULE_START, COL_CAPSULE_END, COL_ERROR_VISIBLE in Ha.
      repeat (destruct Ha as [Ha|Ha]; [discriminate|]). done. }
    rewrite !list_lookup_insert_ne; [done|..];
      eapply Hne; eauto; cbn; tauto. }
  rewrite H6. cbn. rewrite Hget. cbn.
  unfold visible_cell.
  destruct (negb (u_passed u) && (nonempty (u_issue u) || nonempty (u_root_cause u))); reflexivity.
Qed.

Lemma assign_all_ok header l : ∀ row,
  Forall (λ nv, In nv.1 header) l → length header ≤ length row →
  ∃ row', assign_all header row l = Ok row' ∧ length row' = length row
    ∧ (∀ j, (∀ nv, In nv l → idx header nv.1 ≠ Ok j) → row' !! j = row !! j)
    ∧ (NoDup (map fst l) → ∀ name v, In (name, v) l → cell header row' name = Ok v).
Proof.
  induction l as [|[name v] l IH]; intros row Hin Hlen.
  { exists row. cbn. repeat split; auto. intros _ ? ? []. }
  apply Forall_cons in Hin as [Hname Hin]. cbn in Hname.
  destruct (idx_In _ _ Hname) as [i Hi].
  assert (i < length row) as Hlt by (apply idx_lt in Hi; lia).
  destruct (IH (<[i:=v]> row) Hin) as (row' & Hrow' & Hlen' & Hframe & Hcells).
  { by rewrite length_insert. }
  exists row'. split.
  { destruct l as [|nv l].
    - cbn in *. injection Hrow' as <-. by apply set_col_ok.
    - change (assign_all header row ((name, v) :: nv :: l))
        with (row1 ← set_col header row name v; assign_all header row1 (nv :: l)).
      rewrite (set_col_ok _ _ _ _ _ Hi Hlt). exact Hrow'. }
  split; [by rewrite Hlen', length_insert|]. split.
  - intros j Hj. rewrite Hframe.
    + apply list_lookup_insert_ne. intros ->. by apply (Hj (name, v)); [left|].
    + intros nv Hnv. apply Hj. by right.
  - intros Hnd name' v' Hnv. cbn in Hnd. apply NoDup_cons in Hnd as [Hnotin Hnd].
    destruct Hnv as [[= <- <-]|Hnv].
    + unfold cell. rewrite Hi. cbn. unfold row_get. rewrite Hframe.
      * rewrite list_lookup_insert_eq by done. done.
      * intros nv Hnv Hidx. apply Hnotin. apply list_elem_of_In. apply in_map_iff.
        exists nv. split; [|done]. symmetry. eapply idx_inj; eauto.
    + by apply Hcells.
Qed.

Lemma cell_ok header row name :
  In name header → length header ≤ length row → ∃ c, cell header row name = Ok c.
Proof.
  intros Hin Hlen. destruct (idx_In _ _ Hin) as [i Hi].
  unfold cell. rewrite Hi. cbn. unfold row_get.
  destruct (row !! i) eqn:E; [eauto|].
  apply lookup_ge_None in E. apply idx_lt in Hi. lia.
Qed.

(** Rows of other tools are passed over; the first row of the tool is
    the one that is assigned. *)
Lemma update_data_at header u : ∀ data k row row',
  data !! k = Some row →
  (∀ j r, j < k → data !! j = Some r →
          ∃ name, cell header r COL_TOOL = Ok name ∧ name ≠ u_tool u) →
  cell header row COL_TOOL = Ok (u_tool u) →
  update_row header row u = Ok row' →
  update_data header data u = Ok (<[k := row']> data).
Proof.
  induction data as [|r data IH]; intros k row row' Hk Hbefore Hkey Hrow; [done|].
  destruct k as [|k].
  - cbn in Hk. injection Hk as ->. cbn [update_data].
    unfold cell in Hkey.
    destruct (idx header COL_TOOL) as [i|e]; [|done]. cbn in *.
    rewrite Hkey. cbn. rewrite str_eqb_refl. cbn. rewrite Hrow. reflexivity.
  - cbn in Hk. cbn [update_data].
    destruct (Hbefore 0 r) as (name & Hname & Hne); [lia|done|].
    unfold cell in Hname.
    destruct (idx header COL_TOOL) as [i|e] eqn:Hi; [|done]. cbn in *.
    rewrite Hname. cbn.
    apply str_eqb_neq in Hne. rewrite Hne. cbn.
    rewrite (IH k row row' Hk); [reflexivity| |done|done].
    intros j r' Hj Hr'. apply (Hbefore (S j) r'); [lia|done].
Qed.




Lemma names_distinct : NoDup all_columns.
Proof. apply (bool_decide_unpack (NoDup all_columns)). vm_compute. exact I. Qed.

Lemma assigned_columns u old : map fst (assigned_cells u old) = updated_columns.
Proof. reflexivity. Qed.

(** What one update makes of the row of the tool. *)
Lemma update_row_spec header row u :
  Forall (λ c, In c header) all_columns → length header ≤ length row →
  ∃ old row',
    cell header row COL_ERROR_VISIBLE = Ok old ∧
    update_row header row u = Ok row' ∧ length row' = length row ∧
    (∀ j, (∀ name, In name updated_columns → idx header name ≠ Ok j) →
          row' !! j = row !! j) ∧
    (∀ name v, In (name, v) (assigned_cells u old) → cell header row' name = Ok v) ∧
    cell header row' COL_TOOL = cell header row COL_TOOL.
Proof.
  intros Hcols Hlen. apply Forall_cons in Hcols as [Htool Hcols].
  assert (∀ name, In name updated_columns → In name header) as Hin.
  { intros name Hname. rewrite Forall_forall in Hcols. apply Hcols.
    by apply list_elem_of_In. }
  destruct (cell_ok header row COL_ERROR_VISIBLE) as [old Hold]; [|done|].
  { apply Hin. cbn. tauto. }
  destruct (assign_all_ok header (assigned_cells u old) row) as (row' & Hrow' & Hlen' & Hframe & Hcells);
    [|done|].
  { apply Forall_forall. intros [name v] Hnv. apply Hin.
    rewrite <- (assigned_columns u old). apply in_map_iff.
    exists (name, v). split; [done|]. by apply list_elem_of_In. }
  assert (∀ j, (∀ name, In name updated_columns → idx header name ≠ Ok j) →
               row' !! j = row !! j) as Hframe'.
  { intros j Hj. apply Hframe. intros nv Hnv. apply Hj.
    rewrite <- (assigned_columns u old). apply in_map_iff. eauto. }
  exists old, row'. split; [done|]. split.
  { by rewrite (update_row_assign _ _ _ old). }
  split; [done|]. split; [done|]. split.
  { apply Hcells. rewrite assigned_columns.
    pose proof names_distinct as Hnd. by apply NoDup_cons in Hnd as [_ Hnd]. }
  unfold cell. destruct (idx header COL_TOOL) as [i|e] eqn:Hi; [|done]. cbn.
  unfold row_get. rewrite Hframe'; [done|].
  intros name Hname Hidx. pose proof (idx_inj _ _ _ _ Hidx Hi) as ->.
  pose proof names_distinct as Hnd. apply NoDup_cons in Hnd as [Hnotin _].
  apply Hnotin. by apply list_elem_of_In.
Qed.

Lemma update_twice header data u1 u2 k row :
  Forall (λ c, In c header) all_columns →
  Forall (λ r, length header ≤ length r) data →
  u_tool u2 = u_tool u1 →
  data !! k = Some row →
  cell header row COL_TOOL = Ok (u_tool u1) →
  (∀ j r, j ≠ k → data !! j = Some r → cell header r COL_TOOL ≠ Ok (u_tool u1)) →
  ∃ old row1 row2,
    cell header row COL_ERROR_VISIBLE = Ok old ∧
    update_rows (header :: data) u1 = Ok (header :: <[k := row1]> data) ∧
    update_rows (header :: <[k := row1]> data) u2
    = Ok (header :: <[k := row2]> data) ∧
    (∀ j r, <[k := row2]> data !! j = Some r →
            cell header r COL_TOOL = Ok (u_tool u1) → j = k) ∧
    (∀ name v, In (name, v) (assigned_cells u2 (visible_cell u1 old)) →
               cell header row2 name = Ok v) ∧
    length row2 = length row ∧
    (∀ j, (∀ name, In name updated_columns → idx header name ≠ Ok j) →
          row2 !! j = row !! j).
Proof.
  intros Hcols Hlens Htool Hk Hkey Hother.
  assert (k < length data) as Hklt by (by eapply lookup_lt_Some).
  assert (In COL_TOOL header) as Hcol.
  { rewrite Forall_forall in Hcols. apply Hcols, list_elem_of_In. by left. }
  assert (length header ≤ length row) as Hlen.
  { rewrite Forall_forall in Hlens. by eapply Hlens, list_elem_of_lookup_2. }
  assert (∀ j r, j < k → data !! j = Some r →
            ∃ name, cell header r COL_TOOL = Ok name ∧ name ≠ u_tool u1) as Hbefore.
  { intros j r Hj Hr.
    destruct (cell_ok header r COL_TOOL) as [name Hname]; [done| |].
    { rewrite Forall_forall in Hlens. by eapply Hlens, list_elem_of_lookup_2. }
    exists name. split; [done|]. intros ->. eapply (Hother j r); [lia|done|done]. }
  destruct (update_row_spec header row u1 Hcols Hlen)
    as (old & row1 & Hold & Hrow1 & Hlen1 & Hframe1 & Hcells1 & Hkey1).
  destruct (update_row_spec header row1 u2 Hcols)
    as (old' & row2 & Hold' & Hrow2 & Hlen2 & Hframe2 & Hcells2 & Hkey2); [lia|].
  assert (old' = visible_cell u1 old) as ->.
  { assert (cell header row1 COL_ERROR_VISIBLE = Ok (visible_cell u1 old)) as H1.
    { apply Hcells1. cbn. tauto. }
    congruence. }
  exists old, row1, row2.
  split; [done|]. split.
  { cbn. by rewrite (update_data_at header u1 data k row row1). }
  split.
  { cbn. rewrite (update_data_at header u2 (<[k:=row1]> data) k row1 row2).
    - by rewrite list_insert_insert_eq.
    - by apply list_lookup_insert_eq.
    - intros j r Hj Hr. rewrite list_lookup_insert_ne in Hr by lia.
      rewrite Htool. by apply (Hbefore j r).
    - rewrite Htool. congruence.
    - done. }
  split.
  { intros j r Hr Hc. destruct (decide (j = k)) as [|Hne]; [done|].
    rewrite list_lookup_insert_ne in Hr by done. by destruct (Hother j r). }
  split; [done|].
  split; [lia|].
  intros j Hj. rewrite Hframe2, Hframe1; done.
Qed.

(** The text of a table in which one row is replaced: the text before
    the row and the text after it are the same. *)
Lemma writerows_insert (rows : list (list pystr)) k r :
  k < length rows →
  writerows (<[k := r]> rows)
  = writerows (take k rows) ++ writerow r ++ writerows (drop (S k) rows).
Proof.
  intros Hk. rewrite insert_take_drop by done.
  unfold writerows. rewrite map_app, concat_app. reflexivity.
Qed.

(** ** The wait for a reply *)

Section RpcProperties.
Context {lib : PyLib}.

Lemma py_get_id d : py_get (VDict d) (lit "id") VNone = Ok (id_of d).
Proof. reflexivity. Qed.

Lemma rpc_wait_line req_id on_timeout c line rest :
  rpc_wait req_id on_timeout (Line (c :: line) :: rest) =
  payload ← loads (strip (c :: line));
  id ← py_get payload (lit "id") VNone;
  if negb (eq_int id req_id) then rpc_wait req_id on_timeout rest
  else rpc_reply payload.
Proof. reflexivity. Qed.

Lemma rpc_wait_passed_over req_id on_timeout line rest :
  passed_over req_id line →
  rpc_wait req_id on_timeout (Line line :: rest) = rpc_wait req_id on_timeout rest.
Proof.
  intros [-> | (d & Hd & Hid)]; [reflexivity|].
  destruct line as [|c line]; [reflexivity|].
  rewrite rpc_wait_line, Hd, bind_Ok, py_get_id, bind_Ok, Hid. reflexivity.
Qed.


Lemma rpc_wait_reply req_id on_timeout line d rest :
  reply_to req_id line d →
  rpc_wait req_id on_timeout (Line line :: rest) = rpc_reply (VDict d).
Proof.
  intros (Hne & Hd & Hid). destruct line as [|c line]; [done|].
  rewrite rpc_wait_line, Hd, bind_Ok, py_get_id, bind_Ok, Hid. reflexivity.
Qed.

(** Every line is of one of the three kinds. *)
Lemma line_cases req_id line :
  passed_over req_id line ∨ (∃ d, reply_to req_id line d) ∨ (∃ ex, malformed line ex).
Proof.
  destruct line as [|c line]; [left; by left|].
  destruct (loads (strip (c :: line))) as [v|ex] eqn:Hv.
  - destruct v; try (right; right; eexists; split; [done|]; right; eexists; split; [done|]; split; [intros ?; discriminate|reflexivity]).
    destruct (eq_int (id_of d) req_id) eqn:Hid.
    + right; left. exists d. done.
    + left; right. eauto.
  - right; right. exists ex. split; [done|]. by left.
Qed.

Lemma rpc_wait_malformed req_id on_timeout line ex rest :
  malformed line ex →
  rpc_wait req_id on_timeout (Line line :: rest) = Raise ex.
Proof.
  intros [Hne H]. destruct line as [|c line]; [done|]. rewrite rpc_wait_line.
  destruct H as [-> | (v & -> & Hv & ->)]; [reflexivity|].
  cbn. destruct v; try reflexivity. by destruct (Hv d).
Qed.

Lemma rpc_reply_outcome d : reply_outcome d (rpc_reply (VDict d)).
Proof.
  unfold rpc_reply. destruct (dict_get d (lit "error")) as [v|] eqn:He.
  - destruct v; try (cbn; eapply reply_bad_error; [done|intros ?; discriminate]).
    cbn. eapply reply_remote_error; done.
  - cbn. by constructor.
Qed.

Lemma rpc_outcome_cons req_id on_timeout o obs r :
  rpc_outcome req_id on_timeout obs r → rpc_outcome req_id on_timeout (o :: obs) r.
Proof.
  intros H. destruct H.
  - eapply rpc_replied; [right|..]; eauto.
  - apply rpc_timed_out.
  - apply rpc_exited. by right.
  - eapply rpc_malformed; [right|..]; eauto.
Qed.

Lemma rpc_wait_outcome req_id on_timeout obs :
  rpc_outcome req_id on_timeout obs (rpc_wait req_id on_timeout obs).
Proof.
  induction obs as [|o obs IH]; [apply rpc_timed_out|].
  destruct o as [stderr_read returncode | | line].
  - apply rpc_exited. by left.
  - apply rpc_timed_out.
  - destruct (line_cases req_id line) as [Hp | [[d Hd] | [ex Hm]]].
    + rewrite rpc_wait_passed_over by done. by apply rpc_outcome_cons.
    + rewrite (rpc_wait_reply _ _ _ d) by done.
      eapply rpc_replied; [by left|done|apply rpc_reply_outcome].
    + rewrite (rpc_wait_malformed _ _ _ ex) by done.
      eapply rpc_malformed; [by left|done].
Qed.

End RpcProperties.

(** ** The reader keeps within the field size limit *)

Lemma within_limit_nil : within_limit [].
Proof. unfold within_limit, field_limit. cbn. lia. Qed.

Lemma parse_add_char_within r st c r' :
  reader_within_limit r → parse_add_char r st c = Ok r' → reader_within_limit r'.
Proof.
  intros [Hf Hfs]. unfold parse_add_char.
  destruct (N.leb_spec field_limit (N.of_nat (length (field r)))); [done|].
  intros [= <-]. split; [|done]. cbn. unfold within_limit in *.
  rewrite length_app. cbn. lia.
Qed.

Lemma parse_save_field_within r st :
  reader_within_limit r → reader_within_limit (parse_save_field r st).
Proof.
  intros [Hf Hfs]. split; [apply within_limit_nil|]. cbn.
  apply Forall_app. split; [done|]. by apply Forall_singleton.
Qed.

Lemma set_state_within r st :
  reader_within_limit r → reader_within_limit (set_state r st).
Proof. intros [Hf Hfs]. by split. Qed.

Lemma parse_process_char_within r i r' :
  reader_within_limit r → parse_process_char r i = Ok r' → reader_within_limit r'.
Proof.
  intros Hr. unfold parse_process_char, start_field.
  destruct (state r), i as [c|];
    repeat match goal with
           | |- context [if ?b then _ else _] => destruct b
           end;
    intros H; try discriminate;
    try (injection H as <-);
    auto using parse_save_field_within, set_state_within;
    eapply parse_add_char_within; eassumption.
Qed.

Lemma process_line_within line : ∀ r r',
  reader_within_limit r → process_line r line = Ok r' → reader_within_limit r'.
Proof.
  induction line as [|c line IH]; intros r r' Hr H; cbn in H.
  { by injection H as <-. }
  destruct (parse_process_char r (Chr c)) as [r1|e] eqn:Hc; [|done].
  eapply IH; [|exact H]. by eapply parse_process_char_within.
Qed.

Lemma read_records_within lines : ∀ r rows,
  reader_within_limit r → read_records r lines = Ok rows →
  Forall (Forall within_limit) rows.
Proof.
  induction lines as [|line lines IH]; intros r rows Hr H; cbn in H.
  - destruct Hr as [Hf Hfs].
    assert (Forall within_limit (fields r ++ [field r])) as Hall.
    { apply Forall_app. split; [done|]. by apply Forall_singleton. }
    destruct (field r), (state r); injection H as <-;
      first [ by constructor | by apply Forall_singleton ].
  - destruct (process_line r line) as [r1|e] eqn:H1; [|done]. cbn in H.
    destruct (parse_process_char r1 EOL) as [r2|e] eqn:H2; [|done]. cbn in H.
    assert (reader_within_limit r2) as Hr2.
    { eapply parse_process_char_within; [|exact H2]. by eapply process_line_within. }
    destruct (state_eqb (state r2) START_RECORD).
    + destruct (read_records parse_reset lines) as [records|e] eqn:H3; [|done].
      cbn in H. injection H as <-. apply Forall_cons. split; [apply Hr2|].
      apply (IH parse_reset records); [|exact H3].
      split; [apply within_limit_nil|constructor].
    + by eapply IH.
Qed.

Lemma csv_reader_within content rows :
  csv_reader content = Ok rows → Forall (Forall within_limit) rows.
Proof.
  apply read_records_within. split; [apply within_limit_nil|constructor].
Qed.

(** ** [update_matrix] on a well-formed table *)

Lemma set_col_Ok header row name v row' :
  set_col header row name v = Ok row' → ∃ i, row' = <[i := v]> row.
Proof.
  unfold set_col. destruct (idx header name) as [i|e]; [|done]. cbn.
  unfold row_set. destruct (i <? length row)%nat; [|done]. intros [= <-]. eauto.
Qed.

Lemma assign_all_within header l : ∀ row row',
  Forall within_limit row → Forall (λ nv, within_limit nv.2) l →
  assign_all header row l = Ok row' → Forall within_limit row'.
Proof.
  induction l as [|[name v] l IH]; intros row row' Hrow Hl H.
  { cbn in H. by injection H as <-. }
  apply Forall_cons in Hl as [Hv Hl]. cbn in Hv.
  assert (∀ r1, set_col header row name v = Ok r1 → Forall within_limit r1) as Hset.
  { intros r1 Hr1. apply set_col_Ok in Hr1 as [i ->]. by apply Forall_insert. }
  destruct l as [|nv l].
  - cbn in H. by apply Hset.
  - change (assign_all header row ((name, v) :: nv :: l))
      with (row1 ← set_col header row name v; assign_all header row1 (nv :: l)) in H.
    destruct (set_col header row name v) as [r1|e] eqn:E; [|done].
    cbn in H. eapply IH; [|done|exact H]. by apply Hset.
Qed.

Lemma yes_no_within b : within_limit (yes_no b).
Proof. destruct b; unfold within_limit, field_limit; cbn; lia. Qed.

Lemma cell_in header row name c : cell header row name = Ok c → c ∈ row.
Proof.
  unfold cell. destruct (idx header name) as [i|e]; [|done]. cbn.
  unfold row_get. destruct (row !! i) eqn:E; [|done]. intros [= <-].
  by eapply list_elem_of_lookup_2.
Qed.

Lemma update_row_within header row u row' :
  Forall (λ c, In c header) all_columns → length header ≤ length row →
  Forall within_limit row → update_within u →
  update_row header row u = Ok row' →
  Forall within_limit row' ∧ length row' = length row.
Proof.
  intros Hcols Hlen Hrow Hu H.
  destruct (update_row_spec header row u Hcols Hlen)
    as (old & r & Hold & Hr & Hlen' & _).
  rewrite Hr in H. injection H as <-. split; [|done].
  apply Forall_cons in Hcols as [_ Hcols].
  rewrite (update_row_assign header row u old Hold Hcols Hlen) in Hr.
  eapply assign_all_within; [exact Hrow| |exact Hr].
  unfold update_within in Hu.
  repeat (apply Forall_cons in Hu as [? Hu]).
  assert (within_limit old) as Hold'.
  { rewrite Forall_forall in Hrow. by eapply Hrow, cell_in. }
  unfold assigned_cells.
  repeat (apply Forall_cons; split); cbn; auto using yes_no_within.
  - unfold within_limit, field_limit; cbn; lia.
  - unfold visible_cell.
    destruct (negb (u_passed u) && _); [unfold within_limit, field_limit; cbn; lia|].
    destruct (nonempty old); [done|unfold within_limit, field_limit; cbn; lia].
  - destruct (u_passed u); unfold within_limit, field_limit; cbn; lia.
Qed.

Lemma update_data_total header u :
  Forall (λ c, In c header) all_columns → update_within u →
  ∀ data,
    Forall (λ r, length header ≤ length r) data →
    Forall (Forall within_limit) data →
    ∃ data', update_data header data u = Ok data' ∧
             Forall (λ r, length header ≤ length r) data' ∧
             Forall (Forall within_limit) data'.
Proof.
  intros Hcols Hu. induction data as [|row data IH]; intros Hlens Hlim.
  { exists []. by repeat split. }
  apply Forall_cons in Hlens as [Hlen Hlens]. apply Forall_cons in Hlim as [Hrow Hlim].
  assert (In COL_TOOL header) as Hcol.
  { rewrite Forall_forall in Hcols. apply Hcols, list_elem_of_In. by left. }
  destruct (cell_ok header row COL_TOOL Hcol Hlen) as [name Hname].
  cbn [update_data]. unfold cell in Hname.
  destruct (idx header COL_TOOL) as [i|e]; [|done]. cbn in Hname |- *.
  rewrite Hname. cbn. destruct (str_eqb name (u_tool u)); cbn.
  - destruct (update_row_spec header row u Hcols Hlen) as (old & row' & _ & Hrow' & _).
    destruct (update_row_within header row u row' Hcols Hlen Hrow Hu Hrow') as [Hw Hl].
    rewrite Hrow'. cbn. eexists. split; [reflexivity|].
    split; apply Forall_cons; split; auto. lia.
  - destruct (IH Hlens Hlim) as (data' & -> & Hlens' & Hlim'). cbn.
    eexists. split; [reflexivity|]. split; apply Forall_cons; by split.
Qed.


Section PassProperties.
Context {lib : PyLib}.

(** ** One operation *)


Lemma _rpc_result self method params timeout_sec env :
  proc self = true → stdin_write env = None →
  (_rpc self method params timeout_sec env).2
  = rpc_wait (request_id self) (timeout_error method params timeout_sec)
             (observations env).
Proof. intros Hp Hw. unfold _rpc. rewrite Hp, Hw. reflexivity. Qed.





(** ** The loop *)






End PassProperties.

Section Claims.
Context {lib : PyLib}.

(** ** Masking *)

Lemma mask_sensitive v key :
  str_in (lower key) sensitive = true → _mask v key = VStr (lit "***").
Proof. intros H. destruct v; cbn [_mask]; rewrite H; reflexivity. Qed.

Lemma mask_long_text s key :
  str_in (lower key) sensitive = false →
  str_eqb (lower key) (lit "stats") = false →
  600 < length s →
  _mask (VStr s) key = VStr (take 600 s ++ TRUNCATED).
Proof.
  intros H1 H2 Hs. cbn [_mask]. rewrite H1, H2.
  destruct (Nat.ltb_spec 600 (length s)); [reflexivity|lia].
Qed.

Lemma mask_payload_items payload :
  mask_payload payload = VDict (map (λ kv, (kv.1, _mask kv.2 kv.1)) payload).
Proof. reflexivity. Qed.

(** C5.  The arguments [{"token": "abc123", "note": "x" * 1000}] are
    logged with the token replaced by three stars and the note cut to its
    first 600 characters followed by the truncation marker; so is every
    note of more than 600 characters, whatever the token; and a key is
    sensitive in any letter case: a value under a key whose lower case is
    one of the sensitive names, such as [Token], is replaced too. *)
Theorem mask_payload_token_note :
  mask_payload [(lit "token", VStr (lit "abc123"));
                (lit "note", VStr (repeat 120%N 1000))]
  = VDict [(lit "token", VStr (lit "***"));
           (lit "note", VStr (repeat 120%N 600 ++ TRUNCATED))]
  ∧ (∀ v s, 600 < length s →
       mask_payload [(lit "token", v); (lit "note", VStr s)]
       = VDict [(lit "token", VStr (lit "***"));
                (lit "note", VStr (take 600 s ++ TRUNCATED))])
  ∧ (∀ key v, str_in (lower key) sensitive = true →
       mask_payload [(key, v)] = VDict [(key, VStr (lit "***"))])
  ∧ mask_payload [(lit "Token", VStr (lit "abc123"))]
    = VDict [(lit "Token", VStr (lit "***"))].
Proof.
  split; [vm_compute; reflexivity|]. split; [|split; [|reflexivity]].
  - intros v s Hs. rewrite mask_payload_items. cbn [map fst snd].
    rewrite mask_sensitive by reflexivity.
    rewrite mask_long_text by (reflexivity || done). reflexivity.
  - intros key v Hkey. rewrite mask_payload_items. cbn [map fst snd].
    by rewrite mask_sensitive.
Qed.

(** ** The context *)



Lemma ctx_get_set ctx key v : ctx_get (ctx_set ctx key v) key = v.
Proof. unfold ctx_get, ctx_set. by rewrite lookup_insert_eq. Qed.

Lemma ctx_get_set_ne ctx key key' v :
  key ≠ key' → ctx_get (ctx_set ctx key v) key' = ctx_get ctx key'.
Proof. intros H. unfold ctx_get, ctx_set. by rewrite lookup_insert_ne. Qed.



(** *** No entry is removed *)

Lemma ctx_set_dom (ctx : gmap string value) key v : dom ctx ⊆ dom (ctx_set ctx key v).
Proof. apply dom_insert_subseteq. Qed.

Lemma scan_sessions_dom text (ctx : gmap string value) :
  dom ctx ⊆ dom (scan_sessions_context text ctx).
Proof.
  unfold scan_sessions_context.
  destruct (loads text) as [[| | | | | [|first rest] |]|]; try reflexivity.
  destruct (py_get first (lit "path") VNone); [|reflexivity].
  destruct (py_get first (lit "source") VNone); cbn;
    repeat (etrans; [|apply ctx_set_dom]); reflexivity.
Qed.

Lemma browse_posts_dom text (ctx : gmap string value) :
  dom ctx ⊆ dom (browse_posts_context text ctx).
Proof.
  unfold browse_posts_context.
  destruct (loads text) as [parsed|]; [|reflexivity]. simpl_bind.
  destruct (py_get parsed (lit "posts") (VList [])) as [posts|]; [|reflexivity]. simpl_bind.
  destruct (truthy posts); [|reflexivity].
  destruct (first_item posts) as [first|]; [|reflexivity]. simpl_bind.
  destruct (py_get first (lit "id") VNone); [|reflexivity]. simpl_bind. apply ctx_set_dom.
Qed.

Lemma collect_daily_stats_dom text (ctx : gmap string value) :
  dom ctx ⊆ dom (collect_daily_stats_context text ctx).
Proof.
  unfold collect_daily_stats_context.
  destruct (loads text) as [parsed|]; [|reflexivity].
  destruct (py_get parsed (lit "_rawStats") VNone); [|reflexivity].
  destruct (py_get parsed (lit "date") VNone); [|apply ctx_set_dom].
  destruct (py_get parsed (lit "timezone") VNone); cbn;
    repeat (etrans; [|apply ctx_set_dom]); reflexivity.
Qed.

Lemma update_context_dom tool text (ctx : gmap string value) :
  dom ctx ⊆ dom (update_context tool text ctx).
Proof.
  unfold update_context.
  repeat match goal with
         | |- context [if is_tool tool ?name then _ else _] =>
             destruct (is_tool tool name)
         end;
    repeat match goal with
           | |- _ ⊆ dom (confirm_post_context _ _) =>
               unfold confirm_post_context;
               destruct (nonempty _ && _); [etrans; [|apply ctx_set_dom]|]
           | |- _ ⊆ dom (post_to_codeblog_context _ _) =>
               unfold post_to_codeblog_context;
               destruct (nonempty _); [etrans; [|apply ctx_set_dom]|]
           | |- _ ⊆ dom (preview_post_context _ _) =>
               unfold preview_post_context;
               destruct (nonempty _); [etrans; [|apply ctx_set_dom]|]
           | |- _ ⊆ dom (collect_daily_stats_context _ _) =>
               etrans; [|apply collect_daily_stats_dom]
           | |- _ ⊆ dom (browse_posts_context _ _) =>
               etrans; [|apply browse_posts_dom]
           | |- _ ⊆ dom (scan_sessions_context _ _) =>
               etrans; [|apply scan_sessions_dom]
           end; reflexivity.
Qed.

(** The context after an operation: unchanged, or updated from the text
    of the result. *)
Lemma attempt_context self tool args env ctx :
  (attempt self tool args env ctx).1.2 = ctx ∨
  ∃ text, (attempt self tool args env ctx).1.2 = update_context tool text ctx.
Proof.
  unfold attempt. destruct (try_body self tool args env) as [self' [[text passed]|ex]]; cbn; eauto.
Qed.

Lemma run_operation_context run st d e :
  dynamic_context (run_operation run st d e).1 = dynamic_context st ∨
  ∃ text, dynamic_context (run_operation run st d e).1
          = update_context d.1.1 text (dynamic_context st).
Proof.
  destruct d as [[tool base_args] scenario]. unfold run_operation. cbn [fst snd].
  pose proof (attempt_context (client st) tool
                (resolve_args tool base_args (dynamic_context st)) (child e)
                (dynamic_context st)) as H.
  destruct (attempt _ _ _ _ _) as [[self' ctx'] o]. cbn in H.
  destruct (update_matrix _ _); exact H.
Qed.

Lemma run_pass_dom run ops : ∀ st,
  dom (dynamic_context st) ⊆ dom (dynamic_context (run_pass run st ops).1).
Proof.
  induction ops as [|[d e] ops IH]; intros st; cbn; [reflexivity|].
  pose proof (run_operation_context run st d e) as H.
  destruct (run_operation run st d e) as [st' [ex|]]; cbn in H |- *.
  - destruct H as [-> | [text ->]]; [reflexivity|apply update_context_dom].
  - etrans; [|apply IH]. destruct H as [-> | [text ->]]; [reflexivity|apply update_context_dom].
Qed.

(** *** The first post identifier is kept *)

Lemma ctx_get_scan_sessions text ctx key :
  key ≠ "session_path"%string → key ≠ "session_source"%string →
  ctx_get (scan_sessions_context text ctx) key = ctx_get ctx key.
Proof.
  intros H1 H2. unfold scan_sessions_context.
  destruct (loads text) as [[| | | | | [|first rest] |]|]; try done.
  destruct (py_get first (lit "path") VNone); [|done].
  destruct (py_get first (lit "source") VNone); cbn;
    rewrite ?ctx_get_set_ne by done; done.
Qed.

Lemma ctx_get_browse_posts text ctx key :
  key ≠ "post_id"%string →
  ctx_get (browse_posts_context text ctx) key = ctx_get ctx key.
Proof.
  intros H1. unfold browse_posts_context.
  destruct (loads text) as [parsed|]; [|done]. simpl_bind.
  destruct (py_get parsed (lit "posts") (VList [])) as [posts|]; [|done]. simpl_bind.
  destruct (truthy posts); [|done].
  destruct (first_item posts) as [first|]; [|done]. simpl_bind.
  destruct (py_get first (lit "id") VNone); [|done]. simpl_bind.
  by rewrite ctx_get_set_ne.
Qed.

Lemma ctx_get_collect_daily_stats text ctx key :
  key ≠ "raw_stats"%string → key ≠ "stats_date"%string → key ≠ "stats_tz"%string →
  ctx_get (collect_daily_stats_context text ctx) key = ctx_get ctx key.
Proof.
  intros H1 H2 H3. unfold collect_daily_stats_context.
  destruct (loads text) as [parsed|]; [|done].
  destruct (py_get parsed (lit "_rawStats") VNone); [|done].
  destruct (py_get parsed (lit "date") VNone); [|by rewrite ctx_get_set_ne].
  destruct (py_get parsed (lit "timezone") VNone); cbn;
    rewrite ?ctx_get_set_ne by done; done.
Qed.

Lemma ctx_get_preview_post text ctx key :
  key ≠ "preview_id"%string →
  ctx_get (preview_post_context text ctx) key = ctx_get ctx key.
Proof.
  intros H1. unfold preview_post_context.
  destruct (nonempty _); [by rewrite ctx_get_set_ne|done].
Qed.

Lemma confirm_post_keeps text ctx :
  truthy (ctx_get ctx "own_post_id") = true → confirm_post_context text ctx = ctx.
Proof.
  intros H. unfold confirm_post_context. rewrite H.
  by rewrite andb_false_r.
Qed.

(** An operation other than [post_to_codeblog] leaves a post identifier
    that is set as it is. *)
Lemma update_context_keeps_own_post_id tool text ctx :
  is_tool tool "post_to_codeblog" = false →
  truthy (ctx_get ctx "own_post_id") = true →
  ctx_get (update_context tool text ctx) "own_post_id" = ctx_get ctx "own_post_id".
Proof.
  intros Htool Hown. unfold update_context. rewrite Htool.
  assert (∀ c, ctx_get c "own_post_id" = ctx_get ctx "own_post_id" →
               ctx_get (if is_tool tool "confirm_post"
                        then confirm_post_context text c else c) "own_post_id"
               = ctx_get ctx "own_post_id") as Hlast.
  { intros c Hc. destruct (is_tool tool "confirm_post"); [|done].
    rewrite confirm_post_keeps; [done|]. by rewrite Hc. }
  apply Hlast.
  destruct (is_tool tool "collect_daily_stats");
    [rewrite ctx_get_collect_daily_stats by done|];
  (destruct (is_tool tool "preview_post");
    [rewrite ctx_get_preview_post by done|]);
  (destruct (is_tool tool "browse_posts");
    [rewrite ctx_get_browse_posts by done|]);
  (destruct (is_tool tool "scan_sessions");
    [rewrite ctx_get_scan_sessions by done|]); done.
Qed.

Lemma run_pass_keeps_own_post_id run ops : ∀ st,
  truthy (ctx_get (dynamic_context st) "own_post_id") = true →
  Forall (λ de, is_tool de.1.1.1 "post_to_codeblog" = false) ops →
  ctx_get (dynamic_context (run_pass run st ops).1) "own_post_id"
  = ctx_get (dynamic_context st) "own_post_id".
Proof.
  induction ops as [|[d e] ops IH]; intros st Hown Hops; cbn; [done|].
  apply Forall_cons in Hops as [Hd Hops]. cbn in Hd.
  pose proof (run_operation_context run st d e) as H.
  assert (ctx_get (dynamic_context (run_operation run st d e).1) "own_post_id"
          = ctx_get (dynamic_context st) "own_post_id") as Hstep.
  { destruct H as [-> | [text ->]]; [done|].
    by apply update_context_keeps_own_post_id. }
  destruct (run_operation run st d e) as [st' [ex|]]; cbn in Hstep |- *; [done|].
  rewrite IH; [done| |done]. by rewrite Hstep.
Qed.

(** C10.  The context only grows: an extraction never removes an entry,
    and after a pass, complete or not, every key that was in the context
    is still there.  The post identifier that the extraction of
    [post_to_codeblog] sets is kept: the extraction of [confirm_post]
    leaves a context with a post identifier as it is, and so does every
    sequence of operations without [post_to_codeblog], as the catalog is
    after its fourth entry. *)
Theorem context_grows_and_first_post_id_wins :
  (∀ tool text (ctx : gmap string value),
     dom ctx ⊆ dom (update_context tool text ctx))
  ∧ (∀ run st ops,
       dom (dynamic_context st) ⊆ dom (dynamic_context (run_pass run st ops).1))
  ∧ (∀ text ctx,
       nonempty (parse_post_id text) = true →
       ctx_get (update_context (lit "post_to_codeblog") text ctx) "own_post_id"
       = VStr (parse_post_id text))
  ∧ (∀ text ctx,
       truthy (ctx_get ctx "own_post_id") = true →
       update_context (lit "confirm_post") text ctx = ctx)
  ∧ (∀ text1 text2 ctx,
       nonempty (parse_post_id text1) = true →
       ctx_get (update_context (lit "confirm_post") text2
                  (update_context (lit "post_to_codeblog") text1 ctx))
               "own_post_id"
       = VStr (parse_post_id text1))
  ∧ (∀ run st ops,
       truthy (ctx_get (dynamic_context st) "own_post_id") = true →
       Forall (λ de, is_tool de.1.1.1 "post_to_codeblog" = false) ops →
       ctx_get (dynamic_context (run_pass run st ops).1) "own_post_id"
       = ctx_get (dynamic_context st) "own_post_id")
  ∧ Forall (λ d, is_tool d.1.1 "post_to_codeblog" = false) (drop 4 TOOLS).
Proof.
  assert (∀ text ctx,
            nonempty (parse_post_id text) = true →
            ctx_get (update_context (lit "post_to_codeblog") text ctx) "own_post_id"
            = VStr (parse_post_id text)) as Hpost.
  { intros text ctx Hid.
    change (update_context (lit "post_to_codeblog") text ctx)
      with (post_to_codeblog_context text ctx).
    unfold post_to_codeblog_context. rewrite Hid. apply ctx_get_set. }
  assert (∀ text ctx,
            truthy (ctx_get ctx "own_post_id") = true →
            update_context (lit "confirm_post") text ctx = ctx) as Hconfirm.
  { intros text ctx Hown.
    change (update_context (lit "confirm_post") text ctx)
      with (confirm_post_context text ctx).
    by apply confirm_post_keeps. }
  split; [apply update_context_dom|]. split; [intros; apply run_pass_dom|].
  split; [exact Hpost|]. split; [exact Hconfirm|]. split.
  { intros text1 text2 ctx Hid. rewrite Hconfirm; rewrite Hpost by done; [done|].
    cbn. by destruct (parse_post_id text1). }
  split; [intros; by apply run_pass_keeps_own_post_id|].
  repeat apply Forall_cons_2; try apply Forall_nil_2; reflexivity.
Qed.

(** ** The session *)

Lemma rpc_outcome_Ok req_id on_timeout obs r :
  rpc_outcome req_id on_timeout obs (Ok r) →
  ∃ line d, In (Line line) obs ∧ reply_to req_id line d ∧
            dict_get d (lit "error") = None ∧
            r = default (VDict []) (dict_get d (lit "result")).
Proof.
  inversion 1 as [line d r' Hin Hreply Hout | | |]; subst.
  inversion Hout; subst. eauto 10.
Qed.

(** C1, as amended.  A call of a started session whose request was
    written comes to one of these: the reply with the id of the request
    is found, and the call returns its result or fails with the error
    that this reply reports; the call times out; the process has exited;
    or a line is met that is not a JSON object.  What the call returns is
    always the result of a line whose id equals the id of the request. *)
Theorem rpc_answers_with_the_reply_of_its_id self method params timeout_sec env :
  proc self = true → stdin_write env = None →
  let r := (_rpc self method params timeout_sec env).2 in
  rpc_outcome (request_id self) (timeout_error method params timeout_sec)
              (observations env) r
  ∧ (∀ v, r = Ok v →
       ∃ line d, In (Line line) (observations env) ∧
                 reply_to (request_id self) line d ∧
                 dict_get d (lit "error") = None ∧
                 v = default (VDict []) (dict_get d (lit "result"))).
Proof.
  intros Hp Hw r. unfold r. rewrite _rpc_result by done.
  split; [apply rpc_wait_outcome|].
  intros v Hv. apply rpc_outcome_Ok with (on_timeout := timeout_error method params timeout_sec).
  rewrite <- Hv. apply rpc_wait_outcome.
Qed.


End Claims.

(** ** The tracking file *)


(** C8.  Two updates in a row for the operation of the only row keyed by
    its name, on a table whose header has the columns that are looked up
    and whose rows are not shorter than the header: both succeed and each
    writes the whole table; what is read back from either file is the
    table as it was with the row of the operation replaced, so every
    other row is the same as before, cell by cell; the text of the file
    before and after the line of that row is the same after both updates;
    the table still has one row for the operation, at the same place,
    with the values of the second update in the assigned columns; and in
    that row every cell outside the assigned columns is as it was. *)
Theorem update_matrix_twice content header data u1 u2 k row :
  csv_reader content = Ok (header :: data) →
  Forall (λ c, In c header) all_columns →
  Forall (λ r, length header ≤ length r) data →
  u_tool u2 = u_tool u1 →
  Forall within_limit
         [u_run_id u1; u_issue u1; u_root_cause u1; u_fix u1; u_retest u1;
          u_now u1] →
  Forall within_limit
         [u_run_id u2; u_issue u2; u_root_cause u2; u_fix u2; u_retest u2;
          u_now u2] →
  data !! k = Some row →
  cell header row COL_TOOL = Ok (u_tool u1) →
  (∀ j r, j ≠ k → data !! j = Some r →
          cell header r COL_TOOL ≠ Ok (u_tool u1)) →
  ∃ old row1 row2 content1 content2,
    cell header row COL_ERROR_VISIBLE = Ok old ∧
    update_matrix content u1 = Ok content1 ∧
    update_matrix content1 u2 = Ok content2 ∧
    csv_reader content1 = Ok (header :: <[k := row1]> data) ∧
    csv_reader content2 = Ok (header :: <[k := row2]> data) ∧
    content1 = writerows (header :: take k data) ++ writerow row1
               ++ writerows (drop (S k) data) ∧
    content2 = writerows (header :: take k data) ++ writerow row2
               ++ writerows (drop (S k) data) ∧
    (∀ j r, <[k := row2]> data !! j = Some r →
            cell header r COL_TOOL = Ok (u_tool u1) → j = k) ∧
    (∀ name v, In (name, v) (assigned_cells u2 (visible_cell u1 old)) →
               cell header row2 name = Ok v) ∧
    length row2 = length row ∧
    (∀ j, (∀ name, In name updated_columns → idx header name ≠ Ok j) →
          row2 !! j = row !! j).
Proof.
  intros Hread Hcols Hlens Htool Hu1 Hu2 Hk Hkey Hother.
  destruct (update_twice header data u1 u2 k row Hcols Hlens Htool Hk Hkey Hother)
    as (old & row1 & row2 & Hold & H1 & H2 & Hrest).
  set (data1 := <[k := row1]> data) in *.
  set (data2 := <[k := row2]> data) in *.
  assert (k < length data) as Hlt by (by eapply lookup_lt_Some).
  exists old, row1, row2, (writerows (header :: data1)),
    (writerows (header :: data2)).
  split; [done|].
  assert (update_matrix content u1 = Ok (writerows (header :: data1))) as Hm1.
  { unfold update_matrix. rewrite Hread. simpl_bind. rewrite H1. reflexivity. }
  split; [done|].
  pose proof (csv_reader_within _ _ Hread) as Hlim.
  apply Forall_cons in Hlim as [Hh Hlim].
  assert (Forall (Forall within_limit) data1) as Hlim1.
  { destruct (update_data_total header u1 Hcols Hu1 data Hlens Hlim)
      as (data' & Hd' & _ & Hlim').
    cbn in H1. rewrite Hd' in H1. cbn in H1. by injection H1 as <-. }
  assert (Forall (λ r, length header ≤ length r) data1) as Hlens1.
  { destruct (update_data_total header u1 Hcols Hu1 data Hlens Hlim)
      as (data' & Hd' & Hl' & _).
    cbn in H1. rewrite Hd' in H1. cbn in H1. by injection H1 as <-. }
  assert (Forall (Forall within_limit) data2) as Hlim2.
  { destruct (update_data_total header u2 Hcols Hu2 data1 Hlens1 Hlim1)
      as (data' & Hd' & _ & Hlim').
    cbn in H2. rewrite Hd' in H2. cbn in H2. by injection H2 as <-. }
  assert (csv_reader (writerows (header :: data1)) = Ok (header :: data1)) as Hread1
    by (apply reader_writerows; by apply Forall_cons).
  assert (csv_reader (writerows (header :: data2)) = Ok (header :: data2)) as Hread2
    by (apply reader_writerows; by apply Forall_cons).
  split.
  { unfold update_matrix. rewrite Hread1. simpl_bind. rewrite H2. reflexivity. }
  split; [done|]. split; [done|].
  assert (∀ r, writerows (header :: <[k := r]> data)
               = writerows (header :: take k data) ++ writerow r
                 ++ writerows (drop (S k) data)) as Htext.
  { intros r. change (header :: <[k := r]> data)
      with (<[S k := r]> (header :: data)).
    rewrite writerows_insert by (cbn [length]; lia). reflexivity. }
  split; [apply Htext|]. split; [apply Htext|]. exact Hrest.
Qed.

(** ** The run log *)


Section RunLog.
Context {lib : PyLib}.



End RunLog.

(** * Examples *)



(** A call that gets its reply. *)
Lemma rpc_answers_witness :
  proc started = true ∧
  stdin_write (example_call [line_of reply_1_text]) = None ∧
  (_rpc (lib := example_lib) started (lit "tools/call") [] 90
        (example_call [line_of reply_1_text])).2
  = Ok (text_result (lit "ok")) ∧
  ∀ v, (_rpc (lib := example_lib) started (lit "tools/call") [] 90
             (example_call [line_of reply_1_text])).2 = Ok v →
       ∃ line d, In (Line line) [line_of reply_1_text] ∧
                 reply_to (lib := example_lib) 1 line d ∧
                 dict_get d (lit "error") = None ∧
                 v = default (VDict []) (dict_get d (lit "result")).
Proof.
  split; [reflexivity|]. split; [reflexivity|]. split; [vm_compute; reflexivity|].
  exact (proj2 (rpc_answers_with_the_reply_of_its_id (lib := example_lib)
                  started (lit "tools/call") [] 90
                  (example_call [line_of reply_1_text]) eq_refl eq_refl)).
Defined.

(** A reply that reports an error: the call neither returns a result,
    nor times out, nor finds the process exited. *)
Lemma rpc_remote_error_counterexample :
  let env := example_call [line_of error_1_text] in
  let r := (_rpc (lib := example_lib) started (lit "tools/call") [] 90 env).2 in
  r = Raise (Exn RuntimeError (lit "boom")) ∧
  (∀ v, r ≠ Ok v) ∧
  r ≠ Raise (timeout_error (lib := example_lib) (lit "tools/call") [] 90) ∧
  (∀ stderr_read returncode,
     ¬ In (Exited stderr_read returncode) (observations env)).
Proof.
  cbv zeta.
  assert ((_rpc (lib := example_lib) started (lit "tools/call") [] 90
                (example_call [line_of error_1_text])).2
          = Raise (Exn RuntimeError (lit "boom"))) as E by (vm_compute; reflexivity).
  rewrite E. split; [reflexivity|]. split; [intros v; discriminate|].
  split; [vm_compute; discriminate|].
  intros s rc [H|[]]. discriminate.
Qed.








Lemma mask_payload_witness :
  str_in (lower (lit "API_Key")) sensitive = true ∧
  mask_payload [(lit "API_Key", VStr (lit "k-1"))]
  = VDict [(lit "API_Key", VStr (lit "***"))].
Proof.
  split; [reflexivity|].
  exact (proj1 (proj2 (proj2 mask_payload_token_note))
           (lit "API_Key") (VStr (lit "k-1")) eq_refl).
Defined.




Lemma update_matrix_twice_witness :
  csv_reader (matrix example_state) = Ok example_matrix_rows ∧
  example_matrix_rows !! 1 = Some (lit "scan_sessions" :: repeat [] 13) ∧
  cell all_columns (lit "scan_sessions" :: repeat [] 13) COL_TOOL
  = Ok (lit "scan_sessions") ∧
  cell all_columns (lit "read_session" :: repeat [] 13) COL_TOOL
  ≠ Ok (lit "scan_sessions") ∧
  ∃ row1 row2 content1 content2,
    update_matrix (matrix example_state) (example_update "scan_sessions" "RUN-1")
    = Ok content1 ∧
    update_matrix content1 (example_update "scan_sessions" "RUN-2")
    = Ok content2 ∧
    csv_reader content1
    = Ok [all_columns; row1; lit "read_session" :: repeat [] 13] ∧
    csv_reader content2
    = Ok [all_columns; row2; lit "read_session" :: repeat [] 13] ∧
    content2 = writerows [all_columns] ++ writerow row2
               ++ writerows [lit "read_session" :: repeat [] 13] ∧
    cell all_columns row2 COL_RUN_ID = Ok (lit "RUN-2") ∧
    length row2 = 14.
Proof.
  split; [vm_compute; reflexivity|]. split; [reflexivity|].
  split; [vm_compute; reflexivity|]. split; [vm_compute; discriminate|].
  destruct (update_matrix_twice (matrix example_state) all_columns
              [lit "scan_sessions" :: repeat [] 13;
               lit "read_session" :: repeat [] 13]
              (example_update "scan_sessions" "RUN-1")
              (example_update "scan_sessions" "RUN-2")
              0 (lit "scan_sessions" :: repeat [] 13))
    as (old & row1 & row2 & content1 & content2 & _ & H1 & H2 & Hr1 & Hr2
        & _ & Hc2 & _ & Hcells & Hlen & _).
  - vm_compute; reflexivity.
  - apply Forall_forall. intros c Hc. apply list_elem_of_In. exact Hc.
  - repeat apply Forall_cons_2; try apply Forall_nil_2; cbn; lia.
  - reflexivity.
  - repeat apply Forall_cons_2; try apply Forall_nil_2;
      unfold within_limit, field_limit; cbn; lia.
  - repeat apply Forall_cons_2; try apply Forall_nil_2;
      unfold within_limit, field_limit; cbn; lia.
  - reflexivity.
  - vm_compute; reflexivity.
  - intros [|[|j]] r Hj Hr; [done| |done].
    injection Hr as <-. vm_compute. discriminate.
  - exists row1, row2, content1, content2.
    split; [exact H1|]. split; [exact H2|]. split; [exact Hr1|].
    split; [exact Hr2|]. split; [exact Hc2|]. split.
    + apply Hcells. cbn. tauto.
    + exact Hlen.
Defined.



Lemma first_post_id_witness :
  nonempty (parse_post_id (lit "published at /post/abc123")) = true ∧
  ctx_get (update_context (lib := example_lib) (lit "confirm_post")
             (lit "confirmed: /post/zzz9")
             (update_context (lib := example_lib) (lit "post_to_codeblog")
                (lit "published at /post/abc123") ∅))
          "own_post_id"
  = VStr (lit "abc123").
Proof.
  split; [reflexivity|].
  exact (proj1 (proj2 (proj2 (proj2 (proj2
           (context_grows_and_first_post_id_wins (lib := example_lib))))))
           (lit "published at /post/abc123") (lit "confirmed: /post/zzz9") ∅
           eq_refl).
Defined.

(** * Further properties *)

(** ** White space at the ends of a text *)

Lemma lstrip_starts s : starts_with_space (lstrip s) = false.
Proof.
  induction s as [|c s IH]; [done|]. cbn [lstrip].
  destruct (py_isspace c) eqn:E; [exact IH|]. exact E.
Qed.

Lemma lstrip_fixed s : starts_with_space s = false → lstrip s = s.
Proof. destruct s as [|c s]; [done|]. cbn. by intros ->. Qed.

Lemma lstrip_split s :
  ∃ ws, s = ws ++ lstrip s ∧ Forall (λ c, py_isspace c = true) ws.
Proof.
  induction s as [|c s (ws & IH & Hws)]; [by exists []|]. cbn [lstrip].
  destruct (py_isspace c) eqn:E.
  - exists (c :: ws). split; [cbn; by f_equal|by constructor].
  - by exists [].
Qed.

Lemma strip_ends s :
  starts_with_space (strip s) = false ∧ ends_with_space (strip s) = false.
Proof.
  unfold strip, ends_with_space. rewrite rev_involutive. split; [|apply lstrip_starts].
  destruct (lstrip_split (rev (lstrip s))) as (ws & Hsplit & _).
  destruct (rev (lstrip (rev (lstrip s)))) as [|c r] eqn:E; [done|].
  pose proof (lstrip_starts s) as Hs.
  apply (f_equal (@rev N)) in Hsplit.
  rewrite rev_involutive, rev_app_distr, E in Hsplit.
  rewrite Hsplit in Hs. exact Hs.
Qed.

Lemma strip_fixed s :
  starts_with_space s = false → ends_with_space s = false → strip s = s.
Proof.
  intros H1 H2. unfold strip. rewrite (lstrip_fixed s H1).
  rewrite (lstrip_fixed (rev s) H2). apply rev_involutive.
Qed.

Lemma strip_idempotent s : strip (strip s) = strip s.
Proof. destruct (strip_ends s). by apply strip_fixed. Qed.

Lemma In_lstrip c s : In c (lstrip s) → In c s.
Proof.
  destruct (lstrip_split s) as (ws & Hsplit & _). intros H.
  rewrite Hsplit. apply in_or_app. by right.
Qed.

Lemma In_strip c s : In c (strip s) → In c s.
Proof.
  unfold strip. intros H. apply in_rev in H. apply In_lstrip in H.
  apply in_rev in H. by apply In_lstrip.
Qed.

Lemma strip_no_space s :
  Forall (λ c, py_isspace c = false) s → strip s = s.
Proof.
  intros H. apply strip_fixed.
  - destruct s as [|c s]; [done|]. by apply Forall_cons in H as [H _].
  - unfold ends_with_space. apply Forall_rev in H.
    destruct (rev s) as [|c r]; [done|]. by apply Forall_cons in H as [H _].
Qed.

(** ** [extract_text] *)

Section ExtractText.
Context {lib : PyLib}.

Lemma text_chunks_app a b :
  text_chunks (a ++ b)
  = (ca ← text_chunks a; cb ← text_chunks b; Ok (ca ++ cb)).
Proof.
  induction a as [|entry a IH]; cbn [app text_chunks].
  { simpl_bind. destruct (text_chunks b); reflexivity. }
  destruct (py_get entry (lit "type") VNone) as [type|e]; [|reflexivity]. simpl_bind.
  destruct (py_get entry (lit "text") VNone) as [text|e]; [|reflexivity]. simpl_bind.
  destruct (eq_str type (lit "text") && truthy text).
  - rewrite IH. destruct (text_chunks a) as [ca|e]; [|reflexivity]. simpl_bind.
    destruct (text_chunks b) as [cb|e]; reflexivity.
  - exact IH.
Qed.

Lemma text_chunks_skip entry rest :
  eq_str (default VNone (dict_get entry (lit "type"))) (lit "text")
  && truthy (default VNone (dict_get entry (lit "text"))) = false →
  text_chunks (VDict entry :: rest) = text_chunks rest.
Proof.
  intros H. cbn [text_chunks]. rewrite !py_get_dict. simpl_bind.
  destruct (dict_get entry (lit "type")), (dict_get entry (lit "text"));
    cbn in H |- *; rewrite ?H; reflexivity.
Qed.

Lemma extract_text_content res l :
  dict_get res (lit "content") = Some (VList l) →
  extract_text (VDict res)
  = (chunks ← text_chunks l; Ok (strip (join [LF] chunks))).
Proof. intros H. unfold extract_text. rewrite py_get_dict, H. reflexivity. Qed.

(** X1.  An entry of the content of a result that is an object but not a
    text entry with a text that counts as true contributes nothing: the
    text of the result, or the exception that [extract_text] raises, is
    the same as without the entry. *)
Theorem extract_text_passes_over_other_entries res res' before entry after :
  dict_get res (lit "content") = Some (VList (before ++ VDict entry :: after)) →
  dict_get res' (lit "content") = Some (VList (before ++ after)) →
  eq_str (default VNone (dict_get entry (lit "type"))) (lit "text")
  && truthy (default VNone (dict_get entry (lit "text"))) = false →
  extract_text (VDict res) = extract_text (VDict res').
Proof.
  intros Hres Hres' Hentry.
  rewrite (extract_text_content res _ Hres), (extract_text_content res' _ Hres').
  rewrite !text_chunks_app, text_chunks_skip by done. reflexivity.
Qed.

(** X2.  The text that [extract_text] returns has no white space at its
    ends, so that stripping it again changes nothing; a result without
    content gives the empty text, and a result that is not an object
    makes [extract_text] raise. *)
Theorem extract_text_is_stripped :
  (∀ res text, extract_text res = Ok text →
     starts_with_space text = false ∧ ends_with_space text = false ∧
     strip text = text)
  ∧ (∀ res, dict_get res (lit "content") = None →
       extract_text (VDict res) = Ok [])
  ∧ (∀ res, (∀ d, res ≠ VDict d) →
       extract_text res = Raise (no_attribute res "get")).
Proof.
  split; [|split].
  - intros res text. unfold extract_text.
    destruct (py_get res (lit "content") (VList [])) as [content|e]; [|done].
    simpl_bind. destruct (iterate content) as [entries|e]; [|done]. simpl_bind.
    destruct (text_chunks entries) as [chunks|e]; [|done]. simpl_bind.
    intros [= <-]. destruct (strip_ends (join [LF] chunks)).
    repeat split; try done. apply strip_idempotent.
  - intros res H. unfold extract_text. rewrite py_get_dict, H. reflexivity.
  - intros res H. destruct res; try reflexivity. by destruct (H d).
Qed.

End ExtractText.

(** ** The two parsers *)

Lemma search_skip at_head pre s :
  (∀ c t, In c pre → at_head (c :: t) = None) →
  search at_head (pre ++ s) = search at_head s.
Proof.
  induction pre as [|c pre IH]; intros H; [done|].
  cbn [app search]. rewrite (H c) by (by left).
  apply IH. intros c' t Hc'. apply H. by right.
Qed.

Lemma search_head at_head s g : at_head s = Some g → search at_head s = Some g.
Proof. intros H. destruct s; cbn; by rewrite H. Qed.

Lemma search_Some at_head s g :
  search at_head s = Some g → ∃ pre t, s = pre ++ t ∧ at_head t = Some g.
Proof.
  induction s as [|c s IH]; cbn.
  - destruct (at_head []) eqn:E; [|done]. intros [= <-]. by exists [], [].
  - destruct (at_head (c :: s)) eqn:E.
    + intros [= <-]. by exists [], (c :: s).
    + intros H. destruct (IH H) as (pre & t & -> & Ht).
      by exists (c :: pre), t.
Qed.

Lemma search_None at_head s :
  (∀ t, at_head t = None) → search at_head s = None.
Proof. intros H. induction s as [|c s IH]; cbn; by rewrite H. Qed.

Lemma starts_with_app p s : starts_with p (p ++ s) = true.
Proof.
  induction p as [|c p IH]; [done|]. cbn. unfold chr_eqb. by rewrite N.eqb_refl.
Qed.

Lemma take_while_app f a c r :
  Forall (λ x, f x = true) a → f c = false →
  take_while f (a ++ c :: r) = a.
Proof.
  intros Ha Hc. induction Ha as [|x a Hx Ha IH]; cbn; [by rewrite Hc|].
  by rewrite Hx, IH.
Qed.

Lemma take_while_all f s : Forall (λ x, f x = true) (take_while f s).
Proof.
  induction s as [|c s IH]; cbn; [constructor|].
  destruct (f c) eqn:E; by constructor.
Qed.

Lemma take_while_id f s : Forall (λ x, f x = true) s → take_while f s = s.
Proof. induction 1 as [|x s Hx Hs IH]; cbn; [done|]. by rewrite Hx, IH. Qed.

Lemma drop_while_app f a s :
  Forall (λ x, f x = true) a → drop_while f (a ++ s) = drop_while f s.
Proof. induction 1 as [|x a Hx Ha IH]; cbn; [done|]. by rewrite Hx. Qed.

Lemma drop_while_fixed f c s : f c = false → drop_while f (c :: s) = c :: s.
Proof. intros H. cbn. by rewrite H. Qed.

Lemma In_drop_while f c s : In c (drop_while f s) → In c s.
Proof.
  induction s as [|x s IH]; cbn; [done|].
  destruct (f x); [intros H; right; by apply IH|done].
Qed.

Lemma In_drop {A} (x : A) n : ∀ l, In x (drop n l) → In x l.
Proof.
  induction n as [|n IH]; intros [|y l]; cbn; try done.
  intros H. right. by apply IH.
Qed.

Lemma preview_marker : lit "[preview_id:" = [91; 112; 114; 101; 118; 105; 101; 119; 95; 105; 100; 58]%N.
Proof. reflexivity. Qed.

Lemma preview_at_other c t : c ≠ 91%N → preview_at (c :: t) = None.
Proof.
  intros Hc. unfold preview_at. rewrite preview_marker. cbn [starts_with].
  unfold chr_eqb at 1. destruct (N.eqb_spec 91 c); [by subst|reflexivity].
Qed.

Lemma not_space_rbracket c : py_isspace c = true → chr_eqb c RBRACKET = false.
Proof.
  unfold chr_eqb, RBRACKET. destruct (N.eqb_spec c 93) as [->|]; [|done].
  vm_compute. discriminate.
Qed.

(** X3.  A text with a preview marker: when no opening bracket comes
    before the marker, the identifier that [parse_preview_id] returns is
    the text between the white space after the colon and the closing
    bracket, for every identifier that is not empty, has no closing
    bracket and no white space at its ends. *)
Theorem parse_preview_id_finds_the_identifier pre ws id rest :
  ¬ In 91%N pre →
  Forall (λ c, py_isspace c = true) ws →
  id ≠ [] → strip id = id → ¬ In RBRACKET id →
  parse_preview_id (pre ++ lit "[preview_id:" ++ ws ++ id ++ [RBRACKET] ++ rest)
  = id.
Proof.
  intros Hpre Hws Hid Hstrip Hbr. unfold parse_preview_id.
  rewrite search_skip.
  2:{ intros c t Hc. apply preview_at_other. intros ->. done. }
  assert (preview_at (lit "[preview_id:" ++ ws ++ id ++ [RBRACKET] ++ rest) = Some id)
    as Hat.
  { unfold preview_at. rewrite starts_with_app.
    change 12 with (length (lit "[preview_id:")). rewrite drop_app_length.
    assert (take_while (λ c, negb (chr_eqb c RBRACKET)) (ws ++ id ++ [RBRACKET] ++ rest)
            = ws ++ id) as Hseg.
    { rewrite app_assoc. apply take_while_app.
      - apply Forall_app. split.
        + eapply Forall_impl; [exact Hws|]. intros c Hc. cbn.
          by rewrite not_space_rbracket.
        + apply Forall_forall. intros c Hc. apply list_elem_of_In in Hc.
          unfold chr_eqb. destruct (N.eqb_spec c RBRACKET) as [->|]; [done|done].
      - unfold chr_eqb. by rewrite N.eqb_refl. }
    rewrite Hseg. rewrite (app_assoc ws id), drop_app_length.
    destruct id as [|c id']; [done|].
    assert (py_isspace c = false) as Hc.
    { destruct (strip_ends (c :: id')) as [H _]. by rewrite Hstrip in H. }
    cbn [app]. destruct (ws ++ c :: id') as [|x seg] eqn:E.
    { by destruct ws. }
    rewrite <- E, drop_while_app, drop_while_fixed by done. reflexivity. }
  rewrite (search_head _ _ _ Hat). exact Hstrip.
Qed.

Lemma preview_at_group s g :
  preview_at s = Some g → ¬ In RBRACKET g ∧ In RBRACKET s.
Proof.
  unfold preview_at. destruct (starts_with (lit "[preview_id:") s); [|done].
  set (seg := take_while (λ c, negb (chr_eqb c RBRACKET)) (drop 12 s)).
  assert (¬ In RBRACKET seg) as Hseg.
  { intros Hin. pose proof (take_while_all (λ c, negb (chr_eqb c RBRACKET)) (drop 12 s)) as H.
    rewrite Forall_forall in H. apply list_elem_of_In in Hin.
    specialize (H _ Hin). vm_compute in H. discriminate. }
  assert (drop (length seg) (drop 12 s) ≠ [] → In RBRACKET s) as Hs.
  { intros Hne.
    assert (∀ t, let sg := take_while (λ c, negb (chr_eqb c RBRACKET)) t in
                 drop (length sg) t ≠ [] → In RBRACKET t) as Hgen.
    { clear. induction t as [|c t IH]; cbn; [done|].
      unfold chr_eqb at 1 2. destruct (N.eqb_spec c RBRACKET) as [->|Hc]; cbn.
      - intros _. by left.
      - intros H. right. by apply IH. }
    specialize (Hgen (drop 12 s) Hne).
    by apply In_drop in Hgen. }
  destruct (drop (length seg) (drop 12 s)) as [|x r] eqn:E; [done|].
  destruct seg as [|c seg'] eqn:Es; [done|].
  destruct (drop_while py_isspace (c :: seg')) as [|y g'] eqn:Ed.
  - intros [= <-]. split; [|by apply Hs].
    intros Hin. apply Hseg. by apply In_drop in Hin.
  - intros [= <-]. split; [|by apply Hs].
    intros Hin. apply Hseg. rewrite <- Ed in Hin. by apply In_drop_while in Hin.
Qed.

(** X4.  The identifier that [parse_preview_id] returns never has a
    closing bracket in it nor white space at its ends, and it is empty
    for every text without a closing bracket. *)
Theorem parse_preview_id_shape text :
  ¬ In RBRACKET (parse_preview_id text)
  ∧ strip (parse_preview_id text) = parse_preview_id text
  ∧ (¬ In RBRACKET text → parse_preview_id text = []).
Proof.
  unfold parse_preview_id.
  destruct (search preview_at text) as [g|] eqn:E;
    [|split; [intros []|split; [reflexivity|done]]].
  destruct (search_Some _ _ _ E) as (pre & t & -> & Ht).
  destruct (preview_at_group t g Ht) as [Hg Hin].
  split; [|split].
  - intros H. by apply Hg, In_strip.
  - apply strip_idempotent.
  - intros Hno. destruct Hno. apply in_or_app. by right.
Qed.

Lemma post_marker : lit "/post/" = [47; 112; 111; 115; 116; 47]%N.
Proof. reflexivity. Qed.

Lemma chr_lower_slash c : chr_lower c = 47%N → c = 47%N.
Proof.
  unfold chr_lower.
  destruct ((65 <=? c)%N && (c <=? 90)%N) eqn:E.
  - apply andb_true_iff in E as [E1 E2]. apply N.leb_le in E1, E2. lia.
  - destruct (N.eqb_spec c 8490); [discriminate|done].
Qed.

Lemma post_at_other c t : c ≠ 47%N → post_at (c :: t) = None.
Proof.
  intros Hc. unfold post_at. rewrite post_marker. cbn [starts_with_ignorecase].
  unfold matches_ignorecase at 1.
  replace (chr_eqb (chr_lower c) 47) with false.
  2:{ symmetry. unfold chr_eqb. apply N.eqb_neq. intros H. by apply chr_lower_slash in H. }
  reflexivity.
Qed.

Lemma starts_with_ignorecase_lower m s :
  starts_with_ignorecase (lower m) (m ++ s) = true.
Proof.
  unfold lower. induction m as [|c m IH]; [done|].
  cbn [map app starts_with_ignorecase]. rewrite IH.
  unfold matches_ignorecase, chr_eqb. by rewrite N.eqb_refl.
Qed.

Lemma post_id_char_not_space c : post_id_char c = true → py_isspace c = false.
Proof.
  unfold post_id_char, py_isspace. intros H.
  repeat (rewrite ?orb_true_iff, ?andb_true_iff, ?N.leb_le, ?N.eqb_eq in H).
  apply not_true_is_false. intros H'.
  repeat (rewrite ?orb_true_iff, ?andb_true_iff, ?N.leb_le, ?N.eqb_eq in H').
  lia.
Qed.

Lemma post_at_group s g :
  post_at s = Some g → Forall (λ c, post_id_char c = true) g ∧ In 47%N s.
Proof.
  unfold post_at. rewrite post_marker.
  destruct s as [|c s]; [done|]. cbn [starts_with_ignorecase].
  destruct (matches_ignorecase 47 c) eqn:Ec; [|done]. cbn [andb].
  match goal with |- context [if ?b then _ else _] => destruct b end; [|done].
  pose proof (take_while_all post_id_char (drop 6 (c :: s))) as Hall.
  destruct (take_while post_id_char (drop 6 (c :: s))) as [|x g']; [done|].
  intros [= <-]. split; [done|]. left.
  unfold matches_ignorecase in Ec. rewrite andb_false_l, orb_false_r in Ec.
  unfold chr_eqb in Ec. apply N.eqb_eq in Ec. by apply chr_lower_slash.
Qed.

(** X5.  A text with a post address: when no slash comes before the
    address, the identifier that [parse_post_id] returns is the run of
    letters and digits after [/post/], in whatever letter case [/post/]
    is written. *)
Theorem parse_post_id_finds_the_identifier pre marker id rest :
  ¬ In 47%N pre →
  lower marker = lit "/post/" →
  id ≠ [] → Forall (λ c, post_id_char c = true) id →
  (∀ c rest', rest = c :: rest' → post_id_char c = false) →
  parse_post_id (pre ++ marker ++ id ++ rest) = id.
Proof.
  intros Hpre Hmarker Hid Hchars Hrest. unfold parse_post_id.
  rewrite search_skip.
  2:{ intros c t Hc. apply post_at_other. intros ->. done. }
  assert (post_at (marker ++ id ++ rest) = Some id) as Hat.
  { unfold post_at. rewrite <- Hmarker, starts_with_ignorecase_lower.
    assert (length marker = 6) as Hlen.
    { apply (f_equal (@length N)) in Hmarker. unfold lower in Hmarker.
      by rewrite length_map in Hmarker. }
    rewrite <- Hlen, drop_app_length.
    assert (take_while post_id_char (id ++ rest) = id) as ->.
    { destruct rest as [|c rest'].
      - rewrite app_nil_r. by apply take_while_id.
      - apply take_while_app; [done|]. by eapply Hrest. }
    by destruct id. }
  rewrite (search_head _ _ _ Hat). apply strip_no_space.
  eapply Forall_impl; [exact Hchars|]. intros c. apply post_id_char_not_space.
Qed.

(** X6.  The identifier that [parse_post_id] returns is made of letters
    and digits only (the class of the pattern), and it is empty for every
    text without a slash. *)
Theorem parse_post_id_shape text :
  Forall (λ c, post_id_char c = true) (parse_post_id text)
  ∧ (¬ In 47%N text → parse_post_id text = []).
Proof.
  unfold parse_post_id.
  destruct (search post_at text) as [g|] eqn:E; [|by split].
  destruct (search_Some _ _ _ E) as (pre & t & -> & Ht).
  destruct (post_at_group t g Ht) as [Hg Hin].
  rewrite strip_no_space.
  2:{ eapply Forall_impl; [exact Hg|]. intros c. apply post_id_char_not_space. }
  split; [done|]. intros Hno. destruct Hno. apply in_or_app. by right.
Qed.

(** ** Masking, at every depth *)

Lemma value_ind_nested (P : value → Prop) :
  P VNone → (∀ b, P (VBool b)) → (∀ z, P (VInt z)) → (∀ f, P (VFloat f)) →
  (∀ s, P (VStr s)) →
  (∀ l, Forall P l → P (VList l)) →
  (∀ d, Forall (λ kv, P kv.2) d → P (VDict d)) →
  ∀ v, P v.
Proof.
  intros HN HB HI HF HS HL HD. fix IH 1.
  intros [| b | z | f | s | l | d];
    [apply HN | apply HB | apply HI | apply HF | apply HS | |].
  - apply HL. induction l as [|x l IHl]; constructor; [apply IH | exact IHl].
  - apply HD. induction d as [|[k x] d IHd]; constructor; [apply IH | exact IHd].
Qed.

Lemma _mask_eq v key :
  _mask v key
  = if str_in (lower key) sensitive then VStr (lit "***")
    else if str_eqb (lower key) (lit "stats") then VStr (lit "[stats_json]")
    else
      match v with
      | VDict d => VDict (map (λ kv, (fst kv, _mask (snd kv) (fst kv))) d)
      | VList l => VList (map (λ x, _mask x key) l)
      | VStr s =>
          if (600 <? length s)%nat then VStr (take 600 s ++ TRUNCATED) else v
      | _ => v
      end.
Proof. destruct v; reflexivity. Qed.

Lemma _mask_plain v key :
  str_in (lower key) sensitive = false →
  str_eqb (lower key) (lit "stats") = false →
  _mask v key
  = match v with
    | VDict d => VDict (map (λ kv, (fst kv, _mask (snd kv) (fst kv))) d)
    | VList l => VList (map (λ x, _mask x key) l)
    | VStr s =>
        if (600 <? length s)%nat then VStr (take 600 s ++ TRUNCATED) else v
    | _ => v
    end.
Proof. intros E1 E2. by rewrite _mask_eq, E1, E2. Qed.

Lemma _mask_idempotent v : ∀ key, _mask (_mask v key) key = _mask v key.
Proof.
  revert v.
  apply (value_ind_nested (λ v, ∀ key, _mask (_mask v key) key = _mask v key));
    [intros key | intros b key | intros z key | intros f key | intros s key
    | intros l IH key | intros d IH key];
    (destruct (str_in (lower key) sensitive) eqn:E1;
     [rewrite !(_mask_eq _ key), E1; reflexivity|]);
    (destruct (str_eqb (lower key) (lit "stats")) eqn:E2;
     [rewrite !(_mask_eq _ key), E1, E2; reflexivity|]);
    match goal with
    | |- _mask (_mask ?v ?k) ?k = _ => rewrite (_mask_plain v k E1 E2)
    end;
    cbv beta iota; try (rewrite (_mask_plain _ key E1 E2); reflexivity).
  - destruct (Nat.ltb_spec 600 (length s)) as [Hs|Hs];
      rewrite (_mask_plain _ key E1 E2).
    + assert (length (take 600 s) = 600) as Hlen by (rewrite length_take; lia).
      destruct (Nat.ltb_spec 600 (length (take 600 s ++ TRUNCATED))) as [_|H].
      * f_equal. f_equal. rewrite take_app_length'; done.
      * rewrite length_app, Hlen in H. cbn in H. lia.
    + destruct (Nat.ltb_spec 600 (length s)); [lia|reflexivity].
  - rewrite (_mask_plain _ key E1 E2).
    f_equal. rewrite map_map. apply map_ext_Forall.
    eapply Forall_impl; [exact IH|]. intros x Hx. apply Hx.
  - rewrite (_mask_plain _ key E1 E2).
    f_equal. rewrite map_map. apply map_ext_Forall.
    eapply Forall_impl; [exact IH|]. intros [k x] Hx. cbn in *. f_equal. apply Hx.
Qed.

(** X7.  Masking what is masked changes nothing, and masking keeps the
    keys of the payload, in their order. *)
Theorem mask_payload_idempotent payload :
  ∃ masked,
    mask_payload payload = VDict masked ∧
    mask_payload masked = VDict masked ∧
    map fst masked = map fst payload.
Proof.
  exists (map (λ kv, (kv.1, _mask kv.2 kv.1)) payload).
  split; [reflexivity|]. split.
  - pose proof (_mask_idempotent (VDict payload) []) as H.
    exact H.
  - rewrite map_map. reflexivity.
Qed.

Lemma _mask_secrets_hidden v : ∀ key, secrets_hidden (_mask v key) = true.
Proof.
  revert v.
  apply (value_ind_nested (λ v, ∀ key, secrets_hidden (_mask v key) = true));
    [intros key | intros b key | intros z key | intros f key | intros s key
    | intros l IH key | intros d IH key];
    rewrite (_mask_eq _ key);
    destruct (str_in (lower key) sensitive); try reflexivity;
    destruct (str_eqb (lower key) (lit "stats")); try reflexivity.
  - by destruct (600 <? length s).
  - cbn [secrets_hidden]. apply forallb_forall. intros x Hx.
    apply in_map_iff in Hx as (y & <- & Hy).
    rewrite Forall_forall in IH. apply IH. by apply list_elem_of_In.
  - cbn [secrets_hidden]. apply forallb_forall. intros kv Hkv.
    apply in_map_iff in Hkv as ([k x] & <- & Hy). cbn [fst snd].
    rewrite Forall_forall in IH. rewrite (IH (k, x)) by (by apply list_elem_of_In).
    rewrite andb_true_r.
    destruct (str_in (lower k) sensitive) eqn:E; [|reflexivity].
    rewrite (_mask_eq x k), E. reflexivity.
Qed.

(** X8.  In the masked payload every value under a sensitive key is the
    text of three stars, at every depth: inside nested objects and inside
    the objects of lists, and in whatever letter case the key is
    written. *)
Theorem mask_payload_hides_secrets payload :
  secrets_hidden (mask_payload payload) = true.
Proof. apply _mask_secrets_hidden. Qed.

Lemma _mask_texts_within v : ∀ key, texts_within 614 (_mask v key) = true.
Proof.
  revert v.
  apply (value_ind_nested (λ v, ∀ key, texts_within 614 (_mask v key) = true));
    [intros key | intros b key | intros z key | intros f key | intros s key
    | intros l IH key | intros d IH key];
    rewrite (_mask_eq _ key);
    destruct (str_in (lower key) sensitive); try reflexivity;
    destruct (str_eqb (lower key) (lit "stats")); try reflexivity.
  - destruct (Nat.ltb_spec 600 (length s)) as [Hs|Hs]; cbn [texts_within].
    + apply Nat.leb_le. rewrite length_app, length_take.
      change (length TRUNCATED) with 14. lia.
    + apply Nat.leb_le. lia.
  - cbn [texts_within]. apply forallb_forall. intros x Hx.
    apply in_map_iff in Hx as (y & <- & Hy).
    rewrite Forall_forall in IH. apply IH. by apply list_elem_of_In.
  - cbn [texts_within]. apply forallb_forall. intros kv Hkv.
    apply in_map_iff in Hkv as ([k x] & <- & Hy). cbn [fst snd].
    rewrite Forall_forall in IH. apply (IH (k, x)). by apply list_elem_of_In.
Qed.

(** X9.  No text that the masked payload holds as a value, at any depth,
    has more than 614 characters: the 600 that are kept and the 14 of the
    truncation marker. *)
Theorem mask_payload_bounds_texts payload :
  texts_within 614 (mask_payload payload) = true.
Proof. apply _mask_texts_within. Qed.

(** ** Failures of the tracking update *)

Lemma idx_missing header name :
  ¬ In name header → idx header name = Raise (Exn KeyError (lit "'" ++ name ++ lit "'")).
Proof.
  intros H. unfold idx.
  destruct (enumerate_find header name 0 None) as [j|] eqn:E; [|reflexivity].
  apply enumerate_find_spec in E as [E|[_ E]]; [discriminate|].
  destruct H. apply list_elem_of_In. by eapply list_elem_of_lookup_2.
Qed.

Lemma update_data_before header u before rest :
  Forall (λ r, ∃ name, cell header r COL_TOOL = Ok name ∧ name ≠ u_tool u) before →
  update_data header (before ++ rest) u
  = (rest' ← update_data header rest u; Ok (before ++ rest')).
Proof.
  induction 1 as [|r before (name & Hname & Hne) Hbefore IH]; cbn [app].
  { destruct (update_data header rest u); reflexivity. }
  cbn [update_data]. unfold cell in Hname.
  destruct (idx header COL_TOOL) as [i|e]; [|done]. simpl_bind.
  cbn in Hname. rewrite Hname. simpl_bind.
  apply str_eqb_neq in Hne. rewrite Hne. cbn [negb]. rewrite IH.
  destruct (update_data header rest u); reflexivity.
Qed.

(** X10.  A tracking table with a data row whose header has no column
    for the name of the tool: every update raises [KeyError] for that
    column, whatever the tool, and the file is not written. *)
Theorem update_matrix_needs_the_tool_column content header row data u :
  csv_reader content = Ok (header :: row :: data) →
  ¬ In COL_TOOL header →
  update_matrix content u
  = Raise (Exn KeyError (lit "'" ++ COL_TOOL ++ lit "'")).
Proof.
  intros Hread Hcol. unfold update_matrix. rewrite Hread. simpl_bind.
  cbn [update_rows update_data]. by rewrite (idx_missing _ _ Hcol).
Qed.

(** X11.  A row that is too short to have a name, such as the empty row
    that a blank line of the file gives, before the row of the tool: the
    update raises [IndexError] and the file is not written. *)
Theorem update_matrix_short_row content header before short after u i :
  csv_reader content = Ok (header :: before ++ short :: after) →
  idx header COL_TOOL = Ok i → length short ≤ i →
  Forall (λ r, ∃ name, cell header r COL_TOOL = Ok name ∧ name ≠ u_tool u)
         before →
  update_matrix content u
  = Raise (Exn IndexError (lit "list index out of range")).
Proof.
  intros Hread Hi Hshort Hbefore. unfold update_matrix. rewrite Hread. simpl_bind.
  cbn [update_rows]. rewrite update_data_before by done.
  cbn [update_data]. rewrite Hi. simpl_bind. unfold row_get.
  rewrite (lookup_ge_None_2 short i) by lia. reflexivity.
Qed.

(** X12.  The update stops at the first row of the tool: that row gets
    the values of the update, and the rows after it are written as they
    were read, whatever they are, be they keyed by the same tool or too
    short to have a name. *)
Theorem update_matrix_stops_at_the_first_row content header before row after u :
  csv_reader content = Ok (header :: before ++ row :: after) →
  Forall (λ c, In c header) all_columns → length header ≤ length row →
  Forall (λ r, ∃ name, cell header r COL_TOOL = Ok name ∧ name ≠ u_tool u)
         before →
  cell header row COL_TOOL = Ok (u_tool u) →
  ∃ old row',
    cell header row COL_ERROR_VISIBLE = Ok old ∧
    update_matrix content u
    = Ok (writerows (header :: before ++ row' :: after)) ∧
    (∀ name v, In (name, v) (assigned_cells u old) → cell header row' name = Ok v) ∧
    cell header row' COL_TOOL = Ok (u_tool u).
Proof.
  intros Hread Hcols Hlen Hbefore Hkey.
  destruct (update_row_spec header row u Hcols Hlen)
    as (old & row' & Hold & Hrow' & _ & _ & Hcells & Htool).
  exists old, row'. split; [done|]. split; [|split; [done|congruence]].
  unfold update_matrix. rewrite Hread. simpl_bind.
  cbn [update_rows]. rewrite update_data_before by done.
  cbn [update_data]. unfold cell in Hkey.
  destruct (idx header COL_TOOL) as [i|e]; [|done]. simpl_bind.
  cbn in Hkey. rewrite Hkey. simpl_bind. rewrite str_eqb_refl. cbn [negb].
  rewrite Hrow'. reflexivity.
Qed.

Lemma idx_cases header name :
  (In name header ∧ ∃ i, idx header name = Ok i ∧ i < length header)
  ∨ (¬ In name header
     ∧ idx header name = Raise (Exn KeyError (lit "'" ++ name ++ lit "'"))).
Proof.
  destruct (idx header name) as [i|e] eqn:E.
  - left. pose proof (idx_Ok _ _ _ E) as Hi. split.
    + apply list_elem_of_In. by eapply list_elem_of_lookup_2.
    + exists i. split; [done|]. by eapply lookup_lt_Some.
  - right. assert (¬ In name header) as Hnot.
    { intros Hin. destruct (idx_In _ _ Hin) as [i Hi]. congruence. }
    split; [done|]. rewrite <- E. by apply idx_missing.
Qed.

Lemma set_col_cases header row name cell :
  length header ≤ length row →
  (In name header
   ∧ ∃ row', set_col header row name cell = Ok row' ∧ length row' = length row)
  ∨ (¬ In name header
     ∧ set_col header row name cell
       = Raise (Exn KeyError (lit "'" ++ name ++ lit "'"))).
Proof.
  intros Hlen. destruct (idx_cases header name) as [[Hin (i & Hi & Hlt)]|[Hnot Hi]].
  - left. split; [done|]. exists (<[i := cell]> row).
    split; [apply set_col_ok; [done|lia]|by rewrite length_insert].
  - right. split; [done|]. unfold set_col. by rewrite Hi.
Qed.

Ltac assign_step :=
  match goal with
  | Hlen : length ?h ≤ length ?r
    |- ∃ c, _ ∧ _ ∧ (set_col ?h ?r ?n ?v ≫= _) = _ =>
      let Hin := fresh "Hin" in
      let r' := fresh "row" in
      let Hr := fresh "Hr" in
      let Hl := fresh "Hl" in
      destruct (set_col_cases h r n v Hlen) as [[Hin (r' & Hr & Hl)]|[Hin Hr]];
      rewrite Hr; simpl_bind;
      [ rewrite <- Hl in Hlen; clear Hr Hl
      | exists n; split; [cbn; tauto|split; [exact Hin|reflexivity]] ]
  end.

Lemma update_row_missing_column header row u :
  length header ≤ length row →
  (∃ c, In c updated_columns ∧ ¬ In c header) →
  ∃ c, In c updated_columns ∧ ¬ In c header ∧
       update_row header row u
       = Raise (Exn KeyError (lit "'" ++ c ++ lit "'")).
Proof.
  intros Hlen Hmiss. unfold update_row.
  do 5 assign_step.
  destruct (idx_cases header COL_ERROR_VISIBLE) as [[Hv (i & Hi & Hlt)]|[Hv Hi]].
  2:{ exists COL_ERROR_VISIBLE. split; [cbn; tauto|]. split; [done|].
      destruct (negb (u_passed u) && _); simpl_bind.
      - unfold set_col. rewrite Hi. reflexivity.
      - rewrite Hi. reflexivity. }
  match goal with
  | |- ∃ c, _ ∧ _ ∧ (?vis ≫= _) = _ =>
      assert (∃ visible, vis = Ok visible) as [visible ->]
  end.
  { destruct (negb (u_passed u) && _); [eauto|]. rewrite Hi. simpl_bind.
    unfold row_get.
    match goal with |- context [?r !! i] => destruct (r !! i) as [old|] eqn:E end.
    - simpl_bind. eauto.
    - apply lookup_ge_None in E. lia. }
  simpl_bind.
  do 7 assign_step.
  match goal with
  | Hlen : length ?h ≤ length ?r |- ∃ c, _ ∧ _ ∧ set_col ?h ?r ?n ?v = _ =>
      destruct (set_col_cases h r n v Hlen) as [[Hlast _]|[Hlast Hr]]
  end.
  2:{ exists COL_UPDATED. split; [cbn; tauto|]. by split. }
  destruct Hmiss as (c & Hc & Hnot). exfalso. apply Hnot.
  cbn in Hc. repeat (destruct Hc as [<-|Hc]; [assumption|]). done.
Qed.

(** X13.  A header that lacks one of the thirteen columns that the
    update assigns: the update of a tool that has a row raises [KeyError]
    for a missing column, and the file is not written, so that no row is
    ever stored with a part of the assignments. *)
Theorem update_matrix_missing_column content header before row after u :
  csv_reader content = Ok (header :: before ++ row :: after) →
  length header ≤ length row →
  Forall (λ r, ∃ name, cell header r COL_TOOL = Ok name ∧ name ≠ u_tool u)
         before →
  cell header row COL_TOOL = Ok (u_tool u) →
  (∃ c, In c updated_columns ∧ ¬ In c header) →
  ∃ c, In c updated_columns ∧ ¬ In c header ∧
       update_matrix content u
       = Raise (Exn KeyError (lit "'" ++ c ++ lit "'")).
Proof.
  intros Hread Hlen Hbefore Hkey Hmiss.
  destruct (update_row_missing_column header row u Hlen Hmiss)
    as (c & Hc & Hnot & Hrow).
  exists c. split; [done|]. split; [done|].
  unfold update_matrix. rewrite Hread. simpl_bind.
  cbn [update_rows]. rewrite update_data_before by done.
  cbn [update_data]. unfold cell in Hkey.
  destruct (idx header COL_TOOL) as [i|e]; [|done]. simpl_bind.
  cbn in Hkey. rewrite Hkey. simpl_bind. rewrite str_eqb_refl. cbn [negb].
  rewrite Hrow. reflexivity.
Qed.

Section MainLoop.
Context {lib : PyLib}.


(** ** The arguments of the calls *)

Lemma str_in_cons s a l : str_in s (a :: l) = str_eqb s a || str_in s l.
Proof. reflexivity. Qed.

Lemma str_in_nil s : str_in s [] = false.
Proof. reflexivity. Qed.

Lemma str_in_In s l : str_in s l = true ↔ In s l.
Proof.
  induction l as [|a l IH]; [done|]. rewrite str_in_cons, orb_true_iff, IH.
  rewrite str_eqb_eq. cbn. split; intros [H|H]; auto.
Qed.

Lemma str_in_false s l : str_in s l = false ↔ ¬ In s l.
Proof.
  rewrite <- str_in_In. destruct (str_in s l); split; try done.
Qed.

Lemma is_tool_false tool name : tool ≠ lit name → is_tool tool name = false.
Proof. intros H. by apply str_eqb_neq. Qed.

Lemma session_args_other tool ctx a :
  ¬ In tool [lit "read_session"; lit "analyze_session"; lit "post_to_codeblog"] →
  session_args tool ctx a = a.
Proof. intros H. unfold session_args. apply str_in_false in H. by rewrite H. Qed.

Lemma post_args_other tool ctx a :
  ¬ In tool [lit "read_post"; lit "comment_on_post"; lit "vote_on_post"] →
  post_args tool ctx a = a.
Proof. intros H. unfold post_args. apply str_in_false in H. by rewrite H. Qed.

Lemma own_post_args_other tool ctx a :
  ¬ In tool [lit "edit_post"; lit "delete_post"] → own_post_args tool ctx a = a.
Proof. intros H. unfold own_post_args. apply str_in_false in H. by rewrite H. Qed.

Lemma confirm_args_other tool ctx a :
  tool ≠ lit "confirm_post" → confirm_args tool ctx a = a.
Proof. intros H. unfold confirm_args. by rewrite is_tool_false. Qed.

Lemma setup_args_other tool ctx a :
  tool ≠ lit "codeblog_setup" → setup_args tool ctx a = a.
Proof. intros H. unfold setup_args. by rewrite is_tool_false. Qed.

Lemma report_args_other tool ctx a :
  tool ≠ lit "save_daily_report" → report_args tool ctx a = a.
Proof. intros H. unfold report_args. by rewrite is_tool_false. Qed.

Ltac other_tool :=
  first [ discriminate
        | let H := fresh in
          intros H; cbn [In] in H;
          repeat (destruct H as [H|H]; [discriminate H|]); exact H ].

Ltac other_stages :=
  rewrite ?session_args_other, ?post_args_other, ?own_post_args_other,
    ?confirm_args_other, ?setup_args_other, ?report_args_other by other_tool.

(** X15.  The context never changes the arguments of a tool that the
    runner does not name as dependent: the call is made with the template
    of the catalog, whatever the context holds; twenty of the thirty-one
    tools of the catalog are such. *)
Theorem independent_tools_get_their_template :
  (∀ tool base ctx,
     ¬ In tool dependent_tools → resolve_args tool base ctx = base)
  ∧ length (filter (λ d, negb (str_in d.1.1 dependent_tools)) TOOLS) = 20.
Proof.
  split; [|reflexivity].
  intros tool base ctx H. unfold resolve_args.
  assert (∀ name, In name dependent_tools → tool ≠ name) as Hne.
  { intros name Hname ->. done. }
  rewrite session_args_other, post_args_other, own_post_args_other,
    confirm_args_other, setup_args_other, report_args_other; try done.
  all: try (apply Hne; cbn; tauto).
  all: intros Hin; apply H; cbn in Hin |- *; tauto.
Qed.

Lemma dict_get_set_eq d k v : dict_get (dict_set d k v) k = Some v.
Proof.
  induction d as [|[k' v'] d IH]; cbn.
  - by rewrite str_eqb_refl.
  - destruct (str_eqb k' k) eqn:E; cbn; rewrite E; [reflexivity|exact IH].
Qed.

Lemma dict_get_set_ne d k k' v :
  k ≠ k' → dict_get (dict_set d k v) k' = dict_get d k'.
Proof.
  intros Hne. induction d as [|[k0 v0] d IH]; cbn.
  - apply str_eqb_neq in Hne. by rewrite Hne.
  - destruct (str_eqb k0 k) eqn:E; cbn.
    + apply str_eqb_eq in E as ->. apply str_eqb_neq in Hne. by rewrite Hne.
    + destruct (str_eqb k0 k'); [reflexivity|exact IH].
Qed.

Lemma dict_mem_set_eq d k v : dict_mem (dict_set d k v) k = true.
Proof. unfold dict_mem. by rewrite dict_get_set_eq. Qed.

(** X16.  A dependent tool whose context entries are not all set to
    values that count as true is called with no arguments at all: the
    template of the catalog is dropped, never sent alone. *)
Theorem dependent_tools_without_their_entries base ctx :
  (∀ tool,
     In tool [lit "read_session"; lit "analyze_session"; lit "post_to_codeblog"] →
     truthy (ctx_get ctx "session_path") && truthy (ctx_get ctx "session_source")
     = false →
     resolve_args tool base ctx = [])
  ∧ (∀ tool,
       In tool [lit "read_post"; lit "comment_on_post"; lit "vote_on_post"] →
       truthy (ctx_get ctx "post_id") = false →
       resolve_args tool base ctx = [])
  ∧ (∀ tool,
       In tool [lit "edit_post"; lit "delete_post"] →
       truthy (ctx_get ctx "own_post_id") = false →
       resolve_args tool base ctx = [])
  ∧ (truthy (ctx_get ctx "preview_id") = false →
     resolve_args (lit "confirm_post") base ctx = [])
  ∧ (truthy (ctx_get ctx "raw_stats") && truthy (ctx_get ctx "stats_date")
     && truthy (ctx_get ctx "stats_tz") = false →
     resolve_args (lit "save_daily_report") base ctx = []).
Proof.
  repeat split.
  - intros tool Htool H. cbn [In] in Htool.
    destruct Htool as [<-|[<-|[<-|[]]]]; unfold resolve_args; other_stages;
      unfold session_args; rewrite H; reflexivity.
  - intros tool Htool H. cbn [In] in Htool.
    destruct Htool as [<-|[<-|[<-|[]]]]; unfold resolve_args; other_stages;
      unfold post_args; rewrite H; reflexivity.
  - intros tool Htool H. cbn [In] in Htool.
    destruct Htool as [<-|[<-|[]]]; unfold resolve_args; other_stages;
      unfold own_post_args; rewrite H; reflexivity.
  - intros H. unfold resolve_args. other_stages.
    unfold confirm_args. rewrite H. reflexivity.
  - intros H. unfold resolve_args. other_stages.
    unfold report_args. rewrite H. reflexivity.
Qed.

Lemma update_context_other_tools tool text ctx :
  is_tool tool "post_to_codeblog" = false →
  is_tool tool "confirm_post" = false →
  ctx_get (update_context tool text ctx) "own_post_id"
  = ctx_get ctx "own_post_id".
Proof.
  intros H1 H2. unfold update_context. rewrite H1, H2.
  destruct (is_tool tool "collect_daily_stats");
    [rewrite ctx_get_collect_daily_stats by done|];
  (destruct (is_tool tool "preview_post");
    [rewrite ctx_get_preview_post by done|]);
  (destruct (is_tool tool "browse_posts");
    [rewrite ctx_get_browse_posts by done|]);
  (destruct (is_tool tool "scan_sessions");
    [rewrite ctx_get_scan_sessions by done|]); done.
Qed.

(** X17.  The two tools that change or remove a post are only ever aimed
    at the post of the run itself: their [post_id] argument, when they
    have one, is the [own_post_id] of the context, and [delete_post]
    carries its confirmation; and no result other than those of
    [post_to_codeblog] and [confirm_post] touches [own_post_id], so that
    a post met while browsing is never their target. *)
Theorem edit_and_delete_target_the_own_post :
  (∀ tool base ctx,
     In tool [lit "edit_post"; lit "delete_post"] →
     resolve_args tool base ctx = []
     ∨ (truthy (ctx_get ctx "own_post_id") = true ∧
        dict_get (resolve_args tool base ctx) (lit "post_id")
        = Some (ctx_get ctx "own_post_id")))
  ∧ (∀ base ctx,
       resolve_args (lit "delete_post") base ctx = []
       ∨ dict_get (resolve_args (lit "delete_post") base ctx) (lit "confirm")
         = Some (VBool true))
  ∧ (∀ tool text ctx,
       tool ≠ lit "post_to_codeblog" → tool ≠ lit "confirm_post" →
       ctx_get (update_context tool text ctx) "own_post_id"
       = ctx_get ctx "own_post_id").
Proof.
  split; [|split].
  - intros tool base ctx Htool. cbn [In] in Htool.
    destruct (truthy (ctx_get ctx "own_post_id")) eqn:Hown.
    + right. split; [done|].
      destruct Htool as [<-|[<-|[]]]; unfold resolve_args; other_stages;
        unfold own_post_args; rewrite Hown;
        change (str_in _ _) with true; cbv beta iota zeta.
      * change (is_tool (lit "edit_post") "edit_post") with true.
        change (is_tool (lit "edit_post") "delete_post") with false.
        cbn [andb]. rewrite dict_mem_set_eq. cbv beta iota zeta.
        rewrite !dict_get_set_ne by discriminate. apply dict_get_set_eq.
      * change (is_tool (lit "delete_post") "edit_post") with false.
        change (is_tool (lit "delete_post") "delete_post") with true.
        cbn [andb]. rewrite dict_mem_set_eq. cbv beta iota zeta.
        rewrite dict_get_set_ne by discriminate. apply dict_get_set_eq.
    + left. destruct Htool as [<-|[<-|[]]]; unfold resolve_args; other_stages;
        unfold own_post_args; rewrite Hown; reflexivity.
  - intros base ctx. unfold resolve_args. other_stages. unfold own_post_args.
    change (str_in _ _) with true.
    change (is_tool (lit "delete_post") "edit_post") with false.
    change (is_tool (lit "delete_post") "delete_post") with true.
    destruct (truthy (ctx_get ctx "own_post_id")); [right|by left].
    cbn [andb]. rewrite dict_mem_set_eq. cbv beta iota zeta.
    apply dict_get_set_eq.
  - intros tool text ctx H1 H2.
    apply update_context_other_tools; by apply is_tool_false.
Qed.

(** X18.  The setup tool is called in login mode exactly when both
    credentials of the context count as true, and in browser mode
    otherwise; in login mode the snapshot of the arguments that is
    logged has three stars in place of the password. *)
Theorem setup_password_is_masked base ctx :
  (truthy (ctx_get ctx "qa_email") && truthy (ctx_get ctx "qa_password") = true →
   resolve_args (lit "codeblog_setup") base ctx
   = [ (lit "mode", VStr (lit "login"));
       (lit "email", ctx_get ctx "qa_email");
       (lit "password", ctx_get ctx "qa_password") ]
   ∧ ∃ masked,
       mask_payload (resolve_args (lit "codeblog_setup") base ctx) = VDict masked ∧
       dict_get masked (lit "password") = Some (VStr (lit "***")) ∧
       dict_get masked (lit "mode") = Some (VStr (lit "login")))
  ∧ (truthy (ctx_get ctx "qa_email") && truthy (ctx_get ctx "qa_password") = false →
     resolve_args (lit "codeblog_setup") base ctx
     = [ (lit "mode", VStr (lit "browser")) ]).
Proof.
  split; intros H; unfold resolve_args; other_stages; unfold setup_args;
    change (is_tool (lit "codeblog_setup") "codeblog_setup") with true;
    cbv beta iota; rewrite H; [|reflexivity].
  split; [reflexivity|]. eexists. split; [apply mask_payload_items|].
  cbn [map fst snd]. rewrite (mask_sensitive _ (lit "password")) by reflexivity.
  split; reflexivity.
Qed.

Lemma escape_newlines_no_lf s : ¬ In LF (escape_newlines s).
Proof.
  induction s as [|c s IH]; cbn [escape_newlines]; [intros []|].
  unfold chr_eqb. destruct (N.eqb_spec c LF) as [->|Hc].
  - intros [H|[H|H]]; [discriminate H|discriminate H|by apply IH].
  - intros [H|H]; [by symmetry in H|by apply IH].
Qed.

(** X19.  The columns of a row of the run log agree with one another,
    whatever the operation came to.  An operation that passed has the
    flag of success, both states normal, and nothing in the columns of
    the issue, of the error, of the cause and of the fix; an operation
    that did not pass has the flag of failure, both states abnormal, the
    issue mark and an issue identifier made of [ISSUE-] and eight
    characters of a fresh [uuid4]; the column of the retest repeats the
    flag; the result text has no line feed; the row has twenty columns;
    and the update of the tracking table gets the same flags. *)
Theorem logged_row_is_consistent run e tool scenario args self env ctx :
  let o := (attempt self tool args env ctx).2 in
  let row := outcome_row run e tool scenario args o in
  length row = 20
  ∧ (∀ text, row !! 8 = Some text → ¬ In LF text)
  ∧ ((passed o = true ∧ row !! 10 = Some YES ∧
      row !! 11 = Some NORMAL ∧ row !! 12 = Some NORMAL ∧
      row !! 13 = Some [] ∧ row !! 14 = Some [] ∧ row !! 15 = Some [] ∧
      row !! 16 = Some [] ∧ row !! 17 = Some [] ∧ row !! 18 = Some YES)
     ∨ (passed o = false ∧ row !! 10 = Some NO ∧
        row !! 11 = Some ABNORMAL ∧ row !! 12 = Some ABNORMAL ∧
        row !! 13 = Some HAS_ISSUE ∧
        row !! 15 = Some (lit "ISSUE-" ++ take 8 (uuid4_hex e)) ∧
        row !! 18 = Some NO))
  ∧ u_passed (tracking_of run e tool o) = passed o
  ∧ row !! 18 = Some (u_retest (tracking_of run e tool o)).
Proof.
  intros o row. split; [reflexivity|]. split.
  { intros text [= <-]. apply escape_newlines_no_lf. }
  split; [|by split].
  subst row o. unfold attempt, try_body.
  destruct (call_tool self tool args env) as [self' r].
  destruct (_ ≫= _) as [[text [|]]|ex]; cbn [snd]; [left|right|right];
    repeat split; reflexivity.
Qed.

End MainLoop.

(** ** The reports read what the runner writes *)

Lemma cells_get_set_eq d k v : cells_get (cells_set d k v) k = Some v.
Proof.
  induction d as [|[k' v'] d IH]; cbn.
  - by rewrite str_eqb_refl.
  - destruct (str_eqb k' k) eqn:E; cbn; rewrite E; [reflexivity|exact IH].
Qed.

Lemma cells_get_set_ne d k k' v :
  k ≠ k' → cells_get (cells_set d k v) k' = cells_get d k'.
Proof.
  intros Hne. induction d as [|[k0 v0] d IH]; cbn.
  - apply str_eqb_neq in Hne. by rewrite Hne.
  - destruct (str_eqb k0 k) eqn:E; cbn.
    + apply str_eqb_eq in E as ->. apply str_eqb_neq in Hne. by rewrite Hne.
    + destruct (str_eqb k0 k'); [reflexivity|exact IH].
Qed.

Lemma zip_fold_absent name : ∀ h r acc,
  (∀ m, h !! m ≠ Some name) →
  cells_get (fold_left (λ d kv, cells_set d (fst kv) (Some (snd kv))) (zip h r) acc)
            name
  = cells_get acc name.
Proof.
  induction h as [|x h IH]; intros r acc H; [done|].
  destruct r as [|c r]; [done|]. cbn [zip zip_with fold_left fst snd].
  rewrite IH.
  - apply cells_get_set_ne. intros ->. by apply (H 0).
  - intros m. apply (H (S m)).
Qed.

Lemma zip_fold_last name : ∀ h r acc i v,
  h !! i = Some name → r !! i = Some v →
  (∀ m, i < m → h !! m ≠ Some name) →
  cells_get (fold_left (λ d kv, cells_set d (fst kv) (Some (snd kv))) (zip h r) acc)
            name
  = Some (Some v).
Proof.
  induction h as [|x h IH]; intros r acc i v Hh Hr Hlast; [done|].
  destruct r as [|c r]; [done|]. cbn [zip zip_with fold_left fst snd].
  destruct i as [|i].
  - cbn in Hh, Hr. injection Hh as ->. injection Hr as ->.
    rewrite zip_fold_absent.
    + apply cells_get_set_eq.
    + intros m. apply (Hlast (S m)). lia.
  - cbn in Hh, Hr. apply (IH r _ i v Hh Hr).
    intros m Hm. apply (Hlast (S m)). lia.
Qed.

Lemma pad_fold_absent name : ∀ keys d,
  ¬ In name keys →
  cells_get (fold_left (λ d key, cells_set d key None) keys d) name
  = cells_get d name.
Proof.
  induction keys as [|key keys IH]; intros d H; [done|]. cbn [fold_left].
  rewrite IH.
  - apply cells_get_set_ne. intros ->. apply H. by left.
  - intros Hin. apply H. by right.
Qed.

Lemma enumerate_find_last name : ∀ h k found j,
  enumerate_find h name k found = Some j →
  (found = Some j ∧ ∀ m, h !! m ≠ Some name)
  ∨ (k ≤ j ∧ h !! (j - k) = Some name ∧ ∀ m, j - k < m → h !! m ≠ Some name).
Proof.
  induction h as [|x h IH]; intros k found j H; cbn in H.
  { left. split; [done|]. intros m. by rewrite lookup_nil. }
  apply IH in H as [[H Hno]|(Hle & Hj & Hlast)].
  - destruct (str_eqb x name) eqn:E.
    + injection H as <-. right. apply str_eqb_eq in E as ->.
      split; [lia|]. rewrite Nat.sub_diag. split; [done|].
      intros [|m] Hm; [lia|]. apply Hno.
    + left. split; [done|]. intros [|m]; [|apply Hno].
      cbn. intros [= ->]. by rewrite str_eqb_refl in E.
  - right. split; [lia|]. replace (j - k) with (S (j - S k)) by lia.
    split; [done|]. intros [|m] Hm; [lia|]. apply Hlast. lia.
Qed.

Lemma idx_last header name i :
  idx header name = Ok i →
  header !! i = Some name ∧ ∀ m, i < m → header !! m ≠ Some name.
Proof.
  unfold idx. destruct (enumerate_find header name 0 None) as [j|] eqn:E; [|done].
  intros [= <-]. apply enumerate_find_last in E as [[? _]|(_ & Hj & Hlast)]; [done|].
  rewrite Nat.sub_0_r in Hj, Hlast. by split.
Qed.

Lemma get_dict_of_row header row name v :
  cell header row name = Ok v → get (dict_of_row header row) name = Some v.
Proof.
  unfold cell. destruct (idx header name) as [i|e] eqn:Hi; [|done]. simpl_bind.
  unfold row_get. destruct (row !! i) as [c|] eqn:Hr; [|done]. intros [= ->].
  destruct (idx_last _ _ _ Hi) as [Hh Hlast].
  assert (cells_get (dict_zip header row) name = Some (Some v)) as Hzip.
  { unfold dict_zip. by apply (zip_fold_last name header row [] i v). }
  unfold get, dict_of_row.
  destruct (length header <? length row); cbn [cells]; [by rewrite Hzip|].
  destruct (Nat.ltb_spec (length row) (length header)) as [Hlt|_];
    cbn [cells]; [|by rewrite Hzip].
  rewrite pad_fold_absent; [by rewrite Hzip|].
  intros Hin. apply list_elem_of_In, list_elem_of_lookup_1 in Hin as [m Hm].
  rewrite lookup_drop in Hm. apply (Hlast (length row + m)); [|done].
  apply lookup_lt_Some in Hr. lia.
Qed.

(** X20.  The reports read the cell that the runner writes: for every
    header and row, the value that the runner finds in the column of a
    name ([row[idx[name]]], the last column of that name) is the value
    that [csv.DictReader] gives for that name, whether names repeat in
    the header or the row is longer or shorter than the header. *)
Theorem reports_read_the_cell_of_the_runner header row name v :
  cell header row name = Ok v →
  get (dict_of_row header row) name = Some v
  ∧ getitem (dict_of_row header row) name = Ok (Some v).
Proof.
  intros H. pose proof (get_dict_of_row _ _ _ _ H) as Hget. split; [done|].
  unfold get in Hget. unfold getitem.
  destruct (cells_get (cells (dict_of_row header row)) name) as [c|]; [|done].
  cbn in Hget. by subst.
Qed.

Lemma update_matrix_at_first_row content header before row after u row' :
  csv_reader content = Ok (header :: before ++ row :: after) →
  Forall (λ r, ∃ name, cell header r COL_TOOL = Ok name ∧ name ≠ u_tool u)
         before →
  cell header row COL_TOOL = Ok (u_tool u) →
  update_row header row u = Ok row' →
  update_matrix content u = Ok (writerows (header :: before ++ row' :: after)).
Proof.
  intros Hread Hbefore Hkey Hrow'.
  unfold update_matrix. rewrite Hread. simpl_bind.
  cbn [update_rows]. rewrite update_data_before by done.
  cbn [update_data]. unfold cell in Hkey.
  destruct (idx header COL_TOOL) as [i|e]; [|done]. simpl_bind.
  cbn in Hkey. rewrite Hkey. simpl_bind. rewrite str_eqb_refl. cbn [negb].
  rewrite Hrow'. reflexivity.
Qed.

Lemma filter_all {A} (f : A → bool) l :
  Forall (λ x, f x = true) l → List.filter f l = l.
Proof. induction 1 as [|x l Hx Hl IH]; cbn; [done|]. by rewrite Hx, IH. Qed.

Lemma cell_not_blank header row name v :
  cell header row name = Ok v → is_blank row = false.
Proof.
  unfold cell. destruct (idx header name) as [i|e]; [|done]. simpl_bind.
  unfold row_get. by destruct row.
Qed.

(** X21.  What the runner records for a tool is what the reports count.
    After the update of the tracking file for a tool that has a row, the
    row that [csv.DictReader] gives for that line has, under each name
    that the runner assigned, the value that the runner assigned; in
    particular the reports count the tool as passed exactly when the
    update said that it passed. *)
Theorem reports_see_the_tracking_update content header before row after u :
  csv_reader content = Ok (header :: before ++ row :: after) →
  Forall (λ c, In c header) all_columns → length header ≤ length row →
  Forall (λ r, ∃ name, cell header r COL_TOOL = Ok name ∧ name ≠ u_tool u)
         before →
  cell header row COL_TOOL = Ok (u_tool u) →
  update_within u →
  ∃ old content' rows dr,
    cell header row COL_ERROR_VISIBLE = Ok old ∧
    update_matrix content u = Ok content' ∧
    load_csv content' = Ok rows ∧
    rows !! length before = Some dr ∧
    get dr COL_TOOL = Some (u_tool u) ∧
    (∀ name v, In (name, v) (assigned_cells u old) → get dr name = Some v) ∧
    cell_eqb (get dr COL_MCP_PASSED) YES = u_passed u.
Proof.
  intros Hread Hcols Hlen Hbefore Hkey Hu.
  destruct (update_row_spec header row u Hcols Hlen)
    as (old & row' & Hold & Hrow' & Hlen' & _ & Hcells & Htool).
  pose proof (csv_reader_within _ _ Hread) as Hlim.
  apply Forall_cons in Hlim as [Hh Hlim]. apply Forall_app in Hlim as [Hb Hlim].
  apply Forall_cons in Hlim as [Hr Ha].
  destruct (update_row_within header row u row' Hcols Hlen Hr Hu Hrow') as [Hr' _].
  exists old, (writerows (header :: before ++ row' :: after)),
    (map (dict_of_row header)
         (List.filter (λ r, negb (is_blank r)) (before ++ row' :: after))),
    (dict_of_row header row').
  split; [done|]. split; [by eapply update_matrix_at_first_row|]. split.
  { unfold load_csv, DictReader. rewrite reader_writerows; [reflexivity|].
    apply Forall_cons. split; [done|]. apply Forall_app. split; [done|].
    by apply Forall_cons. }
  rewrite <- Htool in Hkey. split.
  { rewrite List.filter_app, map_app. cbn [List.filter].
    rewrite (cell_not_blank _ _ _ _ Hkey). cbn [negb map].
    rewrite filter_all.
    - rewrite lookup_app_r by (rewrite length_map; lia).
      rewrite length_map, Nat.sub_diag. reflexivity.
    - eapply Forall_impl; [exact Hbefore|]. intros r (name & Hname & _).
      cbn. by rewrite (cell_not_blank _ _ _ _ Hname). }
  split; [by apply get_dict_of_row|]. split.
  { intros name v Hin. apply get_dict_of_row. by apply Hcells. }
  rewrite (get_dict_of_row header row' COL_MCP_PASSED (yes_no (u_passed u))).
  - by destruct (u_passed u).
  - apply Hcells. cbn. tauto.
Qed.

(** ** The summaries *)

Lemma filter_length_split {A} (f : A → bool) l :
  length (List.filter f l) + length (List.filter (λ x, negb (f x)) l) = length l.
Proof.
  induction l as [|x l IH]; [done|]. cbn. destruct (f x); cbn; lia.
Qed.

Lemma failed_tools_length rows failed :
  failed_tools rows = Ok failed →
  length failed
  = length (List.filter (λ r, negb (cell_eqb (get r COL_MCP_PASSED) YES)) rows).
Proof.
  revert failed. induction rows as [|r rows IH]; intros failed; cbn.
  { by intros [= <-]. }
  destruct (cell_eqb (get r COL_MCP_PASSED) YES); cbn; [apply IH|].
  destruct (getitem r COL_TOOL) as [name|e]; [|done]. simpl_bind.
  destruct (failed_tools rows) as [names|e]; [|done]. simpl_bind.
  intros [= <-]. cbn. f_equal. by apply IH.
Qed.

(** X22.  The two parts of the final report agree: the count of passed
    tools in the summary and the list of failed tools add up to the
    number of rows, so that the summary shows as passed all the tools
    that the list does not name, and the list is empty exactly when the
    summary counts every tool. *)
Theorem summary_agrees_with_the_failed_tools rows failed :
  failed_tools rows = Ok failed →
  count_yes rows COL_MCP_PASSED + length failed = length rows
  ∧ out_get (summarize_matrix rows) COL_MCP_PASSED
    = Some (ratio (length rows - length failed) (length rows))
  ∧ out_get (summarize_matrix rows) KEY_TOTAL = Some (str_of_nat (length rows))
  ∧ (failed = [] ↔ count_yes rows COL_MCP_PASSED = length rows).
Proof.
  intros H. apply failed_tools_length in H.
  pose proof (filter_length_split (λ r, cell_eqb (get r COL_MCP_PASSED) YES) rows) as Hsplit.
  cbv beta in Hsplit.
  fold (count_yes rows COL_MCP_PASSED) in Hsplit. rewrite <- H in Hsplit.
  split; [done|]. split; [|split].
  - replace (length rows - length failed) with (count_yes rows COL_MCP_PASSED) by lia.
    reflexivity.
  - reflexivity.
  - split; [intros ->; cbn in Hsplit; lia|].
    intros Heq. destruct failed; [done|]. cbn in Hsplit. lia.
Qed.

Lemma collect_run_ids_spec rows : ∀ acc,
  NoDup acc →
  NoDup (collect_run_ids rows acc)
  ∧ ∀ rid, In rid (collect_run_ids rows acc)
           ↔ In rid acc
             ∨ (rid ≠ [] ∧ ∃ r, In r rows ∧ get_or r KEY_RUN_ID [] = Some rid).
Proof.
  induction rows as [|row rows IH]; intros acc Hnd; cbn [collect_run_ids].
  { split; [done|]. intros rid. split; [by left|].
    intros [H|(_ & r & [] & _)]. done. }
  set (acc' := match get_or row KEY_RUN_ID [] with
               | Some rid =>
                   if nonempty rid && negb (str_in rid acc)
                   then acc ++ [rid] else acc
               | None => acc
               end).
  assert (NoDup acc' ∧
          ∀ rid, In rid acc'
                 ↔ In rid acc ∨ (rid ≠ [] ∧ get_or row KEY_RUN_ID [] = Some rid))
    as [Hnd' Hin'].
  { subst acc'. destruct (get_or row KEY_RUN_ID []) as [rid0|].
    2:{ split; [done|]. intros rid. split; [by left|]. by intros [H|[_ H]]. }
    destruct (nonempty rid0) eqn:Hne; cbn [andb].
    2:{ split; [done|]. intros rid. split; [by left|].
        intros [H|[Hrid [= ->]]]; [done|]. by destruct rid. }
    destruct (str_in rid0 acc) eqn:Hmem; cbn [negb].
    - split; [done|]. intros rid. split; [by left|].
      intros [H|[Hrid [= ->]]]; [done|]. by apply str_in_In.
    - split.
      + apply NoDup_app. split; [done|]. split; [|apply NoDup_singleton].
        intros x Hx Hx'. apply list_elem_of_singleton in Hx' as ->.
        apply str_in_false in Hmem. apply Hmem. by apply list_elem_of_In.
      + intros rid. rewrite in_app_iff. cbn [In]. split.
        * intros [H|[<-|[]]]; [by left|]. right. split; [|done]. by destruct rid0.
        * intros [H|[_ [= ->]]]; [by left|]. right. by left. }
  destruct (IH acc' Hnd') as [Hnd'' Hin'']. split; [done|].
  intros rid. rewrite Hin'', Hin'. cbn [In]. split.
  - intros [[H|[Hrid H]]|(Hrid & r & Hr & H)]; [by left| |].
    + right. split; [done|]. exists row. split; [by left|done].
    + right. split; [done|]. exists r. split; [by right|done].
  - intros [H|(Hrid & r & [<-|Hr] & H)]; [by left; left| |].
    + left. right. by split.
    + right. split; [done|]. by exists r.
Qed.

Lemma last_items_In {A} (x : A) n l : In x (last_items n l) → In x l.
Proof. unfold last_items. destruct (0 <? n)%Z; apply In_drop. Qed.


(** X24.  Every entry of the summary of the recent runs is for a run
    that has at least one row, so that the test [total > 0] of the script
    never fails: the status of a run is "passed" exactly when every row
    of the run has the flag of success; the count of passed rows is never
    above the count of rows. *)
Theorem recent_run_entries rows n e :
  In e (summarize_recent_runs rows n) →
  ∃ rid total passed,
    e = [ (KEY_RUN_ID, rid); (KEY_COUNT, str_of_nat total);
          (KEY_PASS_COUNT, str_of_nat passed);
          (KEY_STATUS, if passed =? total then PASSED else FAILED) ]
    ∧ rid ≠ [] ∧ 1 ≤ total ∧ passed ≤ total
    ∧ total = length (List.filter (λ r, cell_eqb (get r KEY_RUN_ID) rid) rows)
    ∧ passed
      = length (List.filter
                  (λ r, cell_eqb (get r KEY_RUN_ID) rid
                        && cell_eqb (get r KEY_PASSED) YES) rows).
Proof.
  unfold summarize_recent_runs. intros He. apply in_map_iff in He as (rid & <- & Hrid).
  apply last_items_In in Hrid.
  destruct (collect_run_ids_spec rows [] NoDup_nil_2) as [_ Hin].
  apply Hin in Hrid as [[]|(Hne & r & Hr & Hget)].
  set (subset := List.filter (λ r, cell_eqb (get r KEY_RUN_ID) rid) rows).
  assert (In r subset) as Hsub.
  { apply filter_In. split; [done|]. unfold get_or in Hget. unfold get.
    destruct (cells_get (cells r) KEY_RUN_ID) as [v|]; cbn in Hget |- *.
    - subst v. cbn. apply str_eqb_refl.
    - by injection Hget as <-. }
  assert (1 ≤ length subset) as Hpos by (destruct subset; [done|cbn; lia]).
  assert (count_yes subset KEY_PASSED ≤ length subset) as Hle.
  { unfold count_yes. apply List.filter_length_le. }
  exists rid, (length subset), (count_yes subset KEY_PASSED).
  split.
  { unfold run_summary. fold subset.
    destruct (Nat.ltb_spec 0 (length subset)); [reflexivity|lia]. }
  split; [done|]. split; [done|]. split; [done|]. split; [reflexivity|].
  unfold count_yes, subset. clear.
  induction rows as [|r rows IH]; [done|]. cbn [List.filter].
  destruct (cell_eqb (get r KEY_RUN_ID) rid); cbn [andb List.filter]; [|exact IH].
  destruct (cell_eqb (get r KEY_PASSED) YES); cbn [length]; by rewrite IH.
Qed.

(** ** The acceptance report *)

Lemma print_failures_named failures :
  Forall (λ r, is_Some (cells_get (cells r) COL_TOOL)) failures →
  ∃ printed, print_failures failures = (printed, None)
             ∧ length printed = length failures.
Proof.
  induction 1 as [|r failures [name Hname] _ (printed & IH & Hlen)].
  { by exists []. }
  cbn [print_failures]. unfold getitem. rewrite Hname, IH.
  eexists. split; [reflexivity|]. cbn. by rewrite Hlen.
Qed.

(** X25.  The acceptance report prints six lines of counts, and, when
    some tool has not passed, a title and one line for each such tool:
    as many lines as the total exceeds the count of passed tools.  With a
    table that has the column of names it ends without an exception. *)
Theorem acceptance_report_lists_the_failures content rows :
  load_csv content = Ok rows →
  Forall (λ r, is_Some (cells_get (cells r) COL_TOOL)) rows →
  ∃ lines,
    acceptance_report content = (lines, None)
    ∧ count_yes rows COL_MCP_PASSED ≤ length rows
    ∧ (count_yes rows COL_MCP_PASSED = length rows → length lines = 6)
    ∧ (count_yes rows COL_MCP_PASSED < length rows →
       length lines = 7 + (length rows - count_yes rows COL_MCP_PASSED)
       ∧ lines !! 6 = Some (LF :: NOT_PASSED_TITLE))
    ∧ lines !! 0 = Some (KEY_TOTAL ++ lit ": " ++ str_of_nat (length rows)).
Proof.
  intros Hload Hnamed. unfold acceptance_report.
  unfold load_csv in Hload. rewrite Hload.
  pose proof (filter_length_split (λ r, cell_eqb (get r COL_MCP_PASSED) YES) rows)
    as Hsplit.
  cbv beta in Hsplit. fold (count_yes rows COL_MCP_PASSED) in Hsplit.
  set (failures := List.filter (λ row, negb (cell_eqb (get row COL_MCP_PASSED) YES)) rows) in *.
  assert (Forall (λ r, is_Some (cells_get (cells r) COL_TOOL)) failures) as Hf.
  { apply Forall_forall. intros r Hr. apply list_elem_of_In, filter_In in Hr as [Hr _].
    rewrite Forall_forall in Hnamed. by apply Hnamed, list_elem_of_In. }
  destruct (print_failures_named failures Hf) as (printed & Hprint & Hlen).
  destruct failures as [|f failures'] eqn:E.
  - eexists. split; [reflexivity|]. cbn in Hsplit.
    split; [lia|]. split; [done|]. split; [lia|reflexivity].
  - rewrite Hprint. eexists. split; [reflexivity|].
    split; [lia|]. split; [cbn in Hsplit; lia|]. split; [|reflexivity].
    intros _. split; [|reflexivity].
    rewrite length_app. cbn [length] in *. unfold pystr in *. lia.
Qed.

Section Lifecycle.
Context {lib : PyLib}.

(** ** Credentials *)





Lemma starts_with_prefix p s : starts_with p (p ++ s) = true.
Proof. apply starts_with_app. Qed.

(** X27.  When both credentials are set in the environment and are not
    blank, [ensure_login_credentials] returns them whatever the network
    does, no request being looked at.  Otherwise, once the request is
    built, every failure of the quickstart (an HTTP error whose body can
    be read, an exception of the transfer, a body that is not JSON or has
    no key) is raised as a [RuntimeError] whose text begins with
    [quickstart failed: ]. *)
Theorem quickstart_failures env :
  (nonempty (strip (default [] (environ_email env)))
   && nonempty (strip (default [] (environ_password env))) = true →
   ensure_login_credentials env
   = Ok (strip (default [] (environ_email env)),
         strip (default [] (environ_password env))))
  ∧ (request_error env = None →
     (∀ code ex, response env ≠ HTTPError code (Raise ex)) →
     ∀ ex, ensure_login_credentials env = Raise ex →
           exn_type ex = RuntimeError
           ∧ starts_with QUICKSTART_FAILED (exn_str ex) = true).
Proof.
  split.
  - intros H. unfold ensure_login_credentials. by rewrite H.
  - intros Hreq Hread ex. unfold ensure_login_credentials. rewrite Hreq.
    assert (∀ msg, Raise (A := pystr * pystr) (Exn RuntimeError (QUICKSTART_FAILED ++ msg)) = Raise ex →
                   exn_type ex = RuntimeError
                   ∧ starts_with QUICKSTART_FAILED (exn_str ex) = true) as Hfail.
    { intros msg H.
      assert (ex = Exn RuntimeError (QUICKSTART_FAILED ++ msg)) as -> by congruence.
      split; [reflexivity|]. apply starts_with_app. }
    destruct (nonempty _ && nonempty _); [done|].
    destruct (response env) as [code [t|e]|e|text] eqn:Hresp.
    + simpl_bind. apply Hfail.
    + by destruct (Hread code e).
    + apply Hfail.
    + destruct (has_api_key text) as [[|]|e]; [done| |]; apply Hfail.
Qed.

(** ** The session from [start] to [close] *)


Lemma close_closed self env : proc (close self env).1 = false.
Proof.
  unfold close. destruct (proc self) eqn:E; [reflexivity|]. exact E.
Qed.

Lemma close_request_id self env :
  request_id (close self env).1 = request_id self.
Proof. unfold close. by destruct (proc self). Qed.



(** X28.  A round whose session does not start (the process cannot be
    launched, the call of [initialize] fails or the notification cannot
    be written): the exception leaves the round, nothing is written to
    the run log or to the tracking file, and the session is closed; when
    the process was not launched, no call is made on it. *)
Theorem round_without_session round_no log matrix_ env ex :
  (start MCPClient_init (starting env)).2 = Raise ex →
  ∃ st calls,
    run_round round_no log matrix_ env = (st, calls, Some ex) ∧
    run_log st = log ∧ matrix st = matrix_ ∧
    proc (client st) = false ∧
    (is_Some (popen (starting env)) → calls = []).
Proof.
  intros Hstart. unfold run_round.
  destruct (start MCPClient_init (starting env)) as [c started] eqn:Es.
  cbn [snd] in Hstart. subst started.
  destruct (close c (closing env)) as [c' calls] eqn:Ec.
  eexists _, _. split; [reflexivity|]. cbn.
  split; [done|]. split; [done|]. split.
  - pose proof (close_closed c (closing env)) as H. by rewrite Ec in H.
  - intros [msg Hmsg]. unfold start in Es. rewrite Hmsg in Es.
    injection Es as <- _. by injection Ec as _ <-.
Qed.




End Lifecycle.

(** * Further examples *)

Ltac not_in :=
  let H := fresh in
  intros H; vm_compute in H;
  repeat (destruct H as [H|H]; [discriminate H|]); exact H.

Ltac small := unfold within_limit, field_limit; cbn; lia.

Lemma extract_text_passes_over_witness :
  extract_text (lib := example_lib)
    (VDict [(lit "content",
             VList ([text_entry "a"] ++ VDict image_entry :: [text_entry "b"]))])
  = extract_text (lib := example_lib)
      (VDict [(lit "content", VList ([text_entry "a"] ++ [text_entry "b"]))])
  ∧ extract_text (lib := example_lib)
      (VDict [(lit "content", VList ([text_entry "a"] ++ [text_entry "b"]))])
    = Ok [97; 10; 98]%N.
Proof.
  split; [|vm_compute; reflexivity].
  apply (extract_text_passes_over_other_entries (lib := example_lib)
           _ _ [text_entry "a"] image_entry [text_entry "b"]); reflexivity.
Defined.

Lemma extract_text_is_stripped_witness :
  extract_text (lib := example_lib) (text_result (lit "  ok ")) = Ok (lit "ok")
  ∧ strip (lit "ok") = lit "ok".
Proof.
  split; [vm_compute; reflexivity|].
  apply (proj1 (extract_text_is_stripped (lib := example_lib))
           (text_result (lit "  ok ")) (lit "ok")).
  vm_compute; reflexivity.
Defined.

Lemma parse_preview_id_witness :
  strip (lit "pv_42") = lit "pv_42" ∧
  parse_preview_id (lit "Preview ready. " ++ lit "[preview_id:" ++ lit " "
                      ++ lit "pv_42" ++ [RBRACKET] ++ lit " Confirm to publish.")
  = lit "pv_42".
Proof.
  split; [reflexivity|].
  apply parse_preview_id_finds_the_identifier;
    [not_in | repeat constructor | discriminate | reflexivity | not_in].
Defined.

Lemma parse_preview_id_shape_witness :
  ¬ In RBRACKET (lit "[preview_id: pv_42") ∧
  parse_preview_id (lit "[preview_id: pv_42") = [].
Proof.
  split; [not_in|].
  apply (proj2 (proj2 (parse_preview_id_shape (lit "[preview_id: pv_42")))).
  not_in.
Defined.

Lemma parse_post_id_witness :
  lower (lit "/Post/") = lit "/post/" ∧
  parse_post_id (lit "see " ++ lit "/Post/" ++ lit "Ab12" ++ lit "?x=1")
  = lit "Ab12".
Proof.
  split; [reflexivity|].
  apply parse_post_id_finds_the_identifier;
    [not_in | reflexivity | discriminate | repeat constructor |].
  intros c rest' H. vm_compute in H. injection H as <- _. reflexivity.
Defined.

Lemma parse_post_id_shape_witness :
  ¬ In 47%N (lit "no address here") ∧ parse_post_id (lit "no address here") = [].
Proof.
  split; [not_in|].
  apply (proj2 (parse_post_id_shape (lit "no address here"))). not_in.
Defined.

Lemma update_matrix_needs_the_tool_column_witness :
  csv_reader (writerows [[lit "tool"; COL_RUN_ID]; [lit "scan_sessions"; []]])
  = Ok [[lit "tool"; COL_RUN_ID]; [lit "scan_sessions"; []]] ∧
  update_matrix (writerows [[lit "tool"; COL_RUN_ID]; [lit "scan_sessions"; []]])
                (example_update "scan_sessions" "RUN-1")
  = Raise (Exn KeyError (lit "'" ++ COL_TOOL ++ lit "'")).
Proof.
  split; [vm_compute; reflexivity|].
  apply (update_matrix_needs_the_tool_column _ [lit "tool"; COL_RUN_ID]
           [lit "scan_sessions"; []] []);
    [vm_compute; reflexivity | not_in].
Defined.

Lemma update_matrix_short_row_witness :
  csv_reader (writerows [all_columns; []; scan_row])
  = Ok (all_columns :: [] ++ [] :: [scan_row]) ∧
  update_matrix (writerows [all_columns; []; scan_row])
                (example_update "scan_sessions" "RUN-1")
  = Raise (Exn IndexError (lit "list index out of range")).
Proof.
  split; [vm_compute; reflexivity|].
  apply (update_matrix_short_row _ all_columns [] [] [scan_row] _ 0);
    [vm_compute; reflexivity | reflexivity | cbn; lia | constructor].
Defined.

Lemma update_matrix_stops_at_the_first_row_witness :
  ∃ row',
    update_matrix (writerows [all_columns; read_row; scan_row; scan_row; []])
                  (example_update "scan_sessions" "RUN-1")
    = Ok (writerows [all_columns; read_row; row'; scan_row; []]) ∧
    cell all_columns row' COL_RUN_ID = Ok (lit "RUN-1").
Proof.
  destruct (update_matrix_stops_at_the_first_row
              (writerows [all_columns; read_row; scan_row; scan_row; []])
              all_columns [read_row] scan_row [scan_row; []]
              (example_update "scan_sessions" "RUN-1"))
    as (old & row' & _ & Hupdate & Hcells & _).
  - vm_compute; reflexivity.
  - apply Forall_forall. intros c Hc. apply list_elem_of_In. exact Hc.
  - cbn; lia.
  - repeat constructor. exists (lit "read_session").
    split; [vm_compute; reflexivity|discriminate].
  - vm_compute; reflexivity.
  - exists row'. split; [exact Hupdate|]. apply Hcells.
    do 6 right. left. reflexivity.
Defined.

Lemma update_matrix_missing_column_witness :
  ¬ In COL_UPDATED short_header ∧
  ∃ c, In c updated_columns ∧
       update_matrix (writerows [short_header; [lit "scan_sessions"; []]])
                     (example_update "scan_sessions" "RUN-1")
       = Raise (Exn KeyError (lit "'" ++ c ++ lit "'")).
Proof.
  split; [not_in|].
  destruct (update_matrix_missing_column
              (writerows [short_header; [lit "scan_sessions"; []]])
              short_header [] [lit "scan_sessions"; []] []
              (example_update "scan_sessions" "RUN-1"))
    as (c & Hc & _ & H).
  - vm_compute; reflexivity.
  - cbn; lia.
  - constructor.
  - vm_compute; reflexivity.
  - exists COL_UPDATED. split; [do 12 right; left; reflexivity|not_in].
  - exists c. split; [exact Hc|exact H].
Defined.


Lemma independent_tools_witness :
  ¬ In (lit "browse_posts") dependent_tools ∧
  resolve_args (lib := example_lib) (lit "browse_posts") [(lit "limit", VInt 5)]
               (initial_context (Some (lit "qa@example.com", lit "secret")))
  = [(lit "limit", VInt 5)].
Proof.
  split; [not_in|].
  apply (proj1 (independent_tools_get_their_template (lib := example_lib))).
  not_in.
Defined.

Lemma dependent_tools_witness :
  truthy (ctx_get ∅ "post_id") = false ∧
  resolve_args (lib := example_lib) (lit "vote_on_post")
               [(lit "value", VInt 1)] ∅ = [].
Proof.
  split; [reflexivity|].
  apply (proj1 (proj2 (dependent_tools_without_their_entries (lib := example_lib)
                         [(lit "value", VInt 1)] ∅))).
  - right. right. left. reflexivity.
  - reflexivity.
Defined.

Lemma edit_and_delete_witness :
  ctx_get (update_context (lib := example_lib) (lit "browse_posts") sessions_text
             (ctx_set ∅ "own_post_id" (VStr (lit "abc123"))))
          "own_post_id"
  = ctx_get (ctx_set ∅ "own_post_id" (VStr (lit "abc123"))) "own_post_id".
Proof.
  apply (proj2 (proj2 (edit_and_delete_target_the_own_post (lib := example_lib))));
    discriminate.
Defined.

Lemma setup_password_witness :
  ∃ masked,
    mask_payload (resolve_args (lib := example_lib) (lit "codeblog_setup") []
                    (initial_context (Some (lit "qa@example.com", lit "secret"))))
    = VDict masked ∧
    dict_get masked (lit "password") = Some (VStr (lit "***")).
Proof.
  destruct (proj1 (setup_password_is_masked (lib := example_lib) []
                     (initial_context (Some (lit "qa@example.com", lit "secret")))))
    as (_ & masked & Hmask & Hpassword & _).
  - vm_compute; reflexivity.
  - exists masked. split; [exact Hmask|exact Hpassword].
Defined.

Lemma reports_read_the_cell_witness :
  cell [lit "a"; lit "b"; lit "a"] [lit "1"; lit "2"; lit "3"] (lit "a")
  = Ok (lit "3") ∧
  get (dict_of_row [lit "a"; lit "b"; lit "a"] [lit "1"; lit "2"; lit "3"])
      (lit "a")
  = Some (lit "3").
Proof.
  split; [reflexivity|].
  apply (proj1 (reports_read_the_cell_of_the_runner
                  [lit "a"; lit "b"; lit "a"] [lit "1"; lit "2"; lit "3"]
                  (lit "a") (lit "3") eq_refl)).
Defined.

Lemma reports_see_the_tracking_update_witness :
  ∃ content' rows dr,
    update_matrix (matrix example_state) (example_update "read_session" "RUN-7")
    = Ok content' ∧
    load_csv content' = Ok rows ∧
    rows !! 1 = Some dr ∧
    get dr COL_TOOL = Some (lit "read_session") ∧
    get dr COL_RUN_ID = Some (lit "RUN-7") ∧
    cell_eqb (get dr COL_MCP_PASSED) YES = true.
Proof.
  destruct (reports_see_the_tracking_update (matrix example_state)
              all_columns [scan_row] read_row []
              (example_update "read_session" "RUN-7"))
    as (old & content' & rows & dr & _ & Hupdate & Hload & Hdr & Htool & Hcells & Hflag).
  - vm_compute; reflexivity.
  - apply Forall_forall. intros c Hc. apply list_elem_of_In. exact Hc.
  - cbn; lia.
  - repeat constructor. exists (lit "scan_sessions").
    split; [vm_compute; reflexivity|discriminate].
  - vm_compute; reflexivity.
  - repeat apply Forall_cons_2; try apply Forall_nil_2; small.
  - exists content', rows, dr. split; [exact Hupdate|]. split; [exact Hload|].
    split; [exact Hdr|]. split; [exact Htool|]. split; [|exact Hflag].
    apply Hcells. do 6 right. left. reflexivity.
Defined.

Lemma summary_agrees_witness :
  failed_tools report_rows = Ok [Some (lit "read_session")] ∧
  out_get (summarize_matrix report_rows) COL_MCP_PASSED = Some (lit "1/2").
Proof.
  split; [vm_compute; reflexivity|].
  exact (proj1 (proj2 (summary_agrees_with_the_failed_tools report_rows
                         [Some (lit "read_session")] eq_refl))).
Defined.


Lemma recent_run_entries_witness :
  In (run_summary log_rows (lit "RUN-B")) (summarize_recent_runs log_rows 2) ∧
  ∃ rid total passed,
    run_summary log_rows (lit "RUN-B")
    = [ (KEY_RUN_ID, rid); (KEY_COUNT, str_of_nat total);
        (KEY_PASS_COUNT, str_of_nat passed);
        (KEY_STATUS, if passed =? total then PASSED else FAILED) ] ∧
    1 ≤ total ∧ passed ≤ total.
Proof.
  assert (In (run_summary log_rows (lit "RUN-B")) (summarize_recent_runs log_rows 2))
    as Hin by (left; reflexivity).
  split; [exact Hin|].
  destruct (recent_run_entries log_rows 2 _ Hin)
    as (rid & total & passed & He & _ & Hpos & Hle & _).
  exists rid, total, passed. split; [exact He|]. split; [exact Hpos|exact Hle].
Defined.

Lemma acceptance_report_witness :
  load_csv (writerows [ report_header;
                        [lit "scan_sessions"; YES; PASSED; []];
                        [lit "read_session"; NO; FAILED; ISSUE_TEXT] ])
  = Ok report_rows ∧
  ∃ lines,
    acceptance_report (writerows [ report_header;
                                   [lit "scan_sessions"; YES; PASSED; []];
                                   [lit "read_session"; NO; FAILED; ISSUE_TEXT] ])
    = (lines, None) ∧
    length lines = 8.
Proof.
  split; [vm_compute; reflexivity|].
  destruct (acceptance_report_lists_the_failures
              (writerows [ report_header;
                           [lit "scan_sessions"; YES; PASSED; []];
                           [lit "read_session"; NO; FAILED; ISSUE_TEXT] ])
              report_rows)
    as (lines & Hreport & _ & _ & Hfail & _).
  - vm_compute; reflexivity.
  - repeat constructor; vm_compute; eauto.
  - exists lines. split; [exact Hreport|].
    destruct Hfail as [Hlen _]; [vm_compute; lia|exact Hlen].
Defined.

Lemma quickstart_failures_witness :
  ensure_login_credentials (lib := example_lib) example_login
  = Raise (Exn RuntimeError (QUICKSTART_FAILED ++ lit "connection refused")) ∧
  starts_with QUICKSTART_FAILED
              (QUICKSTART_FAILED ++ lit "connection refused") = true.
Proof.
  split; [reflexivity|].
  apply (proj2 (quickstart_failures (lib := example_lib) example_login)
           eq_refl ltac:(discriminate)
           (Exn RuntimeError (QUICKSTART_FAILED ++ lit "connection refused"))
           eq_refl).
Defined.

Lemma round_without_session_witness :
  (start (lib := example_lib) MCPClient_init
         (starting (example_round (Some (lit "No such file or directory"))))).2
  = Raise (Exn OSError (lit "No such file or directory")) ∧
  ∃ st calls,
    run_round (lib := example_lib) 1 [] (matrix example_state)
              (example_round (Some (lit "No such file or directory")))
    = (st, calls, Some (Exn OSError (lit "No such file or directory"))) ∧
    run_log st = [] ∧ calls = [].
Proof.
  split; [reflexivity|].
  destruct (round_without_session (lib := example_lib) 1 [] (matrix example_state)
              (example_round (Some (lit "No such file or directory")))
              (Exn OSError (lit "No such file or directory")) eq_refl)
    as (st & calls & Hround & Hlog & _ & _ & Hcalls).
  exists st, calls. split; [exact Hround|]. split; [exact Hlog|].
  apply Hcalls. eexists. reflexivity.
Defined.



